(** * aoupy.bucket: bucket I/O helpers

    A shallow embedding of [src/aoupy/bucket.py].  The module is a thin
    layer over the storage command line ([gsutil], [gcloud storage]), the
    process environment, the local file system and the polars CSV reader.
    Every function is embedded as a program of the interaction monad
    [prog]: the calls the Python code makes to its environment are the
    events of the program, in the order the code makes them, and the
    answers of the environment are the arguments of the continuations.

    Python [str] values are represented by their UTF-8 encoding, a Rocq
    [string]; the operations the module uses on them ([split] on a one
    character separator, [replace], concatenation, comparison) commute
    with that encoding. *)

From Stdlib Require Import String Ascii List ZArith Bool Lia.
Import ListNotations.

Local Open Scope list_scope.
Local Open Scope string_scope.

Set Implicit Arguments.

(** ** Python built-ins used by the module *)

Module Py.

(** [s.split(sep)] for a separator of one character, which is what the
    three call sites pass (".", "/" and a newline).  The result is never
    empty: the empty string splits to one empty piece. *)
Fixpoint split (sep : ascii) (s : string) : list string :=
  match s with
  | EmptyString => [EmptyString]
  | String c s' =>
      if Ascii.eqb c sep then EmptyString :: split sep s'
      else match split sep s' with
           | [] => [String c EmptyString]
           | w :: ws => String c w :: ws
           end
  end.

(** [xs[-1]] on a list of strings; the module only indexes the result of
    [split], which is not empty. *)
Definition last_item (xs : list string) : string := last xs EmptyString.

(** [xs[:-1]]: every item but the last; the empty list stays empty. *)
Definition but_last (A : Type) (xs : list A) : list A := removelast xs.

(** [sep.join(xs)]. *)
Definition join (sep : string) (xs : list string) : string :=
  String.concat sep xs.

(** [s.startswith(p)] as a boolean. *)
Fixpoint startswith (p s : string) : bool :=
  match p, s with
  | EmptyString, _ => true
  | String a p', String b s' => Ascii.eqb a b && startswith p' s'
  | String _ _, EmptyString => false
  end.

(** [s.replace(old, new)] for a non-empty [old]: the occurrences of [old]
    are found from left to right and do not overlap.  [skip] counts the
    characters of a match that are still to be dropped. *)
Fixpoint replace_from (old new : string) (skip : nat) (s : string) : string :=
  match s with
  | EmptyString => EmptyString
  | String c s' =>
      match skip with
      | S n => replace_from old new n s'
      | O =>
          if startswith old s
          then new ++ replace_from old new (String.length old - 1) s'
          else String c (replace_from old new O s')
      end
  end.

(** The byte [c] lies in [lo..hi]. *)
Definition in_range (lo hi : N) (c : ascii) : bool :=
  let n := N_of_ascii c in (N.leb lo n && N.leb n hi)%bool.

(** With an empty [old], Python puts [new] before every character and
    at the end.  A character is a code point: in the encoding, [new] goes
    before every byte that is not a continuation byte (128..191). *)
Fixpoint intersperse (new s : string) : string :=
  match s with
  | EmptyString => new
  | String c s' =>
      if in_range 128 191 c then String c (intersperse new s')
      else new ++ String c (intersperse new s')
  end.

Definition replace (s old new : string) : string :=
  match old with
  | EmptyString => intersperse new s
  | String _ _ => replace_from old new O s
  end.

(** What an f-string prints for a value that is a [str] or [None]. *)
Definition fmt (v : option string) : string :=
  match v with
  | Some s => s
  | None => "None"
  end.

(** [x is None] / [x == None] for an optional string. *)
Definition is_none (A : Type) (v : option A) : bool :=
  match v with
  | None => true
  | Some _ => false
  end.

(** *** [bytes.decode('utf-8')]

    The decoder is strict: it accepts exactly the well-formed byte
    sequences of the Unicode standard (no overlong forms, no surrogates,
    nothing above U+10FFFF).  As a [str] is represented by its encoding,
    a successful decoding returns the bytes it was given. *)
(** The decoder as an automaton over the bytes: [need] continuation
    bytes are still expected, the next of them within [lo..hi]. *)
Fixpoint utf8_from (need : nat) (lo hi : N) (s : string) : bool :=
  match s with
  | EmptyString => Nat.eqb need 0
  | String c r =>
      match need with
      | S n => in_range lo hi c && utf8_from n 128 191 r
      | O =>
          if in_range 0 127 c then utf8_from 0 128 191 r
          else if in_range 194 223 c then utf8_from 1 128 191 r
          else if in_range 224 224 c then utf8_from 2 160 191 r
          else if in_range 237 237 c then utf8_from 2 128 159 r
          else if in_range 225 239 c then utf8_from 2 128 191 r
          else if in_range 240 240 c then utf8_from 3 144 191 r
          else if in_range 241 243 c then utf8_from 3 128 191 r
          else if in_range 244 244 c then utf8_from 3 128 143 r
          else false
      end
  end.

Definition utf8_valid (s : string) : bool := utf8_from 0 128 191 s.

Definition decode_utf8 (b : string) : option string :=
  if utf8_valid b then Some b else None.

End Py.

(** ** Data *)

(** The exceptions a call can end with.  [ValueError] is raised by the
    module itself, [TypeError] and [AttributeError] by the interpreter,
    [CalledProcessError] and [UnicodeDecodeError] by the standard library;
    [OSError] and [PolarsError] stand for what the operating system and
    the dataframe library raise, named by their class. *)
Inductive exn : Type :=
| ValueError (msg : string)
| TypeError (msg : string)
| AttributeError (msg : string)
| CalledProcessError (returncode : Z) (cmd : string)
| UnicodeDecodeError
| OSError (class : string)
| PolarsError (class : string).

Inductive result (A : Type) : Type :=
| Ok (a : A)
| Err (e : exn).
Arguments Ok {A} a.
Arguments Err {A} e.

(** An eager dataframe.  Every frame the module parses is read with
    [infer_schema=False], so all its columns hold text: a frame is its
    header and its rows. *)
Record DataFrame : Type := mkDataFrame {
  columns : list string;
  rows : list (list string)
}.

Definition height (df : DataFrame) : nat := length (rows df).

(** A lazy frame is a plan that has not run yet; the only plans the module
    builds are scans of a CSV file. *)
Record LazyFrame : Type := mkLazyFrame {
  scan_path : string
}.

(** What a Python variable of the module may hold where the code uses a
    lazy and an eager frame interchangeably. *)
Inductive frame : Type :=
| Lazy (lf : LazyFrame)
| Eager (df : DataFrame).

(** The values [read_from_bucket] returns: one frame, or the list [dfs]. *)
Inductive loaded : Type :=
| Frame (f : frame)
| Frames (fs : list frame).

Definition columns_eq_dec : forall a b : list string, {a = b} + {a <> b} :=
  list_eq_dec string_dec.

(** [x.vstack(y)]: a new frame with the rows of [y] under those of [x];
    polars refuses frames whose columns differ. *)
Definition vstack (x y : DataFrame) : result DataFrame :=
  if columns_eq_dec (columns x) (columns y)
  then Ok (mkDataFrame (columns x) (rows x ++ rows y)%list)
  else Err (PolarsError "ShapeError").

(** ** The interaction monad *)

(** The calls to the environment.  The index is the type of the answer.
    [os_system] answers the exit status; [subprocess_run] answers the exit
    status and the captured standard output.

    [os_system] and [subprocess_run] are the start of a process, and
    [print] is a line that was written.  Python refuses a command that
    holds a NUL character with a [ValueError] before any process is
    started, and [print] may fail on its stream; these ways out are not
    answers of the events, so the traces of the model are those in which
    the command could be started and the line written.  The properties of
    a function as a whole are stated of the executions in which the
    process was started (the event is in the trace), of the calls that
    return, or as something a call never does. *)
Variant event : Type -> Type :=
| os_getenv (name : string) : event (option string)
| os_path_isdir (path : string) : event bool
| os_makedirs (path : string) : event (result unit)
| os_system (cmd : string) : event Z
| subprocess_run (cmd : string) : event (Z * string)
| print (line : string) : event unit
| pl_scan_csv (path : string) (infer_schema : bool) : event (result LazyFrame)
| pl_read_csv (path : string) (infer_schema : bool) : event (result DataFrame)
| lf_collect (lf : LazyFrame) : event (result DataFrame)
| df_write_csv (df : DataFrame) (path : string) : event (result unit).

Inductive prog (R : Type) : Type :=
| Ret (r : R)
| Raise (e : exn)
| Vis (X : Type) (ev : event X) (k : X -> prog R).
Arguments Ret {R} r.
Arguments Raise {R} e.
Arguments Vis {R X} ev k.

Fixpoint bind (A B : Type) (p : prog A) (f : A -> prog B) : prog B :=
  match p with
  | Ret a => f a
  | Raise e => Raise e
  | Vis ev k => Vis ev (fun x => bind (k x) f)
  end.

Declare Scope prog_scope.
Delimit Scope prog_scope with prog.
Notation "x <- p ;; q" := (bind p (fun x => q))
  (at level 61, p at next level, right associativity) : prog_scope.
Notation "p ;; q" := (bind p (fun _ => q))
  (at level 61, right associativity) : prog_scope.
Local Open Scope prog_scope.

(** An event whose answer is kept as it is. *)
Definition trigger (X : Type) (ev : event X) : prog X := Vis ev (fun x => Ret x).

(** A library call that may raise: the exception propagates. *)
Definition call (X : Type) (ev : event (result X)) : prog X :=
  Vis ev (fun r => match r with Ok x => Ret x | Err e => Raise e end).

(** A pure computation that may raise. *)
Definition lift (X : Type) (r : result X) : prog X :=
  match r with Ok x => Ret x | Err e => Raise e end.

(** [functools.reduce(f, xs)] without an initial value, for an [f] that
    may raise, and a list comprehension [[f(x) for x in xs]]. *)
Fixpoint fold_prog (A : Type) (f : A -> A -> prog A) (acc : A) (xs : list A)
  : prog A :=
  match xs with
  | [] => Ret acc
  | y :: ys => acc' <- f acc y ;; fold_prog f acc' ys
  end.

Definition reduce (A : Type) (f : A -> A -> prog A) (xs : list A) : prog A :=
  match xs with
  | [] => Raise (TypeError "reduce() of empty iterable with no initial value")
  | x :: xs' => fold_prog f x xs'
  end.

Fixpoint comprehension (A B : Type) (f : A -> prog B) (xs : list A)
  : prog (list B) :=
  match xs with
  | [] => Ret []
  | x :: xs' => y <- f x ;; ys <- comprehension f xs' ;; Ret (y :: ys)
  end.

(** [subprocess.check_output(cmd, shell=True)]: the captured output, or
    [CalledProcessError] when the exit status is not zero. *)
Definition check_output (cmd : string) : prog string :=
  o <- trigger (subprocess_run cmd) ;;
  if Z.eqb (fst o) 0 then Ret (snd o)
  else Raise (CalledProcessError (fst o) cmd).

(** [b.decode('utf-8')]. *)
Definition decode (b : string) : prog string :=
  match Py.decode_utf8 b with
  | Some s => Ret s
  | None => Raise UnicodeDecodeError
  end.

(** [f.replace(old, new)] where [old] may hold [None]. *)
Definition str_replace (s : string) (old : option string) (new : string)
  : result string :=
  match old with
  | Some o => Ok (Py.replace s o new)
  | None => Err (TypeError "replace() argument 1 must be str, not None")
  end.

(** [df.collect()] and [x.vstack(y)] on what the variables hold. *)
Definition collect (f : frame) : prog frame :=
  match f with
  | Lazy lf => df <- call (lf_collect lf) ;; Ret (Eager df)
  | Eager _ =>
      Raise (AttributeError "'DataFrame' object has no attribute 'collect'")
  end.

Definition vstack_frames (x y : frame) : prog frame :=
  match x, y with
  | Eager a, Eager b => df <- lift (vstack a b) ;; Ret (Eager df)
  | Eager _, Lazy _ =>
      Raise (TypeError "argument 'other': 'LazyFrame' is not a 'DataFrame'")
  | Lazy _, _ =>
      Raise (AttributeError "'LazyFrame' object has no attribute 'vstack'")
  end.

(** ** The module *)

Definition newline : ascii := "010"%char.

Definition WORKSPACE_BUCKET : string := "WORKSPACE_BUCKET".

(** The two lines every function but [write_to_bucket] has:
    [if bucket_id == None: bucket_id = os.getenv('WORKSPACE_BUCKET')]. *)
Definition default_bucket (bucket_id : option string) : prog (option string) :=
  if Py.is_none bucket_id then trigger (os_getenv WORKSPACE_BUCKET)
  else Ret bucket_id.

Definition copy_from_bucket (file_path : string) (bucket_id : option string)
  : prog unit :=
  bucket_id <- default_bucket bucket_id ;;
  trigger (os_system
    ("gsutil cp '" ++ Py.fmt bucket_id ++ "/" ++ file_path ++ "' .")) ;;
  trigger (print ("[INFO] " ++ file_path ++
                  " is successfully downloaded into your working space")).

Definition copy_to_bucket (file_name target : string)
  (bucket_id : option string) : prog unit :=
  bucket_id <- default_bucket bucket_id ;;
  let target_folder := Py.split "/" target in
  (if Nat.ltb 1 (length target_folder) then
     d <- trigger (os_path_isdir (Py.join "/" (Py.but_last target_folder))) ;;
     if negb d
     then call (os_makedirs (Py.join "/" (Py.but_last target_folder)))
     else Ret tt
   else Ret tt) ;;
  trigger (os_system
    ("gsutil cp " ++ file_name ++ " " ++ Py.fmt bucket_id ++ "/" ++ target)) ;;
  Ret tt.

(** The path list [ls_bucket] returns from the captured output. *)
Definition listing_of (text : string) : list string :=
  Py.but_last (Py.split newline text).

Definition ls_bucket (target bucket_id : option string) (return_list : bool)
  : prog (option (list string)) :=
  bucket_id <- default_bucket bucket_id ;;
  let cmd :=
    match target with
    | None => "gsutil ls " ++ Py.fmt bucket_id
    | Some t => "gsutil ls " ++ Py.fmt bucket_id ++ "/" ++ t
    end in
  if return_list then
    out <- check_output cmd ;;
    text <- decode out ;;
    Ret (Some (listing_of text))
  else
    trigger (os_system cmd) ;;
    Ret None.

Definition remove_from_bucket (file_path : string) (bucket_id : option string)
  : prog unit :=
  bucket_id <- default_bucket bucket_id ;;
  trigger (os_system ("gsutil rm " ++ Py.fmt bucket_id ++ "/" ++ file_path)) ;;
  Ret tt.

Definition write_to_bucket (file : DataFrame) (target : string)
  (bucket_id : option string) : prog unit :=
  call (df_write_csv file "bucket_io/temp.csv") ;;
  copy_to_bucket "bucket_io/temp.csv" target bucket_id.

(** The test of line 54 on a file name that is not [None]. *)
Definition csv_extension (file_name : string) : bool :=
  String.eqb (Py.last_item (Py.split "." file_name)) "csv".

(** The body of the [for f in file_targets] loop and the loop itself;
    [dfs] is the list the loop appends to. *)
Definition parse_target (bucket_id : option string) (lazy : bool) (f : string)
  : prog frame :=
  path <- lift (str_replace f bucket_id "bucket_io") ;;
  if lazy then lf <- call (pl_scan_csv path false) ;; Ret (Lazy lf)
  else df <- call (pl_read_csv path false) ;; Ret (Eager df).

Fixpoint parse_targets (bucket_id : option string) (lazy : bool)
  (file_targets : list string) (dfs : list frame) : prog (list frame) :=
  match file_targets with
  | [] => Ret dfs
  | f :: rest =>
      d <- parse_target bucket_id lazy f ;;
      parse_targets bucket_id lazy rest (dfs ++ [d])%list
  end.

(** Lines 60-61: the local folder under [bucket_io] is made when a folder
    is given and it is not there. *)
Definition ensure_staging_dir (file_folder : option string) : prog unit :=
  match file_folder with
  | Some folder =>
      d <- trigger (os_path_isdir ("bucket_io/" ++ folder)) ;;
      if negb d then call (os_makedirs ("bucket_io/" ++ folder)) else Ret tt
  | None => Ret tt
  end.

(** Lines 64-75: the four cases of a call with a file name.  The tests on
    [file_folder] and [lazy] cover every case, so the chain of [elif]
    always returns. *)
Definition read_single (name : string) (file_folder bucket_id : option string)
  (lazy : bool) : prog loaded :=
  match file_folder, lazy with
  | None, true =>
      trigger (os_system ("gcloud storage cp '" ++ Py.fmt bucket_id ++
                          "/" ++ name ++ "' 'bucket_io'")) ;;
      lf <- call (pl_scan_csv ("bucket_io/" ++ name) false) ;;
      Ret (Frame (Lazy lf))
  | Some folder, true =>
      trigger (os_system ("gcloud storage cp '" ++ Py.fmt bucket_id ++
                          "/" ++ folder ++ "/" ++ name ++
                          "' 'bucket_io/" ++ folder ++ "'")) ;;
      lf <- call (pl_scan_csv ("bucket_io/" ++ folder ++ "/" ++ name) false) ;;
      Ret (Frame (Lazy lf))
  | None, false =>
      trigger (os_system ("gcloud storage cp '" ++ Py.fmt bucket_id ++
                          "/" ++ name ++ "' 'bucket_io'")) ;;
      df <- call (pl_read_csv ("bucket_io/" ++ name) false) ;;
      Ret (Frame (Eager df))
  | Some folder, false =>
      trigger (os_system ("gcloud storage cp '" ++ Py.fmt bucket_id ++
                          "/" ++ folder ++ "/" ++ name ++ "' 'bucket_io'")) ;;
      df <- call (pl_read_csv ("bucket_io/" ++ folder ++ "/" ++ name) false) ;;
      Ret (Frame (Eager df))
  end.

(** [reduce(lambda x,y: x.vstack(y), xs)], the value lines 87 and 89
    return. *)
Definition vstack_all (xs : list frame) : prog loaded :=
  df <- reduce vstack_frames xs ;;
  Ret (Frame df).

(** Lines 86-91: what is returned from the list [dfs]. *)
Definition stack_frames (dfs : list frame) (lazy stack : bool) : prog loaded :=
  if stack && lazy then
    collected <- comprehension collect dfs ;;
    vstack_all collected
  else if stack then
    vstack_all dfs
  else
    Ret (Frames dfs).

(** Lines 77-91: a call without a file name. *)
Definition read_folder (file_folder bucket_id : option string)
  (lazy stack : bool) : prog loaded :=
  listed <- ls_bucket file_folder bucket_id true ;;
  match listed with
  | None => Raise (TypeError "'NoneType' object is not iterable")
  | Some file_targets =>
      trigger (os_system ("gcloud storage cp '" ++ Py.fmt bucket_id ++
                          "/" ++ Py.fmt file_folder ++
                          "/*.csv' 'bucket_io/" ++ Py.fmt file_folder ++
                          "'")) ;;
      dfs <- parse_targets bucket_id lazy file_targets [] ;;
      stack_frames dfs lazy stack
  end.

Definition read_from_bucket (file_name file_folder bucket_id : option string)
  (lazy stack : bool) : prog loaded :=
  if Py.is_none file_name && Py.is_none file_folder then
    Raise (ValueError "Neither file_path nor file_folder is specified")
  else if match file_name with
          | Some name => negb (csv_extension name)
          | None => false
          end then
    Raise (ValueError
             "The specified file is not csv format hence cannot be loaded")
  else
    bucket_id <- default_bucket bucket_id ;;
    ensure_staging_dir file_folder ;;
    match file_name with
    | Some name => read_single name file_folder bucket_id lazy
    | None => read_folder file_folder bucket_id lazy stack
    end.

(** The six functions of the module as one family, with what each
    returns, to state what they have in common. *)
Inductive operation : Type :=
| Download (file_path : string)
| Upload (file_name target : string)
| ListObjects (target : option string) (return_list : bool)
| Remove (file_path : string)
| Load (file_name file_folder : option string) (lazy stack : bool)
| WriteRemote (file : DataFrame) (target : string).

Inductive outcome : Type :=
| Done
| Listing (paths : option (list string))
| Loaded (value : loaded).

Definition invoke (op : operation) (bucket_id : option string) : prog outcome :=
  match op with
  | Download file_path => copy_from_bucket file_path bucket_id ;; Ret Done
  | Upload file_name target =>
      copy_to_bucket file_name target bucket_id ;; Ret Done
  | ListObjects target return_list =>
      paths <- ls_bucket target bucket_id return_list ;; Ret (Listing paths)
  | Remove file_path => remove_from_bucket file_path bucket_id ;; Ret Done
  | Load file_name file_folder lazy stack =>
      value <- read_from_bucket file_name file_folder bucket_id lazy stack ;;
      Ret (Loaded value)
  | WriteRemote file target => write_to_bucket file target bucket_id ;; Ret Done
  end.

(** ** Executions *)

(** One call to the environment with its answer. *)
Inductive io : Type :=
| io_getenv (name : string) (value : option string)
| io_isdir (path : string) (answer : bool)
| io_makedirs (path : string) (r : result unit)
| io_system (cmd : string) (status : Z)
| io_subprocess (cmd : string) (status : Z) (output : string)
| io_print (line : string)
| io_scan_csv (path : string) (infer_schema : bool) (r : result LazyFrame)
| io_read_csv (path : string) (infer_schema : bool) (r : result DataFrame)
| io_collect (lf : LazyFrame) (r : result DataFrame)
| io_write_csv (df : DataFrame) (path : string) (r : result unit).

Definition observe (X : Type) (ev : event X) : X -> io :=
  match ev in event T return T -> io with
  | os_getenv name => io_getenv name
  | os_path_isdir path => io_isdir path
  | os_makedirs path => io_makedirs path
  | os_system cmd => io_system cmd
  | subprocess_run cmd => fun o => io_subprocess cmd (fst o) (snd o)
  | print line => fun _ => io_print line
  | pl_scan_csv path infer => io_scan_csv path infer
  | pl_read_csv path infer => io_read_csv path infer
  | lf_collect lf => io_collect lf
  | df_write_csv df path => io_write_csv df path
  end.

(** [exec p tr r]: the program [p] can make exactly the calls of [tr], get
    the answers recorded there, and end with [r].  The environment is not
    constrained: every answer of the right type is possible. *)
Fixpoint exec (R : Type) (p : prog R) (tr : list io) (r : result R) : Prop :=
  match p with
  | Ret v => tr = [] /\ r = Ok v
  | Raise e => tr = [] /\ r = Err e
  | Vis ev k => exists x tr', tr = observe ev x :: tr' /\ exec (k x) tr' r
  end.

(** An environment with a state of type [W] answers every event and moves
    to its next state. *)
Definition handler (W : Type) : Type := forall X : Type, event X -> W -> W * X.

Fixpoint run (W R : Type) (h : handler W) (p : prog R) (w : W)
  : W * list io * result R :=
  match p with
  | Ret v => (w, [], Ok v)
  | Raise e => (w, [], Err e)
  | Vis ev k =>
      let (w1, x) := h _ ev w in
      let '(w2, tr, r) := run h (k x) w1 in
      (w2, observe ev x :: tr, r)
  end.

(** The commands of the processes a trace starts. *)
Definition commands (tr : list io) : list string :=
  flat_map (fun i => match i with
                     | io_system cmd _ | io_subprocess cmd _ _ => [cmd]
                     | _ => []
                     end) tr.

(** The paths the CSV reader was given. *)
Definition parsed (tr : list io) : list string :=
  flat_map (fun i => match i with
                     | io_scan_csv p _ _ | io_read_csv p _ _ => [p]
                     | _ => []
                     end) tr.

(** The path lists of the listings of a trace: the captured outputs of
    the processes that ended with status zero and decode. *)
Definition listings (tr : list io) : list (list string) :=
  flat_map (fun i => match i with
                     | io_subprocess _ status out =>
                         if Z.eqb status 0 then
                           match Py.decode_utf8 out with
                           | Some text => [listing_of text]
                           | None => []
                           end
                         else []
                     | _ => []
                     end) tr.

(** The lazy frames the scans answered, and the eager frames the reads
    and the collects answered. *)
Definition scanned (tr : list io) : list LazyFrame :=
  flat_map (fun i => match i with
                     | io_scan_csv _ _ (Ok lf) => [lf]
                     | _ => []
                     end) tr.

Definition materialized (tr : list io) : list DataFrame :=
  flat_map (fun i => match i with
                     | io_read_csv _ _ (Ok df) | io_collect _ (Ok df) => [df]
                     | _ => []
                     end) tr.

(** The lazy frames that were collected with success. *)
Definition collected (tr : list io) : list LazyFrame :=
  flat_map (fun i => match i with
                     | io_collect lf (Ok _) => [lf]
                     | _ => []
                     end) tr.

(** The answers to the reads of an environment variable. *)
Definition env_reads (tr : list io) : list (string * option string) :=
  flat_map (fun i => match i with
                     | io_getenv name v => [(name, v)]
                     | _ => []
                     end) tr.

Definition is_getenv (i : io) : bool :=
  match i with io_getenv _ _ => true | _ => false end.

(** A trace without its reads of the environment. *)
Definition without_env (tr : list io) : list io :=
  filter (fun i => negb (is_getenv i)) tr.

(** ** A reference environment

    Local directories and files by their path components relative to the
    working directory (relative paths without [..]; no links), the process
    environment, and the text printed so far.  What the storage command
    line does and how polars reads and writes CSV text are parameters. *)
Module Posix.

Definition path : Type := list string.

Record Store : Type := mkStore {
  dirs : list path;
  files : list (path * string)
}.

Record World : Type := mkWorld {
  environ : list (string * string);
  store : Store;
  stdout : string
}.

Record Externals : Type := mkExternals {
  cli : string -> Store -> Store * Z * string;
  parse_csv : string -> result DataFrame;
  to_csv : DataFrame -> string
}.

Definition path_eqb (a b : path) : bool :=
  if list_eq_dec string_dec a b then true else false.

Definition components (p : string) : path :=
  filter (fun c => negb (String.eqb c "" || String.eqb c "."))
         (Py.split "/" p).

Definition is_dir (st : Store) (c : path) : bool :=
  match c with
  | [] => true
  | _ => existsb (path_eqb c) (dirs st)
  end.

Definition is_file (st : Store) (c : path) : bool :=
  existsb (fun f => path_eqb c (fst f)) (files st).

Fixpoint lookup (c : path) (fs : list (path * string)) : option string :=
  match fs with
  | [] => None
  | (k, v) :: rest => if path_eqb c k then Some v else lookup c rest
  end.

Fixpoint env_lookup (name : string) (e : list (string * string))
  : option string :=
  match e with
  | [] => None
  | (k, v) :: rest => if String.eqb name k then Some v else env_lookup name rest
  end.

(** The non-empty prefixes of a path, shortest first. *)
Definition prefixes (c : path) : list path :=
  map (fun n => firstn n c) (seq 1 (length c)).

Definition makedirs (st : Store) (c : path) : Store * result unit :=
  if is_dir st c || is_file st c then (st, Err (OSError "FileExistsError"))
  else if existsb (is_file st) (prefixes c)
  then (st, Err (OSError "NotADirectoryError"))
  else (mkStore (filter (fun d => negb (is_dir st d)) (prefixes c) ++ dirs st)
                (files st), Ok tt).

(** The error of a path whose parent is not a directory: the path goes
    through a regular file, or a part of it is not there. *)
Definition missing_error (st : Store) (c : path) : exn :=
  OSError (if existsb (is_file st) (prefixes (removelast c))
           then "NotADirectoryError"
           else "FileNotFoundError").

Definition read_file (st : Store) (c : path) : result string :=
  match lookup c (files st) with
  | Some text => Ok text
  | None => Err (if is_dir st c then OSError "IsADirectoryError"
                 else missing_error st c)
  end.

Definition write_file (st : Store) (c : path) (text : string)
  : Store * result unit :=
  if negb (is_dir st (removelast c))
  then (st, Err (missing_error st c))
  else if is_dir st c then (st, Err (OSError "IsADirectoryError"))
  else (mkStore (dirs st) ((c, text) :: files st), Ok tt).

Definition with_store (w : World) (st : Store) : World :=
  mkWorld (environ w) st (stdout w).

Definition read_csv (x : Externals) (st : Store) (p : string)
  : result DataFrame :=
  match read_file st (components p) with
  | Ok text => parse_csv x text
  | Err e => Err e
  end.

Definition answer (x : Externals) : handler World :=
  fun X ev =>
    match ev in event T return World -> World * T with
    | os_getenv name => fun w => (w, env_lookup name (environ w))
    | os_path_isdir p => fun w => (w, is_dir (store w) (components p))
    | os_makedirs p => fun w =>
        let (st, r) := makedirs (store w) (components p) in
        (with_store w st, r)
    | os_system cmd => fun w =>
        let '(st, status, out) := cli x cmd (store w) in
        (mkWorld (environ w) st (stdout w ++ out), status)
    | subprocess_run cmd => fun w =>
        let '(st, status, out) := cli x cmd (store w) in
        (with_store w st, (status, out))
    | print line => fun w =>
        (mkWorld (environ w) (store w)
                 (stdout w ++ line ++ String newline ""), tt)
    | pl_scan_csv p _ => fun w =>
        (w, match read_file (store w) (components p) with
            | Ok _ => Ok (mkLazyFrame p)
            | Err e => Err e
            end)
    | pl_read_csv p _ => fun w => (w, read_csv x (store w) p)
    | lf_collect lf => fun w => (w, read_csv x (store w) (scan_path lf))
    | df_write_csv df p => fun w =>
        let (st, r) := write_file (store w) (components p) (to_csv x df) in
        (with_store w st, r)
    end.

End Posix.

(** What [ls_bucket] returns for an exit status and a captured output. *)
Definition captured_listing (cmd : string) (status : Z) (out : string)
  : result (option (list string)) :=
  if Z.eqb status 0 then
    match Py.decode_utf8 out with
    | Some text => Ok (Some (listing_of text))
    | None => Err UnicodeDecodeError
    end
  else Err (CalledProcessError status cmd).

(** The frames a run of the loop has parsed with success. *)
Definition frames_of (lazy : bool) (tr : list io) : list frame :=
  if lazy then map Lazy (scanned tr) else map Eager (materialized tr).

(** The bucket a call works with: the argument, or else the first answer
    to the read of the environment variable. *)
Definition resolved_bucket (bucket_id : option string) (tr : list io)
  : option string :=
  match bucket_id with
  | Some b => Some b
  | None => match env_reads tr with
            | (_, v) :: _ => v
            | [] => None
            end
  end.

(** How many times a character occurs in a string. *)
Fixpoint count (c : ascii) (s : string) : nat :=
  match s with
  | EmptyString => 0
  | String a s' => (if Ascii.eqb a c then 1 else 0) + count c s'
  end.

(** The functions in which the start of the process is the last call
    that can raise: nothing is called after [os.system] has returned. *)
Definition ends_with_its_process (op : operation) : bool :=
  match op with
  | Upload _ _ | ListObjects _ false | Remove _ | WriteRemote _ _ => true
  | _ => false
  end.

(** The tests and the makings of local directories in a trace. *)
Definition dir_events (tr : list io) : list io :=
  filter (fun i => match i with
                   | io_isdir _ _ | io_makedirs _ _ => true
                   | _ => false
                   end) tr.

(** The errors the CSV reader answered to a scan, a read or a collect. *)
Definition reader_errors (tr : list io) : list exn :=
  flat_map (fun i => match i with
                     | io_scan_csv _ _ (Err e) | io_read_csv _ _ (Err e)
                     | io_collect _ (Err e) => [e]
                     | _ => []
                     end) tr.

(** The calls to the CSV reader in a trace, with their answers. *)
Definition reader_calls (tr : list io) : list io :=
  filter (fun i => match i with
                   | io_scan_csv _ _ _ | io_read_csv _ _ _ | io_collect _ _ => true
                   | _ => false
                   end) tr.

(** The reader calls of a loop that goes through: the scan, or the read,
    of each path in order with the frame it answered, and the collect of
    each lazy frame in order with the frame it answered. *)
Definition scans_of (paths : list string) (lfs : list LazyFrame) : list io :=
  map (fun pl => io_scan_csv (fst pl) false (Ok (snd pl))) (combine paths lfs).

Definition reads_of (paths : list string) (dfs : list DataFrame) : list io :=
  map (fun pd => io_read_csv (fst pd) false (Ok (snd pd))) (combine paths dfs).

Definition collects_of (lfs : list LazyFrame) (dfs : list DataFrame) : list io :=
  map (fun ld => io_collect (fst ld) (Ok (snd ld))) (combine lfs dfs).

(** The commands of a call that goes through, with the bucket [b], as
    the f-strings of the source build them, in the order of the calls. *)
Definition expected_commands (op : operation) (b : string) : list string :=
  match op with
  | Download file_path => ["gsutil cp '" ++ b ++ "/" ++ file_path ++ "' ."]
  | Upload file_name target =>
      ["gsutil cp " ++ file_name ++ " " ++ b ++ "/" ++ target]
  | ListObjects None _ => ["gsutil ls " ++ b]
  | ListObjects (Some t) _ => ["gsutil ls " ++ b ++ "/" ++ t]
  | Remove file_path => ["gsutil rm " ++ b ++ "/" ++ file_path]
  | Load (Some name) None _ _ =>
      ["gcloud storage cp '" ++ b ++ "/" ++ name ++ "' 'bucket_io'"]
  | Load (Some name) (Some folder) true _ =>
      ["gcloud storage cp '" ++ b ++ "/" ++ folder ++ "/" ++ name ++
       "' 'bucket_io/" ++ folder ++ "'"]
  | Load (Some name) (Some folder) false _ =>
      ["gcloud storage cp '" ++ b ++ "/" ++ folder ++ "/" ++ name ++
       "' 'bucket_io'"]
  | Load None (Some folder) _ _ =>
      ["gsutil ls " ++ b ++ "/" ++ folder;
       "gcloud storage cp '" ++ b ++ "/" ++ folder ++ "/*.csv' 'bucket_io/" ++
       folder ++ "'"]
  | Load None None _ _ => []
  | WriteRemote _ target =>
      ["gsutil cp bucket_io/temp.csv " ++ b ++ "/" ++ target]
  end.


(** The Python sentence [s.endswith(suffix)]. *)
Definition endswith (suffix s : string) : Prop :=
  exists p : string, s = p ++ suffix.

(** [old] occurs in [s] at some position. *)
Fixpoint occurs (old s : string) : bool :=
  match s with
  | EmptyString => Py.startswith old s
  | String _ s' => Py.startswith old s || occurs old s'
  end.

(** ** Executions of composed programs *)

Section Exec.
Variables A B : Type.

Lemma exec_bind_intro (p : prog A) (f : A -> prog B) a tr1 tr2 r :
  exec p tr1 (Ok a) -> exec (f a) tr2 r -> exec (bind p f) (tr1 ++ tr2)%list r.
Proof.
  revert tr1. induction p as [v | e | X ev k IH]; simpl; intros tr1.
  - intros [-> E] H. inversion E; subst. exact H.
  - intros [_ E]; discriminate E.
  - intros (x & tr' & -> & H1) H2.
    exists x, (tr' ++ tr2)%list. split; [reflexivity | eauto].
Qed.

Lemma exec_bind_raise (p : prog A) (f : A -> prog B) e tr :
  exec p tr (Err e) -> exec (bind p f) tr (Err e).
Proof.
  revert tr. induction p as [v | e' | X ev k IH]; simpl; intros tr.
  - intros [_ E]; discriminate E.
  - intros [-> E]. inversion E; subst. split; reflexivity.
  - intros (x & tr' & -> & H1). exists x, tr'. split; [reflexivity | eauto].
Qed.

Lemma exec_bind_inv (p : prog A) (f : A -> prog B) tr r :
  exec (bind p f) tr r ->
  (exists e, exec p tr (Err e) /\ r = Err e) \/
  (exists a tr1 tr2,
      exec p tr1 (Ok a) /\ exec (f a) tr2 r /\ tr = (tr1 ++ tr2)%list).
Proof.
  revert tr. induction p as [v | e | X ev k IH]; simpl; intros tr H.
  - right. exists v, [], tr. repeat split; assumption.
  - left. destruct H as [-> ->]. exists e. repeat split.
  - destruct H as (x & tr' & -> & H).
    destruct (IH x _ H) as [(e & H1 & ->) | (a & tr1 & tr2 & H1 & H2 & ->)].
    + left. exists e. split; [| reflexivity]. exists x, tr'. split; auto.
    + right. exists a, (observe ev x :: tr1), tr2.
      repeat split; auto. exists x, tr1. split; auto.
Qed.

End Exec.

(** The answers recorded in a trace determine the result. *)
Lemma exec_deterministic (R : Type) (p : prog R) tr r1 r2 :
  exec p tr r1 -> exec p tr r2 -> r1 = r2.
Proof.
  revert tr. induction p as [v | e | X ev k IH]; simpl; intros tr.
  - intros [_ ->] [_ ->]; reflexivity.
  - intros [_ ->] [_ ->]; reflexivity.
  - intros (x & tr1 & -> & H1) (y & tr2 & E & H2).
    destruct ev; simpl in E; inversion E; subst;
      try (eapply IH; eassumption).
    + destruct x as [a b], y as [c d]; simpl in *; subst. eapply IH; eassumption.
    + destruct x, y. eapply IH; eassumption.
Qed.

(** Whatever the environment, running a program yields one of its
    executions: programs always end, with a value or an exception. *)
Lemma run_exec (W R : Type) (h : handler W) (p : prog R) (w : W) :
  exec p (snd (fst (run h p w))) (snd (run h p w)).
Proof.
  revert w. induction p as [v | e | X ev k IH]; simpl; intros w.
  - split; reflexivity.
  - split; reflexivity.
  - destruct (h X ev w) as [w1 x] eqn:E.
    specialize (IH x w1). destruct (run h (k x) w1) as [[w2 tr] r]. simpl in *.
    exists x, tr. split; [reflexivity | exact IH].
Qed.

(** ** The built-ins on small inputs *)

Example split_dots : Py.split "." "a.b." = ["a"; "b"; ""].
Proof. reflexivity. Qed.

Example split_empty : Py.split "/" "" = [""].
Proof. reflexivity. Qed.

Example split_no_separator : Py.split "." "csv" = ["csv"].
Proof. reflexivity. Qed.

Example extension_of_archive : Py.last_item (Py.split "." "a.csv.gz") = "gz".
Proof. reflexivity. Qed.

Example join_parent :
  Py.join "/" (Py.but_last (Py.split "/" "datasets/2024/fitbit.csv")) =
  "datasets/2024".
Proof. reflexivity. Qed.

Example replace_does_not_overlap : Py.replace "aaa" "aa" "b" = "ba".
Proof. reflexivity. Qed.

Example replace_all_occurrences : Py.replace "ab-ab-ab" "ab" "x" = "x-x-x".
Proof. reflexivity. Qed.

Example replace_empty_pattern : Py.replace "abc" "" "X" = "XaXbXcX".
Proof. reflexivity. Qed.

Example replace_empty_pattern_between_code_points :
  Py.replace (String (ascii_of_nat 195) (String (ascii_of_nat 169) "")) "" "X" =
  "X" ++ String (ascii_of_nat 195) (String (ascii_of_nat 169) "X").
Proof. reflexivity. Qed.

Example listing_of_two_lines :
  listing_of ("a" ++ String newline ("b" ++ String newline "")) = ["a"; "b"].
Proof. reflexivity. Qed.

Example listing_without_last_newline :
  listing_of ("a" ++ String newline "b") = ["a"].
Proof. reflexivity. Qed.

Example listing_of_nothing : listing_of "" = [].
Proof. reflexivity. Qed.

Example decode_two_byte_char :
  Py.decode_utf8 (String (ascii_of_nat 195) (String (ascii_of_nat 169) "")) =
  Some (String (ascii_of_nat 195) (String (ascii_of_nat 169) "")).
Proof. reflexivity. Qed.

Example decode_overlong :
  Py.decode_utf8 (String (ascii_of_nat 192) (String (ascii_of_nat 128) "")) =
  None.
Proof. reflexivity. Qed.

Example decode_surrogate :
  Py.decode_utf8 (String (ascii_of_nat 237)
                    (String (ascii_of_nat 160) (String (ascii_of_nat 128) ""))) =
  None.
Proof. reflexivity. Qed.

Example decode_cut_short :
  Py.decode_utf8 (String (ascii_of_nat 226) (String (ascii_of_nat 130) "")) =
  None.
Proof. reflexivity. Qed.

Example vstack_appends :
  vstack (mkDataFrame ["id"] [["1"]]) (mkDataFrame ["id"] [["2"]; ["3"]]) =
  Ok (mkDataFrame ["id"] [["1"]; ["2"]; ["3"]]).
Proof. reflexivity. Qed.

Example makedirs_makes_the_parents :
  Posix.makedirs (Posix.mkStore [] []) (Posix.components "bucket_io/a/b") =
  (Posix.mkStore [["bucket_io"]; ["bucket_io"; "a"]; ["bucket_io"; "a"; "b"]] [],
   Ok tt).
Proof. reflexivity. Qed.

(** ** Strings *)

Lemma split_not_nil sep s : Py.split sep s <> [].
Proof.
  destruct s as [| c s]; simpl; [discriminate |].
  destruct (Ascii.eqb c sep); [discriminate |].
  destruct (Py.split sep s); discriminate.
Qed.

Lemma last_cons_not_nil (x : string) xs :
  xs <> [] -> Py.last_item (x :: xs) = Py.last_item xs.
Proof. destruct xs; [congruence | reflexivity]. Qed.

(** The last piece of a split is the whole string when there is one
    piece, and what follows the last separator otherwise. *)
Lemma split_last_cases sep s :
  Py.split sep s = [s] \/
  (exists p, s = p ++ String sep (Py.last_item (Py.split sep s))) /\
  2 <= length (Py.split sep s).
Proof.
  induction s as [| c s IH]; simpl; [left; reflexivity |].
  pose proof (split_not_nil sep s) as NE.
  destruct (Ascii.eqb_spec c sep) as [-> | Hc].
  - right. rewrite last_cons_not_nil by assumption. split.
    + destruct IH as [E | [[p E] _]].
      * exists "". rewrite E. reflexivity.
      * exists (String sep p). simpl. rewrite <- E. reflexivity.
    + destruct (Py.split sep s); [congruence | simpl; lia].
  - destruct (Py.split sep s) as [| w ws] eqn:E; [congruence |].
    destruct IH as [E1 | [[p E1] L]].
    + inversion E1; subst. left. reflexivity.
    + right. destruct ws as [| w' ws]; [simpl in L; lia |]. split.
      * exists (String c p). simpl. rewrite E1 at 1. reflexivity.
      * simpl. lia.
Qed.

Lemma split_app_sep_length sep p q :
  2 <= length (Py.split sep (p ++ String sep q)).
Proof.
  induction p as [| c p IH]; simpl.
  - rewrite Ascii.eqb_refl. pose proof (split_not_nil sep q).
    destruct (Py.split sep q); [congruence | simpl; lia].
  - destruct (Ascii.eqb c sep).
    + simpl. lia.
    + destruct (Py.split sep (p ++ String sep q)) as [| w [| w' ws]];
        simpl in *; lia.
Qed.

Lemma last_split_app sep p q :
  Py.last_item (Py.split sep (p ++ String sep q)) =
  Py.last_item (Py.split sep q).
Proof.
  induction p as [| c p IH]; simpl.
  - rewrite Ascii.eqb_refl. apply last_cons_not_nil, split_not_nil.
  - pose proof (split_app_sep_length sep p q) as L.
    destruct (Ascii.eqb c sep).
    + rewrite last_cons_not_nil; [exact IH |].
      destruct (Py.split sep (p ++ String sep q)); [simpl in L; lia | discriminate].
    + destruct (Py.split sep (p ++ String sep q)) as [| w [| w' ws]];
        simpl in L; try lia. exact IH.
Qed.

(** Line 54 accepts exactly the name "csv" and the names that end
    in ".csv". *)
Lemma csv_extension_spec name :
  csv_extension name = true <-> name = "csv" \/ endswith ".csv" name.
Proof.
  unfold csv_extension. rewrite String.eqb_eq. split.
  - intros H. destruct (split_last_cases "." name) as [E | [[p E] _]].
    + left. rewrite E in H. exact H.
    + right. exists p. rewrite H in E. exact E.
  - intros [-> | [p ->]]; [reflexivity |].
    change (p ++ ".csv") with (p ++ String "." "csv").
    rewrite last_split_app. reflexivity.
Qed.

Lemma startswith_app old rest : Py.startswith old (old ++ rest) = true.
Proof.
  induction old as [| c old IH]; simpl; [reflexivity |].
  rewrite Ascii.eqb_refl. exact IH.
Qed.

Lemma replace_from_skip old new p rest :
  Py.replace_from old new (String.length p) (p ++ rest) =
  Py.replace_from old new 0 rest.
Proof.
  induction p as [| c p IH]; simpl; [| exact IH].
  destruct rest; reflexivity.
Qed.

Lemma replace_from_absent old new s :
  old <> "" -> occurs old s = false -> Py.replace_from old new 0 s = s.
Proof.
  intros NE. induction s as [| c s IH]; simpl; [reflexivity |].
  intros H. apply orb_false_iff in H. destruct H as [H1 H2].
  destruct old as [| a old]; [congruence |].
  simpl in H1. simpl. rewrite H1. rewrite IH by assumption. reflexivity.
Qed.

(** A leading occurrence is replaced, and the scan goes on behind it. *)
Lemma replace_prefix old new rest :
  old <> "" ->
  Py.replace (old ++ rest) old new = new ++ Py.replace rest old new.
Proof.
  destruct old as [| c old]; [congruence | intros _].
  unfold Py.replace.
  change (String c old ++ rest) with (String c (old ++ rest)).
  cbn [Py.replace_from].
  change (String c (old ++ rest)) with (String c old ++ rest).
  rewrite startswith_app.
  replace (String.length (String c old) - 1) with (String.length old)
    by (simpl; lia).
  rewrite replace_from_skip. reflexivity.
Qed.

Lemma replace_absent old new s :
  old <> "" -> occurs old s = false -> Py.replace s old new = s.
Proof.
  intros NE H. destruct old as [| c old]; [congruence |].
  unfold Py.replace. apply replace_from_absent; assumption.
Qed.

Lemma length_append (a b : string) :
  String.length (a ++ b) = String.length a + String.length b.
Proof. induction a as [| c a IH]; simpl; [reflexivity | now rewrite IH]. Qed.

(** ** Argument checks of [read_from_bucket] *)

(** C7.  A call with neither a file name nor a folder is the raise of the
    [ValueError] of line 52 and nothing else, whatever the other arguments:
    no execution of it makes any call to the environment, and in every
    environment it leaves the state as it was. *)
Theorem read_from_bucket_needs_a_target (bucket_id : option string)
  (lazy stack : bool) :
  let e := ValueError "Neither file_path nor file_folder is specified" in
  read_from_bucket None None bucket_id lazy stack = Raise e /\
  (forall tr r, exec (read_from_bucket None None bucket_id lazy stack) tr r ->
                tr = [] /\ r = Err e) /\
  (forall (W : Type) (h : handler W) (w : W),
      run h (read_from_bucket None None bucket_id lazy stack) w = (w, [], Err e)).
Proof.
  cbv zeta. repeat split.
  - destruct H as [H _]; exact H.
  - destruct H as [_ H]; exact H.
Qed.

(** C1, amended.  A file name that is not "csv" itself and does not end
    in ".csv" makes the call the raise of the [ValueError] of line 55,
    whatever the other arguments: no execution makes any call to the
    environment, so no process is started. *)
Theorem read_from_bucket_rejects_other_extensions
  (name : string) (file_folder bucket_id : option string) (lazy stack : bool) :
  name <> "csv" -> ~ endswith ".csv" name ->
  let e := ValueError
             "The specified file is not csv format hence cannot be loaded" in
  read_from_bucket (Some name) file_folder bucket_id lazy stack = Raise e /\
  (forall tr r,
      exec (read_from_bucket (Some name) file_folder bucket_id lazy stack) tr r ->
      tr = [] /\ commands tr = [] /\ r = Err e).
Proof.
  intros H1 H2 e.
  assert (E : csv_extension name = false).
  { destruct (csv_extension name) eqn:E; [| reflexivity].
    apply csv_extension_spec in E. tauto. }
  assert (P : read_from_bucket (Some name) file_folder bucket_id lazy stack
              = Raise e).
  { unfold read_from_bucket. simpl. rewrite E. reflexivity. }
  split; [exact P |]. intros tr r H. rewrite P in H. destruct H as [-> ->].
  repeat split.
Qed.

Lemma read_from_bucket_rejects_other_extensions_witness :
  "data.txt" <> "csv" /\ ~ endswith ".csv" "data.txt" /\
  read_from_bucket (Some "data.txt") (Some "datasets") None true false =
  Raise (ValueError
           "The specified file is not csv format hence cannot be loaded").
Proof.
  assert (N : ~ endswith ".csv" "data.txt").
  { intros H.
    assert (E : csv_extension "data.txt" = true)
      by (apply csv_extension_spec; right; exact H).
    discriminate E. }
  split; [discriminate |]. split; [exact N |].
  apply (read_from_bucket_rejects_other_extensions
           (name := "data.txt") (Some "datasets") None true false);
    [discriminate | exact N].
Defined.

(** C1 as stated fails for the file name "csv": it does not end in ".csv",
    yet the call passes line 54, starts the copy and parses the file. *)
Lemma read_from_bucket_accepts_the_name_csv :
  ~ endswith ".csv" "csv" /\
  exec (read_from_bucket (Some "csv") None (Some "gs://b") true false)
       [io_system "gcloud storage cp 'gs://b/csv' 'bucket_io'" 0;
        io_scan_csv "bucket_io/csv" false (Ok (mkLazyFrame "bucket_io/csv"))]
       (Ok (Frame (Lazy (mkLazyFrame "bucket_io/csv")))).
Proof.
  split.
  - intros [p H]. apply (f_equal String.length) in H.
    rewrite length_append in H. simpl in H. lia.
  - simpl. exists 0%Z. eexists. split; [reflexivity |].
    exists (Ok (mkLazyFrame "bucket_io/csv")). eexists.
    split; [reflexivity |]. split; reflexivity.
Qed.

(** ** [copy_from_bucket] *)

(** C8 fails on the code.  Every execution of [copy_from_bucket] prints
    the line of line 32, whatever exit status [os.system] answered: the
    status is not looked at. *)
Theorem copy_from_bucket_prints_whatever_the_status
  (file_path b : string) (status : Z) :
  exec (copy_from_bucket file_path (Some b))
       [io_system ("gsutil cp '" ++ b ++ "/" ++ file_path ++ "' .") status;
        io_print ("[INFO] " ++ file_path ++
                  " is successfully downloaded into your working space")]
       (Ok tt).
Proof.
  simpl. exists status. eexists. split; [reflexivity |].
  exists tt. eexists. split; [reflexivity |]. split; reflexivity.
Qed.

(** ** Single files *)

(** C2 fails on the code at line 74.  With a file name, a folder and
    [lazy=False] the copy is sent to [bucket_io], not to the folder under
    it, while the file parsed is the path under the folder; the lazy
    branch of line 68 sends the copy to the folder. *)
Theorem read_from_bucket_eager_folder_copies_to_root
  (df : DataFrame) (lf : LazyFrame) (status : Z) :
  exec (read_from_bucket (Some "a.csv") (Some "d") (Some "gs://b") false false)
       [io_isdir "bucket_io/d" true;
        io_system "gcloud storage cp 'gs://b/d/a.csv' 'bucket_io'" status;
        io_read_csv "bucket_io/d/a.csv" false (Ok df)]
       (Ok (Frame (Eager df))) /\
  exec (read_from_bucket (Some "a.csv") (Some "d") (Some "gs://b") true false)
       [io_isdir "bucket_io/d" true;
        io_system "gcloud storage cp 'gs://b/d/a.csv' 'bucket_io/d'" status;
        io_scan_csv "bucket_io/d/a.csv" false (Ok lf)]
       (Ok (Frame (Lazy lf))).
Proof.
  split.
  - simpl. exists true. eexists. split; [reflexivity |]. simpl.
    exists status. eexists. split; [reflexivity |].
    exists (Ok df). eexists. split; [reflexivity |]. split; reflexivity.
  - simpl. exists true. eexists. split; [reflexivity |]. simpl.
    exists status. eexists. split; [reflexivity |].
    exists (Ok lf). eexists. split; [reflexivity |]. split; reflexivity.
Qed.

(** ** Executions of the parts of the module *)

Ltac exec_step H :=
  let x := fresh "x" in
  let tr := fresh "tr" in
  simpl in H; destruct H as (x & tr & -> & H).

Ltac exec_end H :=
  let E := fresh "E" in
  simpl in H; destruct H as [-> E];
  try discriminate E; try (injection E as E); try subst.

Lemma default_bucket_exec bucket_id tr r :
  exec (default_bucket bucket_id) tr r ->
  exists v, r = Ok v /\
    ((exists b, bucket_id = Some b /\ v = Some b /\ tr = []) \/
     (bucket_id = None /\ tr = [io_getenv WORKSPACE_BUCKET v])).
Proof.
  destruct bucket_id as [b |]; intros H.
  - exec_end H. exists (Some b). split; [reflexivity |]. left. eauto.
  - exec_step H. exec_end H. exists x. split; [reflexivity |]. right. auto.
Qed.

Lemma ensure_staging_dir_exec file_folder tr r :
  exec (ensure_staging_dir file_folder) tr r ->
  (tr = [] /\ r = Ok tt) \/
  (exists p, tr = [io_isdir p true] /\ r = Ok tt) \/
  (exists p res, tr = [io_isdir p false; io_makedirs p res] /\
                 r = match res with Ok _ => Ok tt | Err e => Err e end).
Proof.
  destruct file_folder as [folder |]; intros H.
  - exec_step H. destruct x; simpl in H.
    + exec_end H. right. left. eauto.
    + exec_step H. right. right. exists ("bucket_io/" ++ folder), x.
      destruct x as [[] | e]; exec_end H; auto.
  - exec_end H. left. auto.
Qed.

Lemma ls_bucket_exec target bucket_id tr r :
  exec (ls_bucket target bucket_id true) tr r ->
  exists pre v status out,
    let cmd := match target with
               | None => "gsutil ls " ++ Py.fmt v
               | Some t => "gsutil ls " ++ Py.fmt v ++ "/" ++ t
               end in
    tr = (pre ++ [io_subprocess cmd status out])%list /\
    r = captured_listing cmd status out /\
    ((exists b, bucket_id = Some b /\ v = Some b /\ pre = []) \/
     (bucket_id = None /\ pre = [io_getenv WORKSPACE_BUCKET v])).
Proof.
  unfold ls_bucket. intros H.
  apply exec_bind_inv in H.
  destruct H as [(e & H & _) | (v & tr1 & tr2 & H1 & H2 & ->)].
  - apply default_bucket_exec in H. destruct H as (v & E & _). discriminate E.
  - apply default_bucket_exec in H1. destruct H1 as (v' & E & Hpre).
    inversion E; subst v'; clear E.
    exec_step H2. destruct x as [status out]. simpl in H2.
    exists tr1, v, status, out. cbv zeta. unfold captured_listing.
    destruct (Z.eqb status 0); simpl in H2.
    + unfold decode in H2.
      destruct (Py.decode_utf8 out); exec_end H2; repeat split; exact Hpre.
    + exec_end H2. repeat split; exact Hpre.
Qed.

Lemma parse_target_exec bucket_id lazy f tr r :
  exec (parse_target bucket_id lazy f) tr r ->
  (bucket_id = None /\ tr = [] /\ exists e, r = Err e) \/
  (exists b, bucket_id = Some b /\
     if lazy then
       exists res, tr = [io_scan_csv (Py.replace f b "bucket_io") false res] /\
                   r = match res with Ok lf => Ok (Lazy lf) | Err e => Err e end
     else
       exists res, tr = [io_read_csv (Py.replace f b "bucket_io") false res] /\
                   r = match res with Ok df => Ok (Eager df) | Err e => Err e end).
Proof.
  destruct bucket_id as [b |]; intros H.
  - right. exists b. split; [reflexivity |].
    destruct lazy; exec_step H; exists x; destruct x; exec_end H; auto.
  - left. exec_end H. eauto.
Qed.

Lemma parse_targets_exec bucket_id lazy file_targets :
  forall dfs tr r,
    exec (parse_targets bucket_id lazy file_targets dfs) tr r ->
    listings tr = [] /\ env_reads tr = [] /\ commands tr = [] /\
    (lazy = true -> materialized tr = []) /\
    (forall b, bucket_id = Some b ->
       exists n, parsed tr =
                 firstn n (map (fun f => Py.replace f b "bucket_io") file_targets)) /\
    match r with
    | Ok out =>
        out = (dfs ++ frames_of lazy tr)%list /\
        length (frames_of lazy tr) = length file_targets /\
        (forall b, bucket_id = Some b ->
           parsed tr = map (fun f => Py.replace f b "bucket_io") file_targets)
    | Err _ => length (frames_of lazy tr) < length file_targets
    end.
Proof.
  induction file_targets as [| f rest IH]; intros dfs tr r H.
  - exec_end H. unfold frames_of. repeat split; auto.
    + intros b _. exists 0. reflexivity.
    + destruct lazy; simpl; now rewrite app_nil_r.
    + destruct lazy; reflexivity.
  - cbn [parse_targets] in H. apply exec_bind_inv in H.
    destruct H as [(e & H & ->) | (d & tr1 & tr2 & H1 & H2 & ->)].
    + apply parse_target_exec in H.
      destruct H as [(-> & -> & _) | (b & -> & H)].
      * unfold frames_of. repeat split; auto.
        -- intros b E; discriminate E.
        -- destruct lazy; simpl; lia.
      * destruct lazy; destruct H as (res & -> & E);
          destruct res; try discriminate E; unfold frames_of; simpl;
          (repeat split; auto; [| lia]);
          intros b' E'; inversion E'; subst b'; exists 1; destruct rest; reflexivity.
    + apply parse_target_exec in H1.
      destruct H1 as [(_ & _ & e & E) | (b & -> & H1)]; [discriminate E |].
      specialize (IH _ _ _ H2).
      destruct IH as (I1 & I2 & I3 & I4 & I5 & I6).
      destruct (I5 b eq_refl) as [n En].
      destruct lazy; destruct H1 as (res & -> & E);
        destruct res as [v | e]; try discriminate E; inversion E; subst d;
        unfold frames_of in *; simpl; rewrite ?I1, ?I2, ?I3;
        (split; [reflexivity |]); (split; [reflexivity |]);
        (split; [reflexivity |]);
        (split; [first [exact I4 | intros; discriminate] |]);
        (split;
         [ intros b0 Eb; inversion Eb; subst b0; exists (S n); simpl;
           rewrite En; reflexivity |]);
        (destruct r as [out | e];
         [ destruct I6 as (J1 & J2 & J3);
           split; [rewrite J1, <- app_assoc; reflexivity |];
           split; [f_equal; exact J2 |];
           intros b0 Eb; inversion Eb; subst b0; f_equal; apply J3; reflexivity
         | lia ]).
Qed.

Lemma collect_all_exec dfs :
  forall tr r,
    exec (comprehension collect dfs) tr r ->
    listings tr = [] /\ env_reads tr = [] /\ commands tr = [] /\
    parsed tr = [] /\ scanned tr = [] /\
    match r with
    | Ok out => out = map Eager (materialized tr) /\
                length (materialized tr) = length dfs
    | Err _ => length (materialized tr) < length dfs
    end.
Proof.
  induction dfs as [| f rest IH]; intros tr r H.
  - exec_end H. repeat split.
  - cbn [comprehension] in H. apply exec_bind_inv in H.
    destruct H as [(e & H & ->) | (d & tr1 & tr2 & H1 & H2 & ->)].
    + destruct f as [lf | df].
      * exec_step H. destruct x; exec_end H. simpl. repeat split. lia.
      * exec_end H. simpl. repeat split. lia.
    + destruct f as [lf | df]; [| exec_end H1].
      exec_step H1. destruct x as [df | e]; exec_end H1.
      apply exec_bind_inv in H2.
      destruct H2 as [(e & H & ->) | (ys & tr3 & tr4 & H3 & H4 & ->)].
      * destruct (IH _ _ H) as (I1 & I2 & I3 & I4 & I5 & I6).
        simpl. rewrite I1, I2, I3, I4, I5. repeat split. simpl in I6. lia.
      * exec_end H4. rewrite app_nil_r.
        destruct (IH _ _ H3) as (I1 & I2 & I3 & I4 & I5 & I6 & I7).
        simpl. rewrite I1, I2, I3, I4, I5. repeat split.
        -- rewrite I6. reflexivity.
        -- lia.
Qed.

(** Stacking frames that have the same columns appends their rows. *)
Lemma fold_vstack_same_columns cols ds :
  forall acc,
    columns acc = cols -> Forall (fun d => columns d = cols) ds ->
    fold_prog vstack_frames (Eager acc) (map Eager ds) =
    Ret (Eager (mkDataFrame cols (rows acc ++ concat (map rows ds))%list)).
Proof.
  induction ds as [| d ds IH]; intros acc Ha Hds; simpl.
  - rewrite app_nil_r. destruct acc; simpl in *; subst; reflexivity.
  - inversion Hds as [| ? ? Hd Hrest]; subst.
    unfold vstack. rewrite Hd.
    destruct (columns_eq_dec (columns acc) (columns acc)); [| congruence].
    simpl. rewrite IH; [| reflexivity | exact Hrest].
    simpl. rewrite <- app_assoc. reflexivity.
Qed.

Lemma reduce_vstack_same_columns cols d ds :
  Forall (fun x => columns x = cols) (d :: ds) ->
  reduce vstack_frames (map Eager (d :: ds)) =
  Ret (Eager (mkDataFrame cols (concat (map rows (d :: ds))))).
Proof.
  intros H. inversion H; subst. simpl.
  apply fold_vstack_same_columns; [reflexivity | assumption].
Qed.

Lemma height_concat cols ds :
  height (mkDataFrame cols (concat (map rows ds))) = list_sum (map height ds).
Proof.
  unfold height. simpl. induction ds as [| d ds IH]; simpl; [reflexivity |].
  rewrite length_app, IH. reflexivity.
Qed.

(** The calls before the branch on [file_name]: the bucket is resolved and
    the staging folder made. *)
Lemma read_from_bucket_folder_exec folder bucket_id lazy stack tr r :
  exec (read_from_bucket None (Some folder) bucket_id lazy stack) tr r ->
  exists pre post v,
    tr = (pre ++ post)%list /\
    listings pre = [] /\ parsed pre = [] /\ materialized pre = [] /\
    scanned pre = [] /\ collected pre = [] /\
    ((exists b, bucket_id = Some b /\ v = Some b /\ env_reads pre = []) \/
     (bucket_id = None /\ env_reads pre = [(WORKSPACE_BUCKET, v)])) /\
    ((post = [] /\ exists e, r = Err e) \/
     exec (read_folder (Some folder) v lazy stack) post r).
Proof.
  intros H.
  change (exec (v <- default_bucket bucket_id ;;
                ensure_staging_dir (Some folder) ;;
                read_folder (Some folder) v lazy stack) tr r) in H.
  apply exec_bind_inv in H.
  destruct H as [(e & H & _) | (v & tr1 & tr2 & H1 & H2 & ->)].
  { apply default_bucket_exec in H. destruct H as (v & E & _). discriminate E. }
  apply default_bucket_exec in H1. destruct H1 as (v' & E & Hv).
  inversion E; subst v'; clear E.
  assert (G : listings tr1 = [] /\ parsed tr1 = [] /\ materialized tr1 = [] /\
              scanned tr1 = [] /\ collected tr1 = [] /\
              ((exists b, bucket_id = Some b /\ v = Some b /\ env_reads tr1 = []) \/
               (bucket_id = None /\ env_reads tr1 = [(WORKSPACE_BUCKET, v)]))).
  { destruct Hv as [(b & -> & -> & ->) | (-> & ->)]; simpl; repeat split.
    - left. eauto.
    - right. auto. }
  destruct G as (G1 & G2 & G3 & G4 & G5 & G6).
  apply exec_bind_inv in H2.
  destruct H2 as [(e & H & ->) | ([] & tr3 & tr4 & H3 & H4 & ->)].
  - exists (tr1 ++ tr2)%list, [], v. rewrite app_nil_r.
    apply ensure_staging_dir_exec in H.
    unfold listings, parsed, materialized, scanned, collected, env_reads in *.
    rewrite !flat_map_app, G1, G2, G3, G4, G5.
    destruct H as [(-> & E) | [(p & -> & E) | (p & res & -> & E)]];
      try discriminate E; simpl.
    repeat split; try reflexivity.
    + destruct G6 as [(b & E1 & E2 & E3) | (E1 & E3)]; rewrite E3;
        [left; eauto | right; auto].
    + left. eauto.
  - exists (tr1 ++ tr3)%list, tr4, v. rewrite app_assoc.
    apply ensure_staging_dir_exec in H3.
    unfold listings, parsed, materialized, scanned, collected, env_reads in *.
    rewrite !flat_map_app, G1, G2, G3, G4, G5.
    destruct H3 as [(-> & E) | [(p & -> & E) | (p & res & -> & E)]]; simpl;
      (repeat split; try reflexivity;
       [ destruct G6 as [(b & E1 & E2 & E3) | (E1 & E3)]; rewrite E3;
         [left; eauto | right; auto]
       | right; exact H4 ]).
Qed.

(** Stacking makes no call to the environment. *)
Lemma fold_vstack_pure xs :
  forall acc, exists res, fold_prog vstack_frames acc xs = lift res.
Proof.
  induction xs as [| y ys IH]; intros acc; simpl.
  - exists (Ok acc). reflexivity.
  - destruct acc as [lf | a]; [eexists (Err _); reflexivity |].
    destruct y as [lf | b]; [eexists (Err _); reflexivity |].
    simpl. destruct (vstack a b) as [df | e]; simpl.
    + apply IH.
    + exists (Err e). reflexivity.
Qed.

Lemma vstack_all_pure xs : exists res, vstack_all xs = lift res.
Proof.
  unfold vstack_all, reduce. destruct xs as [| x xs].
  - eexists (Err _). reflexivity.
  - destruct (fold_vstack_pure xs x) as [[df | e] ->].
    + exists (Ok (Frame df)). reflexivity.
    + exists (Err e). reflexivity.
Qed.

Lemma vstack_all_exec xs tr r :
  exec (vstack_all xs) tr r -> tr = [] /\ vstack_all xs = lift r.
Proof.
  destruct (vstack_all_pure xs) as [res E]. rewrite E.
  destruct res; intros H; exec_end H; split; reflexivity.
Qed.

Lemma vstack_all_same_columns cols d ds :
  Forall (fun x => columns x = cols) (d :: ds) ->
  vstack_all (map Eager (d :: ds)) =
  Ret (Frame (Eager (mkDataFrame cols (concat (map rows (d :: ds)))))).
Proof.
  intros H. unfold vstack_all.
  rewrite (reduce_vstack_same_columns H). reflexivity.
Qed.

Lemma captured_listing_ok cmd status out ls :
  captured_listing cmd status out = Ok ls ->
  exists text, status = 0%Z /\ Py.decode_utf8 out = Some text /\
               ls = Some (listing_of text).
Proof.
  unfold captured_listing. destruct (Z.eqb_spec status 0); [| discriminate].
  destruct (Py.decode_utf8 out) as [text |]; [| discriminate].
  intros E. inversion E. eauto.
Qed.

(** The calls of the branch without a file name: the listing, the
    wildcard copy, the parses, and what stacking adds. *)
Lemma read_folder_exec file_folder v lazy stack tr r :
  exec (read_folder file_folder v lazy stack) tr r ->
  exists pre cmd status out,
    (pre = [] \/ (v = None /\ exists v', pre = [io_getenv WORKSPACE_BUCKET v'])) /\
    ((tr = (pre ++ [io_subprocess cmd status out])%list /\
      exists e, captured_listing cmd status out = Err e /\ r = Err e) \/
     (exists ls cp rc tr1 tr2 rp,
         captured_listing cmd status out = Ok (Some ls) /\
         tr = (pre ++ [io_subprocess cmd status out; io_system cp rc]
                   ++ tr1 ++ tr2)%list /\
         exec (parse_targets v lazy ls []) tr1 rp /\
         match rp with
         | Ok dfs => exec (stack_frames dfs lazy stack) tr2 r
         | Err e => tr2 = [] /\ r = Err e
         end)).
Proof.
  unfold read_folder. intros H. apply exec_bind_inv in H.
  destruct H as [(e & H & ->) | (listed & tr1 & tr2 & H1 & H2 & ->)].
  - apply ls_bucket_exec in H.
    destruct H as (pre & v' & status & out & -> & E & Hpre).
    eexists pre, _, status, out. split.
    + destruct Hpre as [(b & _ & _ & ->) | (-> & ->)]; [left | right]; eauto.
    + left. split; [reflexivity |]. exists e. split; [symmetry; exact E | reflexivity].
  - apply ls_bucket_exec in H1.
    destruct H1 as (pre & v' & status & out & -> & E & Hpre).
    eexists pre, _, status, out. split.
    + destruct Hpre as [(b & _ & _ & ->) | (-> & ->)]; [left | right]; eauto.
    + right. symmetry in E.
      destruct (captured_listing_ok _ _ _ E) as (text & _ & _ & ->).
      exec_step H2. apply exec_bind_inv in H2.
      destruct H2 as [(e & H & ->) | (dfs & tr3 & tr4 & H3 & H4 & ->)].
      * eexists _, _, x, tr, [], (Err e).
        split; [exact E |]. rewrite app_nil_r, <- app_assoc.
        split; [reflexivity |]. split; [exact H | split; reflexivity].
      * eexists _, _, x, tr3, tr4, (Ok dfs).
        split; [exact E |]. rewrite <- app_assoc.
        split; [reflexivity |]. split; [exact H3 | exact H4].
Qed.

Lemma stack_frames_exec dfs lazy stack tr r :
  exec (stack_frames dfs lazy stack) tr r ->
  listings tr = [] /\ env_reads tr = [] /\ commands tr = [] /\
  parsed tr = [] /\ scanned tr = [] /\
  if stack then
    if lazy then
      (length (materialized tr) = length dfs /\
       vstack_all (map Eager (materialized tr)) = lift r) \/
      (length (materialized tr) < length dfs /\ exists e, r = Err e)
    else tr = [] /\ vstack_all dfs = lift r
  else tr = [] /\ r = Ok (Frames dfs).
Proof.
  unfold stack_frames. destruct stack, lazy; simpl; intros H.
  - apply exec_bind_inv in H.
    destruct H as [(e & H & ->) | (c & tr1 & tr2 & H1 & H2 & ->)].
    + destruct (collect_all_exec _ _ _ H) as (I1 & I2 & I3 & I4 & I5 & I6).
      repeat split; auto. right. eauto.
    + destruct (collect_all_exec _ _ _ H1) as (I1 & I2 & I3 & I4 & I5 & I6 & I7).
      apply vstack_all_exec in H2. destruct H2 as [-> E].
      rewrite app_nil_r. repeat split; auto. left. subst c. auto.
  - apply vstack_all_exec in H. destruct H as [-> E]. repeat split; auto.
  - exec_end H. repeat split.
  - exec_end H. repeat split.
Qed.

Lemma listings_subprocess cmd status out :
  listings [io_subprocess cmd status out] =
  match captured_listing cmd status out with
  | Ok (Some ls) => [ls]
  | _ => []
  end.
Proof.
  unfold listings, captured_listing. simpl.
  destruct (Z.eqb status 0); [| reflexivity].
  destruct (Py.decode_utf8 out); reflexivity.
Qed.

Lemma parse_targets_collected bucket_id lazy file_targets :
  forall dfs tr r,
    exec (parse_targets bucket_id lazy file_targets dfs) tr r ->
    collected tr = [].
Proof.
  induction file_targets as [| f rest IH]; intros dfs tr r H.
  - exec_end H. reflexivity.
  - cbn [parse_targets] in H. apply exec_bind_inv in H.
    destruct H as [(e & H & ->) | (d & tr1 & tr2 & H1 & H2 & ->)].
    + apply parse_target_exec in H.
      destruct H as [(_ & -> & _) | (b & _ & H)]; [reflexivity |].
      destruct lazy; destruct H as (res & -> & _); reflexivity.
    + apply parse_target_exec in H1.
      destruct H1 as [(_ & -> & _) | (b & _ & H1)]; [exact (IH _ _ _ H2) |].
      unfold collected. rewrite flat_map_app. fold (collected tr2).
      rewrite (IH _ _ _ H2).
      destruct lazy; destruct H1 as (res & -> & _); reflexivity.
Qed.

(** The collects of line 87 are made on the frames of [dfs], in order. *)
Lemma collect_all_collected dfs :
  forall tr out,
    exec (comprehension collect dfs) tr (Ok out) ->
    map Lazy (collected tr) = dfs.
Proof.
  induction dfs as [| f rest IH]; intros tr out H.
  - exec_end H. reflexivity.
  - cbn [comprehension] in H. apply exec_bind_inv in H.
    destruct H as [(e & _ & E) | (d & tr1 & tr2 & H1 & H2 & ->)];
      [discriminate E |].
    destruct f as [lf | df]; [| exec_end H1].
    exec_step H1. destruct x as [df | e]; exec_end H1.
    apply exec_bind_inv in H2.
    destruct H2 as [(e & _ & E) | (ys & tr3 & tr4 & H3 & H4 & ->)];
      [discriminate E |].
    exec_end H4. rewrite app_nil_r. simpl. f_equal. exact (IH _ _ H3).
Qed.

Lemma stack_frames_collected dfs tr v :
  exec (stack_frames dfs true true) tr (Ok v) ->
  map Lazy (collected tr) = dfs.
Proof.
  unfold stack_frames. simpl. intros H. apply exec_bind_inv in H.
  destruct H as [(e & _ & E) | (c & tr1 & tr2 & H1 & H2 & ->)];
    [discriminate E |].
  apply vstack_all_exec in H2. destruct H2 as [-> _]. rewrite app_nil_r.
  eapply collect_all_collected; exact H1.
Qed.

Lemma parse_targets_needs_a_bucket lazy f rest dfs tr out :
  exec (parse_targets None lazy (f :: rest) dfs) tr (Ok out) -> False.
Proof.
  intros H. cbn [parse_targets] in H. apply exec_bind_inv in H.
  destruct H as [(e & _ & E) | (d & tr1 & tr2 & H1 & _)]; [discriminate E |].
  apply parse_target_exec in H1.
  destruct H1 as [(_ & _ & e & E) | (b & E & _)]; discriminate E.
Qed.

Lemma map_Lazy_inj (xs ys : list LazyFrame) :
  map Lazy xs = map Lazy ys -> xs = ys.
Proof.
  revert ys. induction xs as [| x xs IH]; intros [| y ys] H;
    try discriminate H; [reflexivity |].
  simpl in H. inversion H. f_equal. apply IH. assumption.
Qed.

(** Every execution of a call without a file name, by what happened. *)
Lemma folder_mode_exec folder bucket_id lazy stack tr r :
  exec (read_from_bucket None (Some folder) bucket_id lazy stack) tr r ->
  (listings tr = [] /\ parsed tr = [] /\ materialized tr = [] /\
   scanned tr = [] /\ exists e, r = Err e) \/
  (exists ls tr1 tr2 rp,
      listings tr = [ls] /\
      parsed tr = parsed tr1 /\
      scanned tr = scanned tr1 /\
      materialized tr = (materialized tr1 ++ materialized tr2)%list /\
      collected tr = (collected tr1 ++ collected tr2)%list /\
      exec (parse_targets (resolved_bucket bucket_id tr) lazy ls []) tr1 rp /\
      match rp with
      | Ok dfs => exec (stack_frames dfs lazy stack) tr2 r
      | Err e => tr2 = [] /\ r = Err e
      end).
Proof.
  intros H. apply read_from_bucket_folder_exec in H.
  destruct H as (pre & post & v & -> & P1 & P2 & P3 & P4 & P5 & Hv & H).
  destruct H as [(-> & e & ->) | H].
  { left. rewrite app_nil_r. repeat split; eauto. }
  apply read_folder_exec in H.
  destruct H as (pre2 & cmd & status & out & Hpre2 & H).
  assert (Q : listings pre2 = [] /\ parsed pre2 = [] /\ materialized pre2 = [] /\
              scanned pre2 = [] /\ collected pre2 = []).
  { destruct Hpre2 as [-> | (_ & v' & ->)]; repeat split. }
  destruct Q as (Q1 & Q2 & Q3 & Q4 & Q5).
  destruct H as [(-> & e & E & ->) | H].
  - left.
    pose proof (listings_subprocess cmd status out) as L. rewrite E in L.
    unfold listings, parsed, materialized, scanned in *.
    rewrite !flat_map_app, P1, P2, P3, P4, Q1, Q2, Q3, Q4, L.
    simpl. repeat split; eauto.
  - right. destruct H as (ls & cp & rc & tr1 & tr2 & rp & E & -> & H1 & H2).
    exists ls, tr1, tr2, rp.
    pose proof (listings_subprocess cmd status out) as L. rewrite E in L.
    destruct (parse_targets_exec _ _ _ _ _ _ H1) as (I1 & _ & _ & _ & _ & _).
    assert (S : listings tr2 = [] /\ parsed tr2 = [] /\ scanned tr2 = []).
    { destruct rp as [dfs | e].
      - destruct (stack_frames_exec _ _ _ _ _ H2) as (J1 & _ & _ & J4 & J5 & _).
        auto.
      - destruct H2 as [-> _]. repeat split. }
    destruct S as (S1 & S2 & S3).
    assert (R : resolved_bucket bucket_id
                  (pre ++ pre2 ++ [io_subprocess cmd status out; io_system cp rc]
                       ++ tr1 ++ tr2) = v).
    { unfold resolved_bucket.
      destruct Hv as [(b & -> & -> & _) | (-> & Ev)]; [reflexivity |].
      unfold env_reads in *. rewrite flat_map_app, Ev. reflexivity. }
    rewrite R.
    change [io_subprocess cmd status out; io_system cp rc]
      with ([io_subprocess cmd status out] ++ [io_system cp rc])%list.
    unfold listings, parsed, materialized, scanned, collected in *.
    rewrite !flat_map_app, P1, P2, P3, P4, P5, Q1, Q2, Q3, Q4, Q5, L, I1,
      S1, S2, S3.
    simpl. rewrite !app_nil_r. repeat split; auto.
Qed.

(** ** [ls_bucket] *)

Ltac answer x := simpl; exists x; eexists; split; [reflexivity |].
Ltac finish := simpl; split; reflexivity.



(** ** Folders *)

(** C9.  A call without a file name and with [stack=True] whose listing
    holds no path parses nothing and ends with the [TypeError] of
    [reduce] on an empty list, lazy or not. *)
Theorem read_from_bucket_stacks_nothing
  (folder : string) (bucket_id : option string) (lazy : bool) tr r :
  exec (read_from_bucket None (Some folder) bucket_id lazy true) tr r ->
  listings tr = [[]] ->
  r = Err (TypeError "reduce() of empty iterable with no initial value") /\
  parsed tr = [] /\ materialized tr = [].
Proof.
  intros H L. apply folder_mode_exec in H.
  destruct H as [(L' & _) | (ls & tr1 & tr2 & rp & L' & P & _ & M & _ & H1 & H2)].
  { rewrite L' in L. discriminate L. }
  rewrite L' in L. inversion L; subst ls; clear L.
  rewrite P, M. exec_end H1. simpl.
  destruct lazy; exec_end H2; repeat split.
Qed.

Lemma read_from_bucket_stacks_nothing_witness :
  let tr := [io_isdir "bucket_io/x" true;
             io_subprocess "gsutil ls gs://b/x" 0 "";
             io_system "gcloud storage cp 'gs://b/x/*.csv' 'bucket_io/x'" 0] in
  listings tr = [[]] /\
  exec (read_from_bucket None (Some "x") (Some "gs://b") true true) tr
       (Err (TypeError "reduce() of empty iterable with no initial value")).
Proof.
  cbv zeta. split; [reflexivity |].
  assert (H : exists r,
             exec (read_from_bucket None (Some "x") (Some "gs://b") true true)
                  [io_isdir "bucket_io/x" true;
                   io_subprocess "gsutil ls gs://b/x" 0 "";
                   io_system "gcloud storage cp 'gs://b/x/*.csv' 'bucket_io/x'" 0]
                  r).
  { eexists. answer true. answer (0%Z, ""). answer 0%Z. finish. }
  destruct H as [r H].
  rewrite <- (proj1 (@read_from_bucket_stacks_nothing _ _ _ _ _ H eq_refl)). exact H.
Defined.

(** C4 as stated fails when the frames do not have the same columns:
    the listing is not empty, [stack=True], every file parses, and the
    call ends with the error of [vstack]. *)
Lemma read_from_bucket_stack_of_different_columns :
  let out := "gs://b/x/a.csv" ++ String newline
               ("gs://b/x/b.csv" ++ String newline "") in
  let tr := [io_isdir "bucket_io/x" true;
             io_subprocess "gsutil ls gs://b/x" 0 out;
             io_system "gcloud storage cp 'gs://b/x/*.csv' 'bucket_io/x'" 0;
             io_read_csv "bucket_io/x/a.csv" false
               (Ok (mkDataFrame ["id"] [["1"]]));
             io_read_csv "bucket_io/x/b.csv" false
               (Ok (mkDataFrame ["name"] [["u"]]))] in
  listings tr = [["gs://b/x/a.csv"; "gs://b/x/b.csv"]] /\
  exec (read_from_bucket None (Some "x") (Some "gs://b") false true) tr
       (Err (PolarsError "ShapeError")).
Proof.
  cbv zeta. split; [reflexivity |].
  answer true.
  answer (0%Z, "gs://b/x/a.csv" ++ String newline
                 ("gs://b/x/b.csv" ++ String newline "")).
  answer 0%Z.
  answer (Ok (mkDataFrame ["id"] [["1"]])).
  answer (Ok (mkDataFrame ["name"] [["u"]])).
  finish.
Qed.

(** C5, amended.  In an execution of a call without a file name, with
    the bucket resolved to [b] and the listing [ls], the paths given to
    the CSV reader are, in order, the listed paths with every occurrence
    of [b] replaced by "bucket_io": all of them when the call returns, a
    first part of them when it raises.  For a listed path that is [b]
    followed by a rest in which [b] does not occur, this is "bucket_io"
    followed by that rest. *)
Theorem read_from_bucket_parses_replaced_paths
  (folder : string) (bucket_id : option string) (lazy stack : bool)
  tr r (b : string) ls :
  exec (read_from_bucket None (Some folder) bucket_id lazy stack) tr r ->
  resolved_bucket bucket_id tr = Some b ->
  listings tr = [ls] ->
  let local := fun f => Py.replace f b "bucket_io" in
  (exists n, parsed tr = firstn n (map local ls)) /\
  (forall v, r = Ok v -> parsed tr = map local ls) /\
  (forall rest, b <> "" -> occurs b rest = false ->
                local (b ++ rest) = "bucket_io" ++ rest).
Proof.
  intros H Hb L local. apply folder_mode_exec in H.
  destruct H as [(L' & _) | (ls' & tr1 & tr2 & rp & L' & P & _ & _ & _ & H1 & H2)].
  { rewrite L' in L. discriminate L. }
  rewrite L' in L. inversion L; subst ls'; clear L L'.
  rewrite Hb in H1. rewrite P.
  destruct (parse_targets_exec _ _ _ _ _ _ H1) as (_ & _ & _ & _ & I5 & I6).
  split; [exact (I5 b eq_refl) |]. split.
  - intros v ->. destruct rp as [dfs | e].
    + destruct I6 as (_ & _ & I7). exact (I7 b eq_refl).
    + destruct H2 as (_ & E). discriminate E.
  - intros rest NE Hocc. unfold local.
    rewrite replace_prefix by exact NE.
    rewrite replace_absent by assumption. reflexivity.
Qed.

Lemma read_from_bucket_parses_replaced_paths_witness :
  let out := "gs://b/x/a.csv" ++ String newline "" in
  let d := mkDataFrame ["id"] [["1"]] in
  let tr := [io_getenv WORKSPACE_BUCKET (Some "gs://b");
             io_isdir "bucket_io/x" true;
             io_subprocess "gsutil ls gs://b/x" 0 out;
             io_system "gcloud storage cp 'gs://b/x/*.csv' 'bucket_io/x'" 0;
             io_read_csv "bucket_io/x/a.csv" false (Ok d)] in
  exec (read_from_bucket None (Some "x") None false false) tr
       (Ok (Frames [Eager d])) /\
  parsed tr = ["bucket_io/x/a.csv"] /\
  Py.replace ("gs://b" ++ "/x/a.csv") "gs://b" "bucket_io" =
  "bucket_io" ++ "/x/a.csv".
Proof.
  cbv zeta.
  assert (H : exec (read_from_bucket None (Some "x") None false false)
    [io_getenv WORKSPACE_BUCKET (Some "gs://b");
     io_isdir "bucket_io/x" true;
     io_subprocess "gsutil ls gs://b/x" 0 ("gs://b/x/a.csv" ++ String newline "");
     io_system "gcloud storage cp 'gs://b/x/*.csv' 'bucket_io/x'" 0;
     io_read_csv "bucket_io/x/a.csv" false (Ok (mkDataFrame ["id"] [["1"]]))]
    (Ok (Frames [Eager (mkDataFrame ["id"] [["1"]])]))).
  { answer (Some "gs://b"). answer true.
    answer (0%Z, "gs://b/x/a.csv" ++ String newline "").
    answer 0%Z. answer (Ok (mkDataFrame ["id"] [["1"]])). finish. }
  split; [exact H |].
  pose proof (@read_from_bucket_parses_replaced_paths
                _ _ _ _ _ _ "gs://b" _ H eq_refl eq_refl) as T.
  cbv zeta in T. destruct T as (_ & T2 & T3). split.
  - exact (T2 _ eq_refl).
  - apply T3; [discriminate | reflexivity].
Defined.

(** C5 as stated fails when the bucket identifier occurs again in a
    listed path: the occurrence behind the prefix is replaced too, so the
    path parsed is not "bucket_io" followed by the rest of the path. *)
Lemma read_from_bucket_replaces_every_occurrence :
  let listed := "gs://b" ++ "/x/gs://b.csv" in
  let d := mkDataFrame ["id"] [["1"]] in
  exec (read_from_bucket None (Some "x") (Some "gs://b") false false)
       [io_isdir "bucket_io/x" true;
        io_subprocess "gsutil ls gs://b/x" 0 (listed ++ String newline "");
        io_system "gcloud storage cp 'gs://b/x/*.csv' 'bucket_io/x'" 0;
        io_read_csv "bucket_io/x/bucket_io.csv" false (Ok d)]
       (Ok (Frames [Eager d])) /\
  Py.replace listed "gs://b" "bucket_io" = "bucket_io/x/bucket_io.csv" /\
  Py.replace listed "gs://b" "bucket_io" <> "bucket_io" ++ "/x/gs://b.csv".
Proof.
  cbv zeta. split; [| split; [reflexivity | discriminate]].
  answer true.
  answer (0%Z, "gs://b" ++ "/x/gs://b.csv" ++ String newline "").
  answer 0%Z. answer (Ok (mkDataFrame ["id"] [["1"]])). finish.
Qed.

(** ** The default bucket *)

Lemma without_env_id tr : env_reads tr = [] -> without_env tr = tr.
Proof.
  unfold without_env. induction tr as [| i tr IH]; simpl; [reflexivity |].
  destruct i; simpl; intros H; try discriminate H; now rewrite IH.
Qed.

(** A program that starts with the two lines of the default, run without
    a bucket where the variable holds [b], is the program run with [b]. *)
Lemma default_bucket_bind_exec (R : Type) (K : option string -> prog R) b tr r :
  exec (v <- default_bucket None ;; K v) tr r ->
  env_reads tr = [(WORKSPACE_BUCKET, Some b)] ->
  exec (v <- default_bucket (Some b) ;; K v) (without_env tr) r.
Proof.
  intros H E. exec_step H. simpl in E. inversion E as [[Ex Et]]. subst x.
  simpl. rewrite (without_env_id _ Et). exact H.
Qed.


Lemma bind_assoc (A B C : Type) (p : prog A) (f : A -> prog B) (g : B -> prog C) :
  forall tr r, exec (bind (bind p f) g) tr r <->
               exec (bind p (fun a => bind (f a) g)) tr r.
Proof.
  induction p as [v | e | X ev k IH]; simpl; intros tr r; [tauto | tauto |].
  split; intros (x & tr' & E & H); exists x, tr'; (split; [exact E |]);
    apply IH; exact H.
Qed.

Lemma default_bucket_bind2_exec (A R : Type) (K : option string -> prog A)
  (G : A -> prog R) b tr r :
  exec (bind (bind (default_bucket None) K) G) tr r ->
  env_reads tr = [(WORKSPACE_BUCKET, Some b)] ->
  exec (bind (bind (default_bucket (Some b)) K) G) (without_env tr) r.
Proof.
  intros H E. apply bind_assoc in H. apply bind_assoc.
  eapply default_bucket_bind_exec; eassumption.
Qed.

Section Runs.
Variables (W : Type) (h : handler W).

Lemma run_bind_assoc (A B C : Type) (p : prog A) (f : A -> prog B)
  (g : B -> prog C) :
  forall w, run h (bind (bind p f) g) w =
            run h (bind p (fun a => bind (f a) g)) w.
Proof.
  induction p as [v | e | X ev k IH]; simpl; intros w; try reflexivity.
  destruct (@h X ev w) as [w1 x]. rewrite IH. reflexivity.
Qed.
End Runs.

(** In the reference environment a read of the variable answers what the
    world holds and leaves the world as it is. *)
Lemma run_default_bucket (x : Posix.Externals) (A R : Type)
  (K : option string -> prog A) (G : A -> prog R) (w : Posix.World) b :
  Posix.env_lookup WORKSPACE_BUCKET (Posix.environ w) = Some b ->
  let o1 := run (Posix.answer x) (bind (bind (default_bucket None) K) G) w in
  let o2 := run (Posix.answer x) (bind (bind (default_bucket (Some b)) K) G) w in
  fst (fst o1) = fst (fst o2) /\ snd o1 = snd o2 /\
  commands (snd (fst o1)) = commands (snd (fst o2)).
Proof.
  intros E. cbv zeta. rewrite !run_bind_assoc. simpl. rewrite E.
  destruct (run (Posix.answer x) (bind (K (Some b)) G) w) as [[w' tr] r].
  simpl. repeat split.
Qed.

(** ** [write_to_bucket] *)

(** C10.  [write_to_bucket] starts with the write of [bucket_io/temp.csv]:
    nothing before it makes the directory.  In the reference environment,
    in a world where [bucket_io] is not a directory, the write fails with
    [FileNotFoundError] ([NotADirectoryError] when [bucket_io] is a
    regular file), the call ends with that error, no command is started
    and the world is left as it was.  In any environment, when the write
    fails the call ends with its error and starts no command. *)
Theorem write_to_bucket_needs_the_staging_dir
  (x : Posix.Externals) (w : Posix.World) (file : DataFrame) (target : string)
  (bucket_id : option string) :
  Posix.is_dir (Posix.store w) ["bucket_io"] = false ->
  let e := OSError (if Posix.is_file (Posix.store w) ["bucket_io"]
                    then "NotADirectoryError" else "FileNotFoundError") in
  run (Posix.answer x) (write_to_bucket file target bucket_id) w =
  (w, [io_write_csv file "bucket_io/temp.csv" (Err e)], Err e) /\
  (forall tr r,
      exec (write_to_bucket file target bucket_id) tr r ->
      exists res rest,
        tr = io_write_csv file "bucket_io/temp.csv" res :: rest /\
        (forall e', res = Err e' ->
                    rest = [] /\ r = Err e' /\ commands tr = [])).
Proof.
  intros D e. split.
  - destruct w as [env st out]. cbn [Posix.store] in D, e.
    unfold write_to_bucket, call. cbn [bind run].
    cbn [Posix.answer Posix.store].
    change (Posix.components "bucket_io/temp.csv")
      with ["bucket_io"; "temp.csv"].
    unfold Posix.write_file, Posix.missing_error. cbn [removelast]. rewrite D.
    change (Posix.prefixes ["bucket_io"]) with [["bucket_io"]].
    cbn [existsb negb]. rewrite orb_false_r. reflexivity.
  - intros tr r H. unfold write_to_bucket, call in H. cbn [bind exec] in H.
    destruct H as (res & rest & -> & H). exists res, rest.
    split; [reflexivity |]. intros e' ->. cbn [bind] in H. exec_end H.
    repeat split.
Qed.

Lemma write_to_bucket_needs_the_staging_dir_witness :
  let x := Posix.mkExternals (fun _ st => (st, 0%Z, ""))
             (fun _ => Err (PolarsError "NoDataError")) (fun _ => "") in
  let w := Posix.mkWorld [(WORKSPACE_BUCKET, "gs://b")] (Posix.mkStore [] []) "" in
  let w' := Posix.mkWorld [] (Posix.mkStore [] [(["bucket_io"], "")]) "" in
  let df := mkDataFrame ["id"] [["1"]] in
  Posix.is_dir (Posix.store w) ["bucket_io"] = false /\
  run (Posix.answer x) (write_to_bucket df "datasets/out.csv" None) w =
  (w, [io_write_csv df "bucket_io/temp.csv" (Err (OSError "FileNotFoundError"))],
   Err (OSError "FileNotFoundError")) /\
  run (Posix.answer x) (write_to_bucket df "datasets/out.csv" None) w' =
  (w', [io_write_csv df "bucket_io/temp.csv" (Err (OSError "NotADirectoryError"))],
   Err (OSError "NotADirectoryError")).
Proof.
  cbv zeta. split; [reflexivity |]. split.
  - exact (proj1 (write_to_bucket_needs_the_staging_dir
                    (Posix.mkExternals (fun _ st => (st, 0%Z, ""))
                       (fun _ => Err (PolarsError "NoDataError")) (fun _ => ""))
                    (Posix.mkWorld [(WORKSPACE_BUCKET, "gs://b")]
                       (Posix.mkStore [] []) "")
                    (mkDataFrame ["id"] [["1"]]) "datasets/out.csv" None eq_refl)).
  - exact (proj1 (write_to_bucket_needs_the_staging_dir
                    (Posix.mkExternals (fun _ st => (st, 0%Z, ""))
                       (fun _ => Err (PolarsError "NoDataError")) (fun _ => ""))
                    (Posix.mkWorld [] (Posix.mkStore [] [(["bucket_io"], "")]) "")
                    (mkDataFrame ["id"] [["1"]]) "datasets/out.csv" None eq_refl)).
Defined.

(** * Further properties of the module *)

(** ** Splitting and joining *)

Lemma split_length sep s : length (Py.split sep s) = S (count sep s).
Proof.
  induction s as [| c s IH]; simpl; [reflexivity |].
  destruct (Ascii.eqb c sep); simpl.
  - rewrite IH. reflexivity.
  - destruct (Py.split sep s); simpl in *; [discriminate IH | exact IH].
Qed.

Lemma split_pieces sep s :
  Forall (fun w => count sep w = 0) (Py.split sep s).
Proof.
  induction s as [| c s IH]; simpl; [repeat constructor |].
  destruct (Ascii.eqb c sep) eqn:E.
  - constructor; [reflexivity | exact IH].
  - destruct (Py.split sep s) as [| w ws].
    + repeat constructor. simpl. rewrite E. reflexivity.
    + inversion IH; subst. constructor; [| assumption].
      simpl. rewrite E. assumption.
Qed.

Lemma split_without_separator sep s : count sep s = 0 -> Py.split sep s = [s].
Proof.
  induction s as [| c s IH]; simpl; [reflexivity |].
  destruct (Ascii.eqb c sep); [discriminate |].
  simpl. intros H. rewrite (IH H). reflexivity.
Qed.

Lemma split_app_last sep p base :
  count sep base = 0 ->
  Py.split sep (p ++ String sep base) = (Py.split sep p ++ [base])%list.
Proof.
  intros H. induction p as [| c p IH]; simpl.
  - rewrite Ascii.eqb_refl, (split_without_separator _ _ H). reflexivity.
  - rewrite IH. destruct (Ascii.eqb c sep); [reflexivity |].
    pose proof (split_not_nil sep p) as NE.
    destruct (Py.split sep p); [congruence | reflexivity].
Qed.

(** Joining the pieces of a split gives the string back. *)
Lemma join_split sep s : Py.join (String sep "") (Py.split sep s) = s.
Proof.
  unfold Py.join. induction s as [| c s IH]; simpl; [reflexivity |].
  pose proof (split_not_nil sep s) as NE.
  destruct (Ascii.eqb_spec c sep) as [-> | Hc].
  - destruct (Py.split sep s) as [| w ws]; [congruence |].
    simpl in *. rewrite IH. reflexivity.
  - destruct (Py.split sep s) as [| w ws]; [congruence |].
    simpl in *. destruct ws; simpl in *; rewrite <- IH; reflexivity.
Qed.

(** The directory [copy_to_bucket] looks at: the target up to its last
    slash. *)
Lemma parent_of_target parent base :
  count "/" base = 0 ->
  Py.join "/" (Py.but_last (Py.split "/" (parent ++ "/" ++ base))) = parent /\
  1 < length (Py.split "/" (parent ++ "/" ++ base)).
Proof.
  intros H. change (parent ++ "/" ++ base) with (parent ++ String "/" base).
  rewrite split_app_last by exact H. unfold Py.but_last.
  rewrite removelast_last. split; [apply join_split |].
  rewrite length_app, split_length. simpl. lia.
Qed.

(** ** Shapes of the executions *)

Lemma copy_to_bucket_exec file_name target bucket_id tr r :
  exec (copy_to_bucket file_name target bucket_id) tr r ->
  exists v pre,
    ((exists b, bucket_id = Some b /\ v = Some b /\ pre = []) \/
     (bucket_id = None /\ pre = [io_getenv WORKSPACE_BUCKET v])) /\
    let cmd := "gsutil cp " ++ file_name ++ " " ++ Py.fmt v ++ "/" ++ target in
    let dir := Py.join "/" (Py.but_last (Py.split "/" target)) in
    (Nat.ltb 1 (length (Py.split "/" target)) = false /\
     exists status, tr = (pre ++ [io_system cmd status])%list /\ r = Ok tt) \/
    (Nat.ltb 1 (length (Py.split "/" target)) = true /\
     ((exists status,
          tr = (pre ++ [io_isdir dir true; io_system cmd status])%list /\
          r = Ok tt) \/
      (exists status,
          tr = (pre ++ [io_isdir dir false; io_makedirs dir (Ok tt);
                        io_system cmd status])%list /\
          r = Ok tt) \/
      (exists e,
          tr = (pre ++ [io_isdir dir false; io_makedirs dir (Err e)])%list /\
          r = Err e))).
Proof.
  unfold copy_to_bucket. intros H. apply exec_bind_inv in H.
  destruct H as [(e & H & _) | (v & tr1 & tr2 & H1 & H2 & ->)].
  { apply default_bucket_exec in H. destruct H as (v & E & _). discriminate E. }
  apply default_bucket_exec in H1. destruct H1 as (v' & E & Hv).
  inversion E; subst v'; clear E.
  exists v, tr1. split; [exact Hv |]. cbv zeta.
  destruct (Nat.ltb 1 (length (Py.split "/" target))).
  - right. split; [reflexivity |].
    exec_step H2. destruct x; simpl in H2.
    + exec_step H2. exec_end H2. left. eauto.
    + exec_step H2. destruct x as [[] | e]; simpl in H2.
      * exec_step H2. exec_end H2. right. left. eauto.
      * exec_end H2. right. right. eauto.
  - left. split; [reflexivity |].
    exec_step H2. exec_end H2. eauto.
Qed.

Lemma read_from_bucket_shape file_name file_folder bucket_id lazy stack tr r :
  exec (read_from_bucket file_name file_folder bucket_id lazy stack) tr r ->
  (tr = [] /\ exists msg, r = Err (ValueError msg)) \/
  (exists v tr0 trd post rd,
      tr = (tr0 ++ trd ++ post)%list /\
      exec (default_bucket bucket_id) tr0 (Ok v) /\
      exec (ensure_staging_dir file_folder) trd rd /\
      match rd with
      | Err e => post = [] /\ r = Err e
      | Ok _ =>
          exec match file_name with
               | Some name => read_single name file_folder v lazy
               | None => read_folder file_folder v lazy stack
               end post r
      end).
Proof.
  unfold read_from_bucket. intros H.
  destruct (Py.is_none file_name && Py.is_none file_folder);
    [exec_end H; left; eauto |].
  destruct (match file_name with
            | Some name => negb (csv_extension name)
            | None => false
            end); [exec_end H; left; eauto |].
  right. apply exec_bind_inv in H.
  destruct H as [(e & H & _) | (v & tr1 & tr2 & H1 & H2 & ->)].
  { apply default_bucket_exec in H. destruct H as (v & E & _). discriminate E. }
  apply exec_bind_inv in H2.
  destruct H2 as [(e & H & ->) | (u & tr3 & tr4 & H3 & H4 & ->)].
  - exists v, tr1, tr2, [], (Err e). rewrite app_nil_r. auto.
  - exists v, tr1, tr3, tr4, (Ok u). auto.
Qed.

Lemma ls_bucket_captured target bucket_id tr r cmd status out :
  exec (ls_bucket target bucket_id true) tr r ->
  In (io_subprocess cmd status out) tr ->
  r = captured_listing cmd status out.
Proof.
  intros H HIn. apply ls_bucket_exec in H.
  destruct H as (pre & v & status' & out' & -> & -> & Hpre).
  apply in_app_or in HIn. destruct HIn as [HIn | [HIn | []]].
  - destruct Hpre as [(b & _ & _ & ->) | (_ & ->)]; simpl in HIn;
      [contradiction | destruct HIn as [HIn | []]; discriminate HIn].
  - inversion HIn; subst. reflexivity.
Qed.

(** ** The listing *)

(** X5.  With [return_list=True], status zero and an output that decodes,
    [ls_bucket] returns as many paths as the output has newline
    characters: the pieces before each newline, none of which holds a
    newline; what follows the last newline is dropped, empty or not. *)
Theorem ls_bucket_counts_newlines
  (target bucket_id : option string) tr r cmd out text :
  exec (ls_bucket target bucket_id true) tr r ->
  In (io_subprocess cmd 0 out) tr ->
  Py.decode_utf8 out = Some text ->
  exists paths tail,
    r = Ok (Some paths) /\
    Py.split newline text = (paths ++ [tail])%list /\
    length paths = count newline text /\
    Forall (fun p => count newline p = 0) paths.
Proof.
  intros H HIn Hd.
  rewrite (@ls_bucket_captured _ _ _ _ _ _ _ H HIn). unfold captured_listing. simpl.
  rewrite Hd. unfold listing_of, Py.but_last.
  pose proof (split_not_nil newline text) as NE.
  pose proof (split_length newline text) as L.
  pose proof (split_pieces newline text) as P.
  rewrite (app_removelast_last "" NE) in L, P.
  exists (removelast (Py.split newline text)), (last (Py.split newline text) "").
  split; [reflexivity |]. split; [apply app_removelast_last; exact NE |].
  split.
  - rewrite length_app in L. simpl in L. lia.
  - apply Forall_app in P. tauto.
Qed.

Lemma ls_bucket_counts_newlines_witness :
  let out := "gs://b/x/a.csv" ++ String newline "gs://b/x/b.csv" in
  exec (ls_bucket (Some "x") (Some "gs://b") true)
       [io_subprocess "gsutil ls gs://b/x" 0 out]
       (Ok (Some ["gs://b/x/a.csv"])) /\
  count newline out = 1.
Proof.
  cbv zeta. split; [| reflexivity].
  assert (H : exists r,
    exec (ls_bucket (Some "x") (Some "gs://b") true)
      [io_subprocess "gsutil ls gs://b/x" 0
         ("gs://b/x/a.csv" ++ String newline "gs://b/x/b.csv")] r).
  { eexists. answer (0%Z, "gs://b/x/a.csv" ++ String newline "gs://b/x/b.csv").
    finish. }
  destruct H as [r H].
  destruct (@ls_bucket_counts_newlines _ _ _ _ _ _ _ H (or_introl eq_refl) eq_refl)
    as (paths & tail & E & S & _).
  assert (P : paths = ["gs://b/x/a.csv"]).
  { change (Py.split newline
              ("gs://b/x/a.csv" ++ String newline "gs://b/x/b.csv"))
      with (["gs://b/x/a.csv"] ++ ["gs://b/x/b.csv"])%list in S.
    apply app_inj_tail in S. destruct S as [S _]. symmetry. exact S. }
  subst. exact H.
Defined.

(** ** The staging directory *)

Lemma ensure_staging_dir_some_exec folder tr r :
  exec (ensure_staging_dir (Some folder)) tr r ->
  let dir := "bucket_io/" ++ folder in
  (tr = [io_isdir dir true] /\ r = Ok tt) \/
  (tr = [io_isdir dir false; io_makedirs dir (Ok tt)] /\ r = Ok tt) \/
  (exists e, tr = [io_isdir dir false; io_makedirs dir (Err e)] /\ r = Err e).
Proof.
  intros H dir. exec_step H. destruct x; simpl in H.
  - exec_end H. left. auto.
  - exec_step H. destruct x as [[] | e]; exec_end H.
    + right. left. auto.
    + right. right. eauto.
Qed.

(** ** The bucket and the environment *)

Lemma exec_bind_ret (A B : Type) (p : prog A) (g : A -> B) tr r :
  exec (bind p (fun x => Ret (g x))) tr r -> exists r0, exec p tr r0.
Proof.
  intros H. apply exec_bind_inv in H.
  destruct H as [(e & H & _) | (a & tr1 & tr2 & H1 & H2 & ->)].
  - eauto.
  - exec_end H2. rewrite app_nil_r. eauto.
Qed.

Lemma copy_to_bucket_no_env file_name target b tr r :
  exec (copy_to_bucket file_name target (Some b)) tr r -> env_reads tr = [].
Proof.
  intros H. apply copy_to_bucket_exec in H.
  destruct H as (v & pre & Hv & H). cbv zeta in H.
  destruct Hv as [(b' & _ & _ & ->) | (E & _)]; [| discriminate E].
  destruct H as [(_ & status & -> & _) |
                 (_ & [(status & -> & _) |
                       [(status & -> & _) | (e & -> & _)]])]; reflexivity.
Qed.

Lemma read_from_bucket_no_env file_name file_folder b lazy stack tr r :
  exec (read_from_bucket file_name file_folder (Some b) lazy stack) tr r ->
  env_reads tr = [].
Proof.
  intros H. apply read_from_bucket_shape in H.
  destruct H as [(-> & _) | (v & tr0 & trd & post & rd & -> & H0 & Hd & H)];
    [reflexivity |].
  exec_end H0.
  assert (D : env_reads trd = []).
  { apply ensure_staging_dir_exec in Hd.
    destruct Hd as [(-> & _) | [(p & -> & _) | (p & res & -> & _)]]; reflexivity. }
  assert (P : env_reads post = []).
  { destruct rd as [u | e]; [| destruct H as [-> _]; reflexivity].
    destruct file_name as [name |].
    - destruct file_folder, lazy; exec_step H; exec_step H;
        destruct x0; exec_end H; reflexivity.
    - apply read_folder_exec in H.
      destruct H as (pre & cmd & status & out & Hpre & H).
      destruct Hpre as [-> | (E & _)]; [| discriminate E].
      destruct H as [(-> & _) | (ls & cp & rc & tr1 & tr2 & rp & _ & -> & H1 & H2)];
        [reflexivity |].
      destruct (parse_targets_exec _ _ _ _ _ _ H1) as (_ & I2 & _).
      assert (S : env_reads tr2 = []).
      { destruct rp as [dfs | e].
        - destruct (stack_frames_exec _ _ _ _ _ H2) as (_ & J2 & _). exact J2.
        - destruct H2 as [-> _]. reflexivity. }
      unfold env_reads in *. simpl. rewrite flat_map_app, I2, S. reflexivity. }
  unfold env_reads in *. simpl. rewrite flat_map_app, D, P. reflexivity.
Qed.

(** X8.  A call that is given a bucket never reads the environment: no
    execution of any of the six functions with [bucket_id] set holds a
    read of a variable. *)
Theorem explicit_bucket_reads_no_variable (op : operation) (b : string) tr r :
  exec (invoke op (Some b)) tr r -> env_reads tr = [].
Proof.
  intros H. destruct op as [p | f t | t rl | p | n fo l s | f t];
    unfold invoke in H; apply exec_bind_ret in H; destruct H as [r0 H].
  - exec_step H. exec_step H. exec_end H. reflexivity.
  - eapply copy_to_bucket_no_env. exact H.
  - destruct rl.
    + apply ls_bucket_exec in H.
      destruct H as (pre & v & status & out & -> & _ & Hpre).
      destruct Hpre as [(b' & _ & _ & ->) | (E & _)]; [reflexivity | discriminate E].
    + destruct t; exec_step H; exec_end H; reflexivity.
  - exec_step H. exec_end H. reflexivity.
  - eapply read_from_bucket_no_env. exact H.
  - unfold write_to_bucket, call in H. cbn [bind exec] in H.
    destruct H as (res & rest & -> & H).
    destruct res as [[] | e]; cbn [bind] in H; [| exec_end H; reflexivity].
    simpl. eapply copy_to_bucket_no_env. exact H.
Qed.

Lemma explicit_bucket_reads_no_variable_witness :
  exec (invoke (Load None (Some "x") true false) (Some "gs://b"))
       [io_isdir "bucket_io/x" true;
        io_subprocess "gsutil ls gs://b/x" 0 "";
        io_system "gcloud storage cp 'gs://b/x/*.csv' 'bucket_io/x'" 0]
       (Ok (Loaded (Frames []))) /\
  env_reads [io_isdir "bucket_io/x" true;
             io_subprocess "gsutil ls gs://b/x" 0 "";
             io_system "gcloud storage cp 'gs://b/x/*.csv' 'bucket_io/x'" 0] = [].
Proof.
  assert (H : exec (invoke (Load None (Some "x") true false) (Some "gs://b"))
       [io_isdir "bucket_io/x" true;
        io_subprocess "gsutil ls gs://b/x" 0 "";
        io_system "gcloud storage cp 'gs://b/x/*.csv' 'bucket_io/x'" 0]
       (Ok (Loaded (Frames [])))).
  { answer true. answer (0%Z, ""). answer 0%Z. finish. }
  split; [exact H |].
  exact (@explicit_bucket_reads_no_variable _ _ _ _ H).
Defined.




(** ** More on folders *)

(** X10.  A call without a file name for which no bucket is given and
    [WORKSPACE_BUCKET] is not set, and whose listing is not empty, ends
    with the [TypeError] of [str.replace] on the first listed path:
    nothing is parsed, lazy or not, stacked or not. *)
Theorem read_from_bucket_folder_without_bucket
  (folder : string) (bucket_id : option string) (lazy stack : bool) tr r ls :
  exec (read_from_bucket None (Some folder) bucket_id lazy stack) tr r ->
  resolved_bucket bucket_id tr = None ->
  listings tr = [ls] -> ls <> [] ->
  r = Err (TypeError "replace() argument 1 must be str, not None") /\
  parsed tr = [] /\ materialized tr = [].
Proof.
  intros H Hb L NE. apply folder_mode_exec in H.
  destruct H as [(L' & _) | (ls' & tr1 & tr2 & rp & L' & P & _ & M & _ & H1 & H2)].
  { rewrite L' in L. discriminate L. }
  rewrite L' in L. inversion L; subst ls'; clear L L'.
  rewrite Hb in H1. destruct ls as [| f rest]; [congruence |].
  exec_end H1. destruct H2 as [-> ->]. rewrite P, M. repeat split.
Qed.

Lemma read_from_bucket_folder_without_bucket_witness :
  let tr := [io_getenv WORKSPACE_BUCKET None;
             io_isdir "bucket_io/x" true;
             io_getenv WORKSPACE_BUCKET None;
             io_subprocess "gsutil ls None/x" 0 ("None/x/a.csv" ++ String newline "");
             io_system "gcloud storage cp 'None/x/*.csv' 'bucket_io/x'" 1] in
  resolved_bucket None tr = None /\ listings tr = [["None/x/a.csv"]] /\
  exec (read_from_bucket None (Some "x") None true false) tr
       (Err (TypeError "replace() argument 1 must be str, not None")).
Proof.
  cbv zeta. split; [reflexivity |]. split; [reflexivity |].
  assert (H : exists r,
    exec (read_from_bucket None (Some "x") None true false)
      [io_getenv WORKSPACE_BUCKET None;
       io_isdir "bucket_io/x" true;
       io_getenv WORKSPACE_BUCKET None;
       io_subprocess "gsutil ls None/x" 0 ("None/x/a.csv" ++ String newline "");
       io_system "gcloud storage cp 'None/x/*.csv' 'bucket_io/x'" 1] r).
  { eexists. answer (@None string). answer true. answer (@None string).
    answer (0%Z, "None/x/a.csv" ++ String newline ""). answer 1%Z. finish. }
  destruct H as [r H].
  assert (NE : ["None/x/a.csv"] <> []) by discriminate.
  destruct (@read_from_bucket_folder_without_bucket _ _ _ _ _ _ _
              H eq_refl eq_refl NE) as (E & _).
  subst r. exact H.
Defined.

(** X11.  A call without a file name and with [stack=False] whose listing
    holds no path returns the empty list, lazy or not, and gives nothing
    to the reader. *)
Theorem read_from_bucket_lists_nothing
  (folder : string) (bucket_id : option string) (lazy : bool) tr r :
  exec (read_from_bucket None (Some folder) bucket_id lazy false) tr r ->
  listings tr = [[]] ->
  r = Ok (Frames []) /\ parsed tr = [] /\ scanned tr = [] /\ materialized tr = [].
Proof.
  intros H L. apply folder_mode_exec in H.
  destruct H as [(L' & _) | (ls & tr1 & tr2 & rp & L' & P & S & M & _ & H1 & H2)].
  { rewrite L' in L. discriminate L. }
  rewrite L' in L. inversion L; subst ls; clear L.
  rewrite P, S, M. exec_end H1. simpl in H2.
  destruct lazy; exec_end H2; repeat split.
Qed.

Lemma read_from_bucket_lists_nothing_witness :
  let tr := [io_isdir "bucket_io/x" true;
             io_subprocess "gsutil ls gs://b/x" 0 "";
             io_system "gcloud storage cp 'gs://b/x/*.csv' 'bucket_io/x'" 0] in
  listings tr = [[]] /\
  exec (read_from_bucket None (Some "x") (Some "gs://b") false false) tr
       (Ok (Frames [])).
Proof.
  cbv zeta. split; [reflexivity |].
  assert (H : exists r,
    exec (read_from_bucket None (Some "x") (Some "gs://b") false false)
      [io_isdir "bucket_io/x" true;
       io_subprocess "gsutil ls gs://b/x" 0 "";
       io_system "gcloud storage cp 'gs://b/x/*.csv' 'bucket_io/x'" 0] r).
  { eexists. answer true. answer (0%Z, ""). answer 0%Z. finish. }
  destruct H as [r H].
  destruct (@read_from_bucket_lists_nothing _ _ _ _ _ H eq_refl) as (E & _).
  subst r. exact H.
Defined.

Lemma read_folder_shape folder v lazy stack tr r :
  exec (read_folder (Some folder) v lazy stack) tr r ->
  exists pre v' status out,
    ((exists b, v = Some b /\ v' = Some b /\ pre = []) \/
     (v = None /\ pre = [io_getenv WORKSPACE_BUCKET v'])) /\
    let lscmd := "gsutil ls " ++ Py.fmt v' ++ "/" ++ folder in
    let cpcmd := "gcloud storage cp '" ++ Py.fmt v ++ "/" ++ folder ++
                 "/*.csv' 'bucket_io/" ++ folder ++ "'" in
    ((tr = (pre ++ [io_subprocess lscmd status out])%list /\
      exists e, captured_listing lscmd status out = Err e /\ r = Err e) \/
     (exists ls rc tr1 tr2 rp,
         captured_listing lscmd status out = Ok (Some ls) /\
         tr = (pre ++ [io_subprocess lscmd status out; io_system cpcmd rc]
                   ++ tr1 ++ tr2)%list /\
         exec (parse_targets v lazy ls []) tr1 rp /\
         match rp with
         | Ok dfs => exec (stack_frames dfs lazy stack) tr2 r
         | Err e => tr2 = [] /\ r = Err e
         end)).
Proof.
  unfold read_folder. intros H. apply exec_bind_inv in H.
  destruct H as [(e & H & ->) | (listed & tr1 & tr2 & H1 & H2 & ->)].
  - apply ls_bucket_exec in H.
    destruct H as (pre & v' & status & out & -> & E & Hpre).
    exists pre, v', status, out. split; [exact Hpre |]. cbv zeta.
    left. split; [reflexivity |]. exists e. split; [symmetry; exact E | reflexivity].
  - apply ls_bucket_exec in H1.
    destruct H1 as (pre & v' & status & out & -> & E & Hpre).
    exists pre, v', status, out. split; [exact Hpre |]. cbv zeta.
    right. symmetry in E.
    destruct (captured_listing_ok _ _ _ E) as (text & _ & _ & ->).
    exec_step H2. apply exec_bind_inv in H2.
    destruct H2 as [(e & H & ->) | (dfs & tr3 & tr4 & H3 & H4 & ->)].
    + exists (listing_of text), x, tr, [], (Err e).
      split; [exact E |]. rewrite app_nil_r, <- app_assoc.
      split; [reflexivity |]. split; [exact H | split; reflexivity].
    + exists (listing_of text), x, tr3, tr4, (Ok dfs).
      split; [exact E |]. rewrite <- app_assoc.
      split; [reflexivity |]. split; [exact H3 | exact H4].
Qed.

Lemma in_commands cmd status out tr :
  In (io_subprocess cmd status out) tr -> In cmd (commands tr).
Proof.
  intros H. unfold commands. apply in_flat_map.
  exists (io_subprocess cmd status out). split; [exact H | left; reflexivity].
Qed.

(** The trace of a call without a file name around its listing. *)
Lemma folder_mode_shape folder bucket_id lazy stack tr r :
  exec (read_from_bucket None (Some folder) bucket_id lazy stack) tr r ->
  (commands tr = [] /\ listings tr = [] /\ exists e, r = Err e) \/
  (exists before v v' status out after,
      let lscmd := "gsutil ls " ++ Py.fmt v' ++ "/" ++ folder in
      let cpcmd := "gcloud storage cp '" ++ Py.fmt v ++ "/" ++ folder ++
                   "/*.csv' 'bucket_io/" ++ folder ++ "'" in
      tr = (before ++ io_subprocess lscmd status out :: after)%list /\
      commands before = [] /\ listings before = [] /\ parsed before = [] /\
      v = resolved_bucket bucket_id tr /\
      (forall b, v = Some b -> v' = Some b) /\
      ((after = [] /\
        exists e, captured_listing lscmd status out = Err e /\ r = Err e) \/
       (exists ls rc rest,
           captured_listing lscmd status out = Ok (Some ls) /\
           after = io_system cpcmd rc :: rest /\
           commands rest = [] /\ listings rest = []))).
Proof.
  intros H. apply read_from_bucket_shape in H.
  destruct H as [(-> & msg & ->) | (v & tr0 & trd & post & rd & -> & H0 & Hd & H)].
  { left. repeat split. eauto. }
  apply default_bucket_exec in H0. destruct H0 as (v0 & E & Hv).
  inversion E; subst v0; clear E.
  assert (P0 : commands tr0 = [] /\ listings tr0 = [] /\ parsed tr0 = [] /\
               forall rest, resolved_bucket bucket_id (tr0 ++ rest) = v).
  { destruct Hv as [(b & -> & -> & ->) | (-> & ->)]; repeat split. }
  destruct P0 as (A1 & A2 & A3 & A4).
  apply ensure_staging_dir_exec in Hd.
  assert (Pd : commands trd = [] /\ listings trd = [] /\ parsed trd = []).
  { destruct Hd as [(-> & _) | [(p & -> & _) | (p & res & -> & _)]];
      repeat split. }
  destruct Pd as (D1 & D2 & D3).
  destruct rd as [u | e].
  2:{ destruct H as [-> ->]. left. rewrite app_nil_r.
      unfold commands, listings in *. rewrite !flat_map_app, A1, A2, D1, D2.
      repeat split. eauto. }
  apply read_folder_shape in H.
  destruct H as (pre & v' & status & out & Hpre & H). cbv zeta in H.
  assert (Pp : commands pre = [] /\ listings pre = [] /\ parsed pre = [] /\
               forall b, v = Some b -> v' = Some b).
  { destruct Hpre as [(b & -> & -> & ->) | (-> & ->)]; repeat split; auto.
    intros b E; discriminate E. }
  destruct Pp as (B1 & B2 & B3 & B4).
  right. exists (tr0 ++ trd ++ pre)%list, v, v', status, out.
  destruct H as [(-> & e & E & ->) | (ls & rc & tr1 & tr2 & rp & E & -> & H1 & H2)].
  - exists []. cbv zeta. rewrite <- !app_assoc.
    split; [reflexivity |].
    unfold commands, listings, parsed in *.
    rewrite !flat_map_app, A1, A2, A3, D1, D2, D3, B1, B2, B3.
    repeat split; auto. left. eauto.
  - exists (io_system ("gcloud storage cp '" ++ Py.fmt v ++ "/" ++ folder ++
                       "/*.csv' 'bucket_io/" ++ folder ++ "'") rc
              :: tr1 ++ tr2)%list.
    cbv zeta. rewrite <- !app_assoc. split; [reflexivity |].
    destruct (parse_targets_exec _ _ _ _ _ _ H1) as (I1 & _ & I3 & _).
    assert (S : commands tr2 = [] /\ listings tr2 = []).
    { destruct rp as [dfs | e].
      - destruct (stack_frames_exec _ _ _ _ _ H2) as (J1 & _ & J3 & _). auto.
      - destruct H2 as [-> _]. split; reflexivity. }
    destruct S as (S1 & S2).
    unfold commands, listings, parsed in *.
    rewrite !flat_map_app, A1, A2, A3, D1, D2, D3, B1, B2, B3.
    repeat split; auto. right. exists ls, rc, (tr1 ++ tr2)%list.
    rewrite !flat_map_app, I1, I3, S1, S2. repeat split; auto.
Qed.

(** X12.  In a call without a file name, when the listing process ends
    with a status that is not zero the call ends with its
    [CalledProcessError]: the listing is the only process started, the
    wildcard copy is not, and nothing is parsed. *)
Theorem read_from_bucket_listing_fails
  (folder : string) (bucket_id : option string) (lazy stack : bool)
  tr r cmd (status : Z) out :
  exec (read_from_bucket None (Some folder) bucket_id lazy stack) tr r ->
  In (io_subprocess cmd status out) tr ->
  status <> 0%Z ->
  r = Err (CalledProcessError status cmd) /\
  commands tr = [cmd] /\ parsed tr = [].
Proof.
  intros H HIn Hs. apply folder_mode_shape in H.
  destruct H as [(C & _) | H].
  { apply in_commands in HIn. rewrite C in HIn. destruct HIn. }
  destruct H as (before & v & v' & st & o & after & H). cbv zeta in H.
  destruct H as (-> & C & _ & P & _ & _ & H).
  assert (E : after = [] /\
              exists e, captured_listing
                          ("gsutil ls " ++ Py.fmt v' ++ "/" ++ folder) st o = Err e
                        /\ r = Err e /\
              io_subprocess cmd status out =
              io_subprocess ("gsutil ls " ++ Py.fmt v' ++ "/" ++ folder) st o).
  { apply in_app_or in HIn. destruct HIn as [HIn | [HIn | HIn]].
    - apply in_commands in HIn. rewrite C in HIn. destruct HIn.
    - inversion HIn; subst.
      destruct H as [(-> & e & E & ->) | (ls & rc & rest & E & _)].
      + split; [reflexivity |]. exists e. auto.
      + apply captured_listing_ok in E. destruct E as (_ & E & _). contradiction.
    - destruct H as [(-> & _) | (ls & rc & rest & _ & -> & Cr & _)];
        [destruct HIn |].
      destruct HIn as [HIn | HIn]; [discriminate HIn |].
      apply in_commands in HIn. rewrite Cr in HIn. destruct HIn. }
  destruct E as (-> & e & E1 & -> & E2). inversion E2; subst; clear E2.
  unfold captured_listing in E1.
  destruct (Z.eqb_spec st 0); [contradiction |]. inversion E1; subst.
  unfold commands, parsed in *. rewrite !flat_map_app, C, P. repeat split.
Qed.

Lemma read_from_bucket_listing_fails_witness :
  exec (read_from_bucket None (Some "x") (Some "gs://b") true true)
       [io_isdir "bucket_io/x" true;
        io_subprocess "gsutil ls gs://b/x" 1 ""]
       (Err (CalledProcessError 1 "gsutil ls gs://b/x")).
Proof.
  assert (H : exists r,
    exec (read_from_bucket None (Some "x") (Some "gs://b") true true)
      [io_isdir "bucket_io/x" true;
       io_subprocess "gsutil ls gs://b/x" 1 ""] r).
  { eexists. answer true. answer (1%Z, ""). finish. }
  destruct H as [r H].
  assert (N : 1%Z <> 0%Z) by discriminate.
  destruct (@read_from_bucket_listing_fails _ _ _ _ _ _ _ _ _
              H (or_intror (or_introl eq_refl)) N) as (E & _).
  subst r. exact H.
Defined.

Lemma listings_app_cons before i after :
  listings (before ++ i :: after) =
  (listings before ++ listings [i] ++ listings after)%list.
Proof.
  unfold listings. rewrite flat_map_app. simpl. rewrite app_nil_r. reflexivity.
Qed.

(** X13.  A call without a file name whose listing succeeds starts
    exactly two processes, whatever the number of listed paths: the
    listing of [<bucket>/<folder>] and one copy of
    [<bucket>/<folder>/*.csv] into [bucket_io/<folder>]. *)
Theorem read_from_bucket_folder_commands
  (folder : string) (bucket_id : option string) (lazy stack : bool)
  tr r (b : string) ls :
  exec (read_from_bucket None (Some folder) bucket_id lazy stack) tr r ->
  resolved_bucket bucket_id tr = Some b ->
  listings tr = [ls] ->
  commands tr =
  ["gsutil ls " ++ b ++ "/" ++ folder;
   "gcloud storage cp '" ++ b ++ "/" ++ folder ++ "/*.csv' 'bucket_io/" ++
   folder ++ "'"].
Proof.
  intros H Hb L. apply folder_mode_shape in H.
  destruct H as [(_ & L' & _) | H]; [rewrite L' in L; discriminate L |].
  destruct H as (before & v & v' & st & o & after & H). cbv zeta in H.
  destruct H as (-> & C & Lb & _ & Ev & Hv & H).
  rewrite Hb in Ev. subst v. rewrite (Hv b eq_refl) in *. simpl in *.
  rewrite listings_app_cons, Lb, listings_subprocess in L.
  destruct H as [(-> & e & E & _) | (ls' & rc & rest & E & -> & Cr & _)].
  - rewrite E in L. discriminate L.
  - unfold commands in *. rewrite flat_map_app, C. simpl. rewrite Cr.
    reflexivity.
Qed.

Lemma read_from_bucket_folder_commands_witness :
  let out := "gs://b/x/a.csv" ++ String newline
               ("gs://b/x/b.csv" ++ String newline
                  ("gs://b/x/c.csv" ++ String newline "")) in
  let tr := [io_getenv WORKSPACE_BUCKET (Some "gs://b");
             io_isdir "bucket_io/x" true;
             io_subprocess "gsutil ls gs://b/x" 0 out;
             io_system "gcloud storage cp 'gs://b/x/*.csv' 'bucket_io/x'" 0;
             io_scan_csv "bucket_io/x/a.csv" false (Ok (mkLazyFrame "bucket_io/x/a.csv"));
             io_scan_csv "bucket_io/x/b.csv" false (Ok (mkLazyFrame "bucket_io/x/b.csv"));
             io_scan_csv "bucket_io/x/c.csv" false (Ok (mkLazyFrame "bucket_io/x/c.csv"))] in
  (exists r, exec (read_from_bucket None (Some "x") None true false) tr r) /\
  commands tr = ["gsutil ls gs://b/x";
                 "gcloud storage cp 'gs://b/x/*.csv' 'bucket_io/x'"].
Proof.
  cbv zeta.
  assert (H : exists r,
    exec (read_from_bucket None (Some "x") None true false)
      [io_getenv WORKSPACE_BUCKET (Some "gs://b");
       io_isdir "bucket_io/x" true;
       io_subprocess "gsutil ls gs://b/x" 0
         ("gs://b/x/a.csv" ++ String newline
            ("gs://b/x/b.csv" ++ String newline
               ("gs://b/x/c.csv" ++ String newline "")));
       io_system "gcloud storage cp 'gs://b/x/*.csv' 'bucket_io/x'" 0;
       io_scan_csv "bucket_io/x/a.csv" false (Ok (mkLazyFrame "bucket_io/x/a.csv"));
       io_scan_csv "bucket_io/x/b.csv" false (Ok (mkLazyFrame "bucket_io/x/b.csv"));
       io_scan_csv "bucket_io/x/c.csv" false (Ok (mkLazyFrame "bucket_io/x/c.csv"))]
      r).
  { eexists. answer (Some "gs://b"). answer true.
    answer (0%Z, "gs://b/x/a.csv" ++ String newline
                   ("gs://b/x/b.csv" ++ String newline
                      ("gs://b/x/c.csv" ++ String newline ""))).
    answer 0%Z.
    answer (Ok (mkLazyFrame "bucket_io/x/a.csv")).
    answer (Ok (mkLazyFrame "bucket_io/x/b.csv")).
    answer (Ok (mkLazyFrame "bucket_io/x/c.csv")). finish. }
  split; [exact H |]. destruct H as [r H].
  exact (@read_from_bucket_folder_commands _ _ _ _ _ _ "gs://b" _ H eq_refl eq_refl).
Defined.

Lemma parse_targets_eager bucket_id file_targets :
  forall dfs tr r,
    exec (parse_targets bucket_id false file_targets dfs) tr r ->
    scanned tr = [].
Proof.
  induction file_targets as [| f rest IH]; intros dfs tr r H.
  - exec_end H. reflexivity.
  - cbn [parse_targets] in H. apply exec_bind_inv in H.
    destruct H as [(e & H & ->) | (d & tr1 & tr2 & H1 & H2 & ->)].
    + apply parse_target_exec in H.
      destruct H as [(_ & -> & _) | (b & _ & res & -> & _)]; reflexivity.
    + apply parse_target_exec in H1.
      unfold scanned. rewrite flat_map_app. fold (scanned tr2).
      rewrite (IH _ _ _ H2).
      destruct H1 as [(_ & -> & _) | (b & _ & res & -> & _)]; reflexivity.
Qed.

(** X14.  In a call without a file name whose listing succeeded: with
    [stack=False] no frame is ever collected, so the lazy frames returned
    are untouched plans; with [lazy=False] nothing is scanned or
    collected; and a collect is made only after every listed path has
    been scanned with success. *)
Theorem read_from_bucket_collects_late
  (folder : string) (bucket_id : option string) (lazy stack : bool) tr r ls :
  exec (read_from_bucket None (Some folder) bucket_id lazy stack) tr r ->
  listings tr = [ls] ->
  (stack = false -> collected tr = []) /\
  (lazy = false -> scanned tr = [] /\ collected tr = []) /\
  (collected tr <> [] -> length (scanned tr) = length ls).
Proof.
  intros H L. apply folder_mode_exec in H.
  destruct H as [(L' & _) | (ls' & tr1 & tr2 & rp & L' & _ & S & _ & C & H1 & H2)].
  { rewrite L' in L. discriminate L. }
  rewrite L' in L. inversion L; subst ls'; clear L L'.
  rewrite C, S, (parse_targets_collected _ _ _ _ _ _ H1). simpl.
  destruct (parse_targets_exec _ _ _ _ _ _ H1) as (_ & _ & _ & _ & _ & I6).
  destruct rp as [dfs | e].
  - destruct (stack_frames_exec _ _ _ _ _ H2) as (_ & _ & _ & _ & _ & K).
    destruct I6 as (_ & I7 & _).
    repeat split.
    + intros ->. destruct K as [-> _]. reflexivity.
    + subst lazy. eapply parse_targets_eager. exact H1.
    + subst lazy. destruct stack; destruct K as [-> _]; reflexivity.
    + intros NE. destruct lazy.
      * unfold frames_of in I7. rewrite length_map in I7. exact I7.
      * destruct stack; destruct K as [-> _]; exfalso; apply NE; reflexivity.
  - destruct H2 as [-> _]. simpl. repeat split; try congruence.
    subst lazy. eapply parse_targets_eager. exact H1.
Qed.

Lemma read_from_bucket_collects_late_witness :
  let out := "gs://b/x/a.csv" ++ String newline "" in
  let lf := mkLazyFrame "bucket_io/x/a.csv" in
  let d := mkDataFrame ["id"] [["1"]] in
  let tr := [io_isdir "bucket_io/x" true;
             io_subprocess "gsutil ls gs://b/x" 0 out;
             io_system "gcloud storage cp 'gs://b/x/*.csv' 'bucket_io/x'" 0;
             io_scan_csv "bucket_io/x/a.csv" false (Ok lf);
             io_collect lf (Ok d)] in
  exec (read_from_bucket None (Some "x") (Some "gs://b") true true) tr
       (Ok (Frame (Eager d))) /\
  length (scanned tr) = length ["gs://b/x/a.csv"].
Proof.
  cbv zeta.
  assert (H : exec (read_from_bucket None (Some "x") (Some "gs://b") true true)
    [io_isdir "bucket_io/x" true;
     io_subprocess "gsutil ls gs://b/x" 0 ("gs://b/x/a.csv" ++ String newline "");
     io_system "gcloud storage cp 'gs://b/x/*.csv' 'bucket_io/x'" 0;
     io_scan_csv "bucket_io/x/a.csv" false (Ok (mkLazyFrame "bucket_io/x/a.csv"));
     io_collect (mkLazyFrame "bucket_io/x/a.csv") (Ok (mkDataFrame ["id"] [["1"]]))]
    (Ok (Frame (Eager (mkDataFrame ["id"] [["1"]]))))).
  { answer true. answer (0%Z, "gs://b/x/a.csv" ++ String newline "").
    answer 0%Z. answer (Ok (mkLazyFrame "bucket_io/x/a.csv")).
    answer (Ok (mkDataFrame ["id"] [["1"]])). finish. }
  split; [exact H |].
  apply (proj2 (proj2 (@read_from_bucket_collects_late _ _ _ _ _ _ _ H eq_refl))).
  discriminate.
Defined.

(** X15.  With [return_list=True] and status zero, an output that is not
    well-formed UTF-8 makes [ls_bucket] end with [UnicodeDecodeError]:
    no part of the listing is returned. *)
Theorem ls_bucket_rejects_bad_bytes
  (target bucket_id : option string) tr r cmd out :
  exec (ls_bucket target bucket_id true) tr r ->
  In (io_subprocess cmd 0 out) tr ->
  Py.utf8_valid out = false ->
  r = Err UnicodeDecodeError.
Proof.
  intros H HIn Hv.
  rewrite (@ls_bucket_captured _ _ _ _ _ _ _ H HIn).
  unfold captured_listing, Py.decode_utf8. simpl. rewrite Hv. reflexivity.
Qed.

Lemma ls_bucket_rejects_bad_bytes_witness :
  let out := "gs://b/" ++ String (ascii_of_nat 255) (String newline "") in
  Py.utf8_valid out = false /\
  exec (ls_bucket None (Some "gs://b") true)
       [io_subprocess "gsutil ls gs://b" 0 out] (Err UnicodeDecodeError).
Proof.
  cbv zeta. split; [reflexivity |].
  assert (H : exists r,
    exec (ls_bucket None (Some "gs://b") true)
      [io_subprocess "gsutil ls gs://b" 0
         ("gs://b/" ++ String (ascii_of_nat 255) (String newline ""))] r).
  { eexists.
    answer (0%Z, "gs://b/" ++ String (ascii_of_nat 255) (String newline "")).
    finish. }
  destruct H as [r H].
  rewrite <- (@ls_bucket_rejects_bad_bytes _ _ _ _ _ _ H (or_introl eq_refl)
                eq_refl).
  exact H.
Defined.


(** ** Folders, when the reader answers every call *)

Lemma reader_errors_app a b :
  reader_errors (a ++ b) = (reader_errors a ++ reader_errors b)%list.
Proof. unfold reader_errors. apply flat_map_app. Qed.

Lemma parse_targets_no_errors b lazy file_targets :
  forall dfs tr r,
    exec (parse_targets (Some b) lazy file_targets dfs) tr r ->
    reader_errors tr = [] ->
    exists out, r = Ok out.
Proof.
  induction file_targets as [| f rest IH]; intros dfs tr r H E.
  - exec_end H. eauto.
  - cbn [parse_targets] in H. apply exec_bind_inv in H.
    destruct H as [(e & H & ->) | (d & tr1 & tr2 & H1 & H2 & ->)].
    + apply parse_target_exec in H.
      destruct H as [(Eb & _) | (b' & _ & H)]; [discriminate Eb |].
      destruct lazy; destruct H as (res & -> & Er);
        destruct res; try discriminate Er; discriminate E.
    + rewrite reader_errors_app in E. apply app_eq_nil in E.
      destruct E as [_ E]. eapply IH; eassumption.
Qed.

Lemma collect_all_no_errors lfs :
  forall tr r,
    exec (comprehension collect (map Lazy lfs)) tr r ->
    reader_errors tr = [] ->
    exists out, r = Ok out.
Proof.
  induction lfs as [| lf rest IH]; intros tr r H E.
  - exec_end H. eauto.
  - cbn [map comprehension] in H. apply exec_bind_inv in H.
    destruct H as [(e & H & ->) | (d & tr1 & tr2 & H1 & H2 & ->)].
    + exec_step H. destruct x; exec_end H. discriminate E.
    + rewrite reader_errors_app in E. apply app_eq_nil in E.
      destruct E as [_ E]. apply exec_bind_inv in H2.
      destruct H2 as [(e & H & ->) | (ys & tr3 & tr4 & H3 & H4 & ->)].
      * destruct (IH _ _ H E) as [out Eo]. discriminate Eo.
      * exec_end H4. eauto.
Qed.

Lemma stack_lazy_no_errors lfs tr r :
  exec (stack_frames (map Lazy lfs) true true) tr r ->
  reader_errors tr = [] ->
  length (materialized tr) = length lfs /\ collected tr = lfs /\
  vstack_all (map Eager (materialized tr)) = lift r.
Proof.
  unfold stack_frames. simpl. intros H E. apply exec_bind_inv in H.
  destruct H as [(e & H & ->) | (c & tr1 & tr2 & H1 & H2 & ->)].
  - destruct (collect_all_no_errors _ _ _ H E) as [out Eo]. discriminate Eo.
  - apply vstack_all_exec in H2. destruct H2 as [-> Ev]. rewrite app_nil_r.
    destruct (collect_all_exec _ _ _ H1) as (_ & _ & _ & _ & _ & I6 & I7).
    rewrite length_map in I7. split; [exact I7 |]. split.
    + apply map_Lazy_inj. eapply collect_all_collected. exact H1.
    + subst c. exact Ev.
Qed.

(** The trace of a call without a file name whose listing succeeded:
    what comes before the parses, the parses, and what stacking adds. *)
Lemma folder_mode_parts folder bucket_id lazy stack tr r :
  exec (read_from_bucket None (Some folder) bucket_id lazy stack) tr r ->
  (listings tr = [] /\ exists e, r = Err e) \/
  (exists before ls tr1 tr2 rp,
      tr = (before ++ tr1 ++ tr2)%list /\
      listings tr = [ls] /\
      parsed before = [] /\ scanned before = [] /\ materialized before = [] /\
      collected before = [] /\ reader_errors before = [] /\
      reader_calls before = [] /\
      exec (parse_targets (resolved_bucket bucket_id tr) lazy ls []) tr1 rp /\
      match rp with
      | Ok dfs => exec (stack_frames dfs lazy stack) tr2 r
      | Err e => tr2 = [] /\ r = Err e
      end).
Proof.
  intros H. apply read_from_bucket_shape in H.
  destruct H as [(-> & msg & ->) | (v & tr0 & trd & post & rd & -> & H0 & Hd & H)].
  { left. split; [reflexivity | eauto]. }
  apply default_bucket_exec in H0. destruct H0 as (v0 & E & Hv).
  inversion E; subst v0; clear E.
  assert (P0 : listings tr0 = [] /\ parsed tr0 = [] /\ scanned tr0 = [] /\
               materialized tr0 = [] /\ collected tr0 = [] /\
               reader_errors tr0 = [] /\ reader_calls tr0 = [] /\
               forall rest, resolved_bucket bucket_id (tr0 ++ rest) = v).
  { destruct Hv as [(b & -> & -> & ->) | (-> & ->)]; repeat split. }
  destruct P0 as (A1 & A2 & A3 & A4 & A5 & A6 & A8 & A7).
  apply ensure_staging_dir_exec in Hd.
  assert (Pd : listings trd = [] /\ parsed trd = [] /\ scanned trd = [] /\
               materialized trd = [] /\ collected trd = [] /\
               reader_errors trd = [] /\ reader_calls trd = []).
  { destruct Hd as [(-> & _) | [(p & -> & _) | (p & res & -> & _)]];
      repeat split. }
  destruct Pd as (D1 & D2 & D3 & D4 & D5 & D6 & D7).
  destruct rd as [u | e].
  2:{ destruct H as [-> ->]. left. rewrite app_nil_r.
      unfold listings in *. rewrite flat_map_app, A1, D1. split; eauto. }
  apply read_folder_shape in H.
  destruct H as (pre & v' & status & out & Hpre & H). cbv zeta in H.
  assert (Pp : listings pre = [] /\ parsed pre = [] /\ scanned pre = [] /\
               materialized pre = [] /\ collected pre = [] /\
               reader_errors pre = [] /\ reader_calls pre = []).
  { destruct Hpre as [(b & _ & _ & ->) | (_ & ->)]; repeat split. }
  destruct Pp as (B1 & B2 & B3 & B4 & B5 & B6 & B7).
  pose proof (listings_subprocess
                ("gsutil ls " ++ Py.fmt v' ++ "/" ++ folder) status out) as L.
  destruct H as [(-> & e & E & ->) | (ls & rc & tr1 & tr2 & rp & E & -> & H1 & H2)].
  - left. rewrite E in L. unfold listings in *.
    rewrite !flat_map_app, A1, D1, B1, L. split; eauto.
  - right. rewrite E in L.
    exists (tr0 ++ trd ++ pre ++
            [io_subprocess ("gsutil ls " ++ Py.fmt v' ++ "/" ++ folder) status out;
             io_system ("gcloud storage cp '" ++ Py.fmt v ++ "/" ++ folder ++
                        "/*.csv' 'bucket_io/" ++ folder ++ "'") rc])%list,
           ls, tr1, tr2, rp.
    destruct (parse_targets_exec _ _ _ _ _ _ H1) as (I1 & _).
    assert (S1 : listings tr2 = []).
    { destruct rp as [dfs | e].
      - destruct (stack_frames_exec _ _ _ _ _ H2) as (J1 & _). exact J1.
      - destruct H2 as [-> _]. reflexivity. }
    rewrite A7.
    split; [rewrite <- !app_assoc; reflexivity |].
    split.
    { change [io_subprocess ("gsutil ls " ++ Py.fmt v' ++ "/" ++ folder) status out;
              io_system ("gcloud storage cp '" ++ Py.fmt v ++ "/" ++ folder ++
                         "/*.csv' 'bucket_io/" ++ folder ++ "'") rc]
        with ([io_subprocess ("gsutil ls " ++ Py.fmt v' ++ "/" ++ folder) status out]
              ++ [io_system ("gcloud storage cp '" ++ Py.fmt v ++ "/" ++ folder ++
                             "/*.csv' 'bucket_io/" ++ folder ++ "'") rc])%list.
      unfold listings in *.
      rewrite !flat_map_app, A1, D1, B1, L, I1, S1. reflexivity. }
    unfold reader_calls in *. rewrite !filter_app, A8, D7, B7.
    unfold parsed, scanned, materialized, collected, reader_errors in *.
    rewrite !flat_map_app, A2, A3, A4, A5, A6, D2, D3, D4, D5, D6,
      B2, B3, B4, B5, B6.
    repeat split; assumption.
Qed.

Lemma reader_calls_app a b :
  reader_calls (a ++ b) = (reader_calls a ++ reader_calls b)%list.
Proof. unfold reader_calls. apply filter_app. Qed.

Lemma reader_calls_scans paths lfs :
  reader_calls (scans_of paths lfs) = scans_of paths lfs.
Proof.
  unfold scans_of. induction (combine paths lfs) as [| x xs IH];
    [reflexivity | simpl; f_equal; exact IH].
Qed.

Lemma reader_calls_reads paths dfs :
  reader_calls (reads_of paths dfs) = reads_of paths dfs.
Proof.
  unfold reads_of. induction (combine paths dfs) as [| x xs IH];
    [reflexivity | simpl; f_equal; exact IH].
Qed.

Lemma reader_calls_collects lfs dfs :
  reader_calls (collects_of lfs dfs) = collects_of lfs dfs.
Proof.
  unfold collects_of. induction (combine lfs dfs) as [| x xs IH];
    [reflexivity | simpl; f_equal; exact IH].
Qed.

(** A loop that goes through is made of one reader call per target. *)
Lemma parse_targets_calls b lazy file_targets :
  forall dfs tr out,
    exec (parse_targets (Some b) lazy file_targets dfs) tr (Ok out) ->
    let paths := map (fun f => Py.replace f b "bucket_io") file_targets in
    tr = if lazy then scans_of paths (scanned tr)
         else reads_of paths (materialized tr).
Proof.
  induction file_targets as [| f rest IH]; intros dfs tr out H.
  - exec_end H. destruct lazy; reflexivity.
  - cbn [parse_targets] in H. apply exec_bind_inv in H.
    destruct H as [(e & _ & E) | (d & tr1 & tr2 & H1 & H2 & ->)];
      [discriminate E |].
    apply parse_target_exec in H1.
    destruct H1 as [(E & _) | (b' & E & H1)]; [discriminate E |].
    inversion E; subst b'; clear E.
    specialize (IH _ _ _ H2). cbv zeta in IH. cbv zeta.
    destruct lazy; destruct H1 as (res & -> & E);
      destruct res as [v | e]; try discriminate E;
      unfold scans_of, reads_of in *; simpl; f_equal; exact IH.
Qed.

Lemma collect_all_calls lfs :
  forall tr out,
    exec (comprehension collect (map Lazy lfs)) tr (Ok out) ->
    tr = collects_of lfs (materialized tr).
Proof.
  induction lfs as [| lf rest IH]; intros tr out H.
  - exec_end H. reflexivity.
  - cbn [map comprehension] in H. apply exec_bind_inv in H.
    destruct H as [(e & _ & E) | (d & tr1 & tr2 & H1 & H2 & ->)];
      [discriminate E |].
    exec_step H1. destruct x as [df | e]; exec_end H1.
    apply exec_bind_inv in H2.
    destruct H2 as [(e & _ & E) | (ys & tr3 & tr4 & H3 & H4 & ->)];
      [discriminate E |].
    exec_end H4. rewrite app_nil_r. specialize (IH _ _ H3).
    unfold collects_of in *. simpl. f_equal. exact IH.
Qed.

Lemma stack_lazy_calls lfs tr r :
  exec (stack_frames (map Lazy lfs) true true) tr r ->
  reader_errors tr = [] ->
  tr = collects_of lfs (materialized tr).
Proof.
  unfold stack_frames. simpl. intros H E. apply exec_bind_inv in H.
  destruct H as [(e & H & ->) | (c & tr1 & tr2 & H1 & H2 & ->)].
  - destruct (collect_all_no_errors _ _ _ H E) as [out Eo]. discriminate Eo.
  - apply vstack_all_exec in H2. destruct H2 as [-> _]. rewrite app_nil_r.
    eapply collect_all_calls. exact H1.
Qed.

Lemma lift_ret (X : Type) (r : result X) v : Ret v = lift r -> r = Ok v.
Proof. destruct r; simpl; intros E; inversion E; reflexivity. Qed.

(** C4, amended.  A call without a file name whose bucket is a string,
    whose listing
    succeeded with the non-empty list [ls], and to which the CSV reader
    never answered an error: every listed object was given to the reader
    once, in listing order, under its local path, and each answered one
    frame.  Without [stack] the call returns these frames, lazy or eager
    as [lazy] says, in that order.  With [stack] every lazy frame was
    collected, in order, after all the scans, and the result is the
    [reduce] of [vstack] over the eager frames in listing order: when they
    have the same columns, one frame holding their rows in that order,
    whose height is the sum of their heights. *)
Theorem read_from_bucket_folder_result
  (folder : string) (bucket_id : option string) (lazy stack : bool)
  tr r (b : string) ls :
  exec (read_from_bucket None (Some folder) bucket_id lazy stack) tr r ->
  resolved_bucket bucket_id tr = Some b ->
  listings tr = [ls] ->
  ls <> [] ->
  reader_errors tr = [] ->
  let paths := map (fun f => Py.replace f b "bucket_io") ls in
  length (frames_of lazy tr) = length ls /\
  reader_calls tr =
    ((if lazy then scans_of paths (scanned tr)
      else reads_of paths (materialized tr)) ++
     (if stack && lazy then collects_of (scanned tr) (materialized tr)
      else []))%list /\
  (stack = false -> r = Ok (Frames (frames_of lazy tr))) /\
  (stack = true ->
     length (materialized tr) = length ls /\
     vstack_all (map Eager (materialized tr)) = lift r /\
     forall cols, Forall (fun d => columns d = cols) (materialized tr) ->
       r = Ok (Frame (Eager (mkDataFrame cols
                               (concat (map rows (materialized tr)))))) /\
       height (mkDataFrame cols (concat (map rows (materialized tr)))) =
       list_sum (map height (materialized tr))).
Proof.
  intros H Hb Hl Hne He paths.
  apply folder_mode_parts in H.
  destruct H as [(L & _) |
                 (before & ls' & tr1 & tr2 & rp & -> & L & P1 & P2 & P3 & P4 &
                  P5 & P6 & H1 & H2)].
  { rewrite L in Hl. discriminate Hl. }
  rewrite L in Hl. inversion Hl; subst ls'; clear Hl L.
  rewrite Hb in H1.
  rewrite !reader_errors_app in He. apply app_eq_nil in He.
  destruct He as [_ He]. apply app_eq_nil in He. destruct He as [E1 E2].
  pose proof H1 as N. eapply parse_targets_no_errors in N; [| exact E1].
  destruct N as [out ->].
  pose proof H1 as I. apply parse_targets_exec in I.
  destruct I as (_ & _ & _ & I4 & _ & I6 & I7 & _). simpl in I6.
  pose proof H1 as C. apply parse_targets_calls in C. cbv zeta in C.
  fold paths in C.
  pose proof H2 as J. apply stack_frames_exec in J.
  destruct J as (_ & _ & _ & _ & J5 & J6).
  assert (Sc : scanned (before ++ tr1 ++ tr2) = scanned tr1).
  { unfold scanned in *. rewrite !flat_map_app, P2, J5, app_nil_r.
    reflexivity. }
  assert (Ma : materialized (before ++ tr1 ++ tr2) =
               (materialized tr1 ++ materialized tr2)%list).
  { unfold materialized in *. rewrite !flat_map_app, P3. reflexivity. }
  assert (Rc : reader_calls (before ++ tr1 ++ tr2) =
               (reader_calls tr1 ++ reader_calls tr2)%list).
  { rewrite !reader_calls_app, P6. reflexivity. }
  assert (V : forall ds, length ds = length ls ->
                vstack_all (map Eager ds) = lift r ->
                forall cols, Forall (fun d => columns d = cols) ds ->
                  r = Ok (Frame (Eager (mkDataFrame cols
                                          (concat (map rows ds))))) /\
                  height (mkDataFrame cols (concat (map rows ds))) =
                  list_sum (map height ds)).
  { intros ds El Ev cols F. split; [| apply height_concat].
    destruct ds as [| d ds'].
    - destruct ls; [contradiction Hne; reflexivity | discriminate El].
    - rewrite (vstack_all_same_columns F) in Ev. apply lift_ret. exact Ev. }
  unfold frames_of in *. rewrite Sc, Ma, Rc.
  destruct stack, lazy; simpl in J6 |- *.
  - (* lazy frames, stacked *)
    subst out. rewrite (I4 eq_refl). simpl.
    rewrite length_map in I7.
    pose proof H2 as K. apply stack_lazy_no_errors in K; [| exact E2].
    destruct K as (K1 & K2 & K3).
    pose proof H2 as Kc. apply stack_lazy_calls in Kc; [| exact E2].
    split; [rewrite length_map; exact I7 |].
    split.
    { rewrite C at 1. rewrite Kc at 1.
      rewrite reader_calls_scans, reader_calls_collects. reflexivity. }
    split; [intros D; discriminate D |].
    intros _. split; [lia |]. split; [exact K3 |].
    apply V; [lia | exact K3].
  - (* eager frames, stacked *)
    destruct J6 as [-> Ev]. subst out. rewrite !app_nil_r.
    rewrite length_map in I7.
    split; [rewrite length_map; exact I7 |].
    split; [rewrite C at 1; apply reader_calls_reads |].
    split; [intros D; discriminate D |].
    intros _. split; [exact I7 |]. split; [exact Ev |].
    apply V; [exact I7 | exact Ev].
  - (* lazy frames, as they are *)
    destruct J6 as [-> ->]. subst out. rewrite !app_nil_r.
    split; [exact I7 |].
    split; [rewrite C at 1; apply reader_calls_scans |].
    split; [reflexivity |]. intros D; discriminate D.
  - (* eager frames, as they are *)
    destruct J6 as [-> ->]. subst out. rewrite !app_nil_r.
    split; [exact I7 |].
    split; [rewrite C at 1; apply reader_calls_reads |].
    split; [reflexivity |]. intros D; discriminate D.
Qed.

Lemma read_from_bucket_folder_result_witness :
  let out := "gs://b/x/a.csv" ++ String newline
               ("gs://b/x/b.csv" ++ String newline "") in
  let d1 := mkDataFrame ["id"] [["1"]] in
  let d2 := mkDataFrame ["id"] [["2"]; ["3"]] in
  let l1 := mkLazyFrame "bucket_io/x/a.csv" in
  let l2 := mkLazyFrame "bucket_io/x/b.csv" in
  let head := [io_isdir "bucket_io/x" true;
               io_subprocess "gsutil ls gs://b/x" 0 out;
               io_system "gcloud storage cp 'gs://b/x/*.csv' 'bucket_io/x'" 0] in
  let reads := [io_read_csv "bucket_io/x/a.csv" false (Ok d1);
                io_read_csv "bucket_io/x/b.csv" false (Ok d2)] in
  let scans := [io_scan_csv "bucket_io/x/a.csv" false (Ok l1);
                io_scan_csv "bucket_io/x/b.csv" false (Ok l2)] in
  let collects := [io_collect l1 (Ok d1); io_collect l2 (Ok d2)] in
  let env := io_getenv WORKSPACE_BUCKET (Some "gs://b") in
  let one := mkDataFrame ["id"] [["1"]; ["2"]; ["3"]] in
  (exec (read_from_bucket None (Some "x") (Some "gs://b") false true)
        (head ++ reads) (Ok (Frame (Eager one))) /\
   reader_calls (head ++ reads) = reads /\
   height one = list_sum [1; 2]) /\
  (exec (read_from_bucket None (Some "x") None true true)
        (env :: head ++ scans ++ collects) (Ok (Frame (Eager one))) /\
   reader_calls (env :: head ++ scans ++ collects) = (scans ++ collects)%list /\
   height one = list_sum [1; 2]) /\
  (exec (read_from_bucket None (Some "x") (Some "gs://b") false false)
        (head ++ reads) (Ok (Frames [Eager d1; Eager d2])) /\
   reader_calls (head ++ reads) = reads /\
   length (frames_of false (head ++ reads)) = 2) /\
  (exec (read_from_bucket None (Some "x") None true false)
        (env :: head ++ scans) (Ok (Frames [Lazy l1; Lazy l2])) /\
   reader_calls (env :: head ++ scans) = scans /\
   length (frames_of true (env :: head ++ scans)) = 2).
Proof.
  cbv zeta.
  assert (N : ["gs://b/x/a.csv"; "gs://b/x/b.csv"] <> []) by discriminate.
  assert (F : Forall (fun d => columns d = ["id"])
                [mkDataFrame ["id"] [["1"]]; mkDataFrame ["id"] [["2"]; ["3"]]])
    by (repeat constructor).
  split; [| split; [| split]].
  - assert (H : exec (read_from_bucket None (Some "x") (Some "gs://b") false true)
      ([io_isdir "bucket_io/x" true;
        io_subprocess "gsutil ls gs://b/x" 0
          ("gs://b/x/a.csv" ++ String newline
             ("gs://b/x/b.csv" ++ String newline ""));
        io_system "gcloud storage cp 'gs://b/x/*.csv' 'bucket_io/x'" 0] ++
       [io_read_csv "bucket_io/x/a.csv" false (Ok (mkDataFrame ["id"] [["1"]]));
        io_read_csv "bucket_io/x/b.csv" false
          (Ok (mkDataFrame ["id"] [["2"]; ["3"]]))])
      (Ok (Frame (Eager (mkDataFrame ["id"] [["1"]; ["2"]; ["3"]]))))).
    { answer true.
      answer (0%Z, "gs://b/x/a.csv" ++ String newline
                     ("gs://b/x/b.csv" ++ String newline "")).
      answer 0%Z.
      answer (Ok (mkDataFrame ["id"] [["1"]])).
      answer (Ok (mkDataFrame ["id"] [["2"]; ["3"]])). finish. }
    split; [exact H |].
    pose proof (@read_from_bucket_folder_result
                  _ _ _ _ _ _ "gs://b" _ H eq_refl eq_refl N eq_refl) as T.
    cbv zeta in T. destruct T as (_ & T2 & _ & T4).
    split; [exact T2 |].
    destruct (T4 eq_refl) as (_ & _ & U). destruct (U ["id"] F) as [_ V].
    exact V.
  - assert (H : exec (read_from_bucket None (Some "x") None true true)
      (io_getenv WORKSPACE_BUCKET (Some "gs://b") ::
       [io_isdir "bucket_io/x" true;
        io_subprocess "gsutil ls gs://b/x" 0
          ("gs://b/x/a.csv" ++ String newline
             ("gs://b/x/b.csv" ++ String newline ""));
        io_system "gcloud storage cp 'gs://b/x/*.csv' 'bucket_io/x'" 0] ++
       [io_scan_csv "bucket_io/x/a.csv" false
          (Ok (mkLazyFrame "bucket_io/x/a.csv"));
        io_scan_csv "bucket_io/x/b.csv" false
          (Ok (mkLazyFrame "bucket_io/x/b.csv"))] ++
       [io_collect (mkLazyFrame "bucket_io/x/a.csv")
          (Ok (mkDataFrame ["id"] [["1"]]));
        io_collect (mkLazyFrame "bucket_io/x/b.csv")
          (Ok (mkDataFrame ["id"] [["2"]; ["3"]]))])
      (Ok (Frame (Eager (mkDataFrame ["id"] [["1"]; ["2"]; ["3"]]))))).
    { answer (Some "gs://b"). answer true.
      answer (0%Z, "gs://b/x/a.csv" ++ String newline
                     ("gs://b/x/b.csv" ++ String newline "")).
      answer 0%Z.
      answer (Ok (mkLazyFrame "bucket_io/x/a.csv")).
      answer (Ok (mkLazyFrame "bucket_io/x/b.csv")).
      answer (Ok (mkDataFrame ["id"] [["1"]])).
      answer (Ok (mkDataFrame ["id"] [["2"]; ["3"]])). finish. }
    split; [exact H |].
    pose proof (@read_from_bucket_folder_result
                  _ _ _ _ _ _ "gs://b" _ H eq_refl eq_refl N eq_refl) as T.
    cbv zeta in T. destruct T as (_ & T2 & _ & T4).
    split; [exact T2 |].
    destruct (T4 eq_refl) as (_ & _ & U). destruct (U ["id"] F) as [_ V].
    exact V.
  - assert (H : exec (read_from_bucket None (Some "x") (Some "gs://b") false false)
      ([io_isdir "bucket_io/x" true;
        io_subprocess "gsutil ls gs://b/x" 0
          ("gs://b/x/a.csv" ++ String newline
             ("gs://b/x/b.csv" ++ String newline ""));
        io_system "gcloud storage cp 'gs://b/x/*.csv' 'bucket_io/x'" 0] ++
       [io_read_csv "bucket_io/x/a.csv" false (Ok (mkDataFrame ["id"] [["1"]]));
        io_read_csv "bucket_io/x/b.csv" false
          (Ok (mkDataFrame ["id"] [["2"]; ["3"]]))])
      (Ok (Frames [Eager (mkDataFrame ["id"] [["1"]]);
                   Eager (mkDataFrame ["id"] [["2"]; ["3"]])]))).
    { answer true.
      answer (0%Z, "gs://b/x/a.csv" ++ String newline
                     ("gs://b/x/b.csv" ++ String newline "")).
      answer 0%Z.
      answer (Ok (mkDataFrame ["id"] [["1"]])).
      answer (Ok (mkDataFrame ["id"] [["2"]; ["3"]])). finish. }
    split; [exact H |].
    pose proof (@read_from_bucket_folder_result
                  _ _ _ _ _ _ "gs://b" _ H eq_refl eq_refl N eq_refl) as T.
    cbv zeta in T. destruct T as (T1 & T2 & _ & _).
    split; [exact T2 | exact T1].
  - assert (H : exec (read_from_bucket None (Some "x") None true false)
      (io_getenv WORKSPACE_BUCKET (Some "gs://b") ::
       [io_isdir "bucket_io/x" true;
        io_subprocess "gsutil ls gs://b/x" 0
          ("gs://b/x/a.csv" ++ String newline
             ("gs://b/x/b.csv" ++ String newline ""));
        io_system "gcloud storage cp 'gs://b/x/*.csv' 'bucket_io/x'" 0] ++
       [io_scan_csv "bucket_io/x/a.csv" false
          (Ok (mkLazyFrame "bucket_io/x/a.csv"));
        io_scan_csv "bucket_io/x/b.csv" false
          (Ok (mkLazyFrame "bucket_io/x/b.csv"))])
      (Ok (Frames [Lazy (mkLazyFrame "bucket_io/x/a.csv");
                   Lazy (mkLazyFrame "bucket_io/x/b.csv")]))).
    { answer (Some "gs://b"). answer true.
      answer (0%Z, "gs://b/x/a.csv" ++ String newline
                     ("gs://b/x/b.csv" ++ String newline "")).
      answer 0%Z.
      answer (Ok (mkLazyFrame "bucket_io/x/a.csv")).
      answer (Ok (mkLazyFrame "bucket_io/x/b.csv")). finish. }
    split; [exact H |].
    pose proof (@read_from_bucket_folder_result
                  _ _ _ _ _ _ "gs://b" _ H eq_refl eq_refl N eq_refl) as T.
    cbv zeta in T. destruct T as (T1 & T2 & _ & _).
    split; [exact T2 | exact T1].
Defined.

(** ** The default bucket, function by function *)

Lemma default_bucket_bind2_inv (A R : Type) (K : option string -> prog A)
  (G : A -> prog R) tr r :
  exec (bind (bind (default_bucket None) K) G) tr r ->
  exists v tr',
    tr = io_getenv WORKSPACE_BUCKET v :: tr' /\
    forall b, v = Some b ->
              exec (bind (bind (default_bucket (Some b)) K) G) tr' r.
Proof.
  intros H. apply bind_assoc in H. exec_step H. exists x, tr0.
  split; [reflexivity |]. intros b ->. apply bind_assoc. exact H.
Qed.

Lemma invoke_with_bucket_no_env op b tr r :
  exec (invoke op (Some b)) tr r -> env_reads tr = [].
Proof.
  intros H. destruct op as [p | f t | t rl | p | n fo l s | f t];
    unfold invoke in H; apply exec_bind_ret in H; destruct H as [r0 H].
  - exec_step H. exec_step H. exec_end H. reflexivity.
  - eapply copy_to_bucket_no_env. exact H.
  - destruct rl.
    + apply ls_bucket_exec in H.
      destruct H as (pre & v & status & out & -> & _ & Hpre).
      destruct Hpre as [(b' & _ & _ & ->) | (E & _)]; [reflexivity | discriminate E].
    + destruct t; exec_step H; exec_end H; reflexivity.
  - exec_step H. exec_end H. reflexivity.
  - eapply read_from_bucket_no_env. exact H.
  - unfold write_to_bucket, call in H. cbn [bind exec] in H.
    destruct H as (res & rest & -> & H).
    destruct res as [[] | e]; cbn [bind] in H; [| exec_end H; reflexivity].
    simpl. eapply copy_to_bucket_no_env. exact H.
Qed.

(** A call without a bucket either ends before the variable is read, and
    then does not depend on the bucket, or reads it once it has done what
    comes first; with the answer [Some b] the rest is the call with [b]. *)
Lemma invoke_default_inv op tr r :
  exec (invoke op None) tr r ->
  (env_reads tr = [] /\ commands tr = [] /\
   forall bucket_id, exec (invoke op bucket_id) tr r) \/
  (exists pre v tr',
      tr = (pre ++ io_getenv WORKSPACE_BUCKET v :: tr')%list /\
      env_reads pre = [] /\ commands pre = [] /\
      forall b, v = Some b -> exec (invoke op (Some b)) (pre ++ tr') r).
Proof.
  intros H. destruct op as [p | f t | t rl | p | n fo l s | f t];
    unfold invoke, copy_from_bucket, copy_to_bucket, ls_bucket,
      remove_from_bucket in *.
  - right. apply default_bucket_bind2_inv in H.
    destruct H as (v & tr' & -> & H). exists [], v, tr'. auto.
  - right. apply default_bucket_bind2_inv in H.
    destruct H as (v & tr' & -> & H). exists [], v, tr'. auto.
  - right. apply default_bucket_bind2_inv in H.
    destruct H as (v & tr' & -> & H). exists [], v, tr'. auto.
  - right. apply default_bucket_bind2_inv in H.
    destruct H as (v & tr' & -> & H). exists [], v, tr'. auto.
  - unfold read_from_bucket in *.
    destruct (Py.is_none n && Py.is_none fo).
    { left. exec_end H. repeat split. }
    destruct (match n with
              | Some name => negb (csv_extension name)
              | None => false
              end).
    { left. exec_end H. repeat split. }
    right. apply default_bucket_bind2_inv in H.
    destruct H as (v & tr' & -> & H). exists [], v, tr'. auto.
  - unfold write_to_bucket, call in *. cbn [bind exec] in H.
    destruct H as (res & tr' & -> & H).
    destruct res as [[] | e]; cbn [bind] in H.
    + right. unfold copy_to_bucket in H.
      apply default_bucket_bind2_inv in H.
      destruct H as (v & tr'' & -> & H).
      exists [io_write_csv f "bucket_io/temp.csv" (Ok tt)], v, tr''.
      split; [reflexivity |]. split; [reflexivity |]. split; [reflexivity |].
      intros b E. cbn [bind exec]. exists (Ok tt), tr''.
      split; [reflexivity |]. cbn [bind]. apply H. exact E.
    + left. exec_end H. repeat split.
      intros bucket_id. cbn [bind exec].
      exists (Err e), []. repeat split.
Qed.

Lemma exec_bind_ret_ok (A B : Type) (p : prog A) (g : A -> B) tr r :
  exec (bind p (fun x => Ret (g x))) tr r ->
  exists r0, exec p tr r0 /\
             r = match r0 with Ok a => Ok (g a) | Err e => Err e end.
Proof.
  intros H. apply exec_bind_inv in H.
  destruct H as [(e & H & ->) | (a & tr1 & tr2 & H1 & H2 & ->)].
  - exists (Err e). auto.
  - exec_end H2. rewrite app_nil_r. exists (Ok a). auto.
Qed.

(** The commands of a call with the bucket [b]: a first part of the
    expected ones, and all of them when the call returns. *)
Lemma commands_with_bucket op b tr r :
  exec (invoke op (Some b)) tr r ->
  (exists n, commands tr = firstn n (expected_commands op b)) /\
  (forall v, r = Ok v -> commands tr = expected_commands op b).
Proof.
  intros H. destruct op as [p | f t | t rl | p | n fo l s | f t];
    unfold invoke in H; apply exec_bind_ret_ok in H;
    destruct H as (r0 & H & ->).
  - exec_step H. exec_step H. exec_end H.
    split; [exists 1; reflexivity | reflexivity].
  - apply copy_to_bucket_exec in H.
    destruct H as (v & pre & Hv & H). cbv zeta in H.
    destruct Hv as [(b' & E & -> & ->) | (E & _)]; [| discriminate E].
    inversion E; subst b'; clear E.
    destruct H as [(_ & status & -> & ->) |
                   (_ & [(status & -> & ->) |
                         [(status & -> & ->) | (e & -> & ->)]])];
      (split; [first [exists 1; reflexivity | exists 0; reflexivity] |]);
      intros v E'; first [reflexivity | discriminate E'].
  - destruct rl.
    + apply ls_bucket_exec in H.
      destruct H as (pre & v & status & out & H). cbv zeta in H.
      destruct H as (-> & _ & Hpre).
      destruct Hpre as [(b' & E & -> & ->) | (E & _)]; [| discriminate E].
      inversion E; subst b'; clear E.
      destruct t; (split; [exists 1; reflexivity | intros; reflexivity]).
    + destruct t; exec_step H; exec_end H;
        (split; [exists 1; reflexivity | intros; reflexivity]).
  - exec_step H. exec_end H.
    split; [exists 1; reflexivity | reflexivity].
  - destruct n as [name |], fo as [folder |].
    + (* a file in a folder *)
      apply read_from_bucket_shape in H.
      destruct H as [(-> & msg & ->) |
                     (v & tr0 & trd & post & rd & -> & H0 & Hd & H)].
      { split; [exists 0; reflexivity | intros v E; discriminate E]. }
      exec_end H0. apply ensure_staging_dir_some_exec in Hd. cbv zeta in Hd.
      destruct Hd as [(-> & ->) | [(-> & ->) | (e & -> & ->)]].
      * destruct l; exec_step H; exec_step H; destruct x0; exec_end H;
          (split; [exists 1; reflexivity |]);
          intros v E'; first [reflexivity | discriminate E'].
      * destruct l; exec_step H; exec_step H; destruct x0; exec_end H;
          (split; [exists 1; reflexivity |]);
          intros v E'; first [reflexivity | discriminate E'].
      * destruct H as [-> ->].
        split; [exists 0; reflexivity | intros v E; discriminate E].
    + (* a file at the root *)
      apply read_from_bucket_shape in H.
      destruct H as [(-> & msg & ->) |
                     (v & tr0 & trd & post & rd & -> & H0 & Hd & H)].
      { split; [exists 0; reflexivity | intros v E; discriminate E]. }
      exec_end H0. exec_end Hd.
      destruct l; exec_step H; exec_step H; destruct x0; exec_end H;
        (split; [exists 1; reflexivity |]);
        intros v E'; first [reflexivity | discriminate E'].
    + (* a folder *)
      apply folder_mode_shape in H.
      destruct H as [(C & _ & e & ->) |
                     (before & v & v' & status & out & after & H)].
      { rewrite C. split; [exists 0; reflexivity | intros v E; discriminate E]. }
      cbv zeta in H. destruct H as (-> & C & _ & _ & Ev & Ev' & H).
      simpl in Ev. subst v. rewrite (Ev' b eq_refl) in *. simpl Py.fmt in *.
      destruct H as [(-> & e & _ & ->) | (ls & rc & rest & _ & -> & Cr & _)].
      * unfold commands in *. rewrite flat_map_app, C. simpl.
        split; [exists 1; reflexivity | intros v E; discriminate E].
      * unfold commands in *. rewrite flat_map_app, C. simpl. rewrite Cr.
        split; [exists 2; reflexivity | intros; reflexivity].
    + (* neither *)
      unfold read_from_bucket in H. simpl in H. exec_end H.
      split; [exists 0; reflexivity | intros v E; discriminate E].
  - unfold write_to_bucket, call in H. cbn [bind exec] in H.
    destruct H as (res & rest & -> & H).
    destruct res as [[] | e]; cbn [bind] in H.
    + apply copy_to_bucket_exec in H.
      destruct H as (v & pre & Hv & H). cbv zeta in H.
      destruct Hv as [(b' & E & -> & ->) | (E & _)]; [| discriminate E].
      inversion E; subst b'; clear E.
      destruct H as [(_ & status & -> & ->) |
                     (_ & [(status & -> & ->) |
                           [(status & -> & ->) | (e & -> & ->)]])];
        (split; [first [exists 1; reflexivity | exists 0; reflexivity] |]);
        intros v E'; first [reflexivity | discriminate E'].
    + exec_end H.
      split; [exists 0; reflexivity | intros v E'; discriminate E'].
Qed.

(** In the reference environment no call changes the process
    environment, and a read of a variable answers what the world holds. *)
Lemma answer_env x (X : Type) (ev : event X) w :
  Posix.environ (fst (Posix.answer x ev w)) = Posix.environ w /\
  match observe ev (snd (Posix.answer x ev w)) with
  | io_getenv name v => v = Posix.env_lookup name (Posix.environ w)
  | _ => True
  end.
Proof.
  destruct ev; simpl; try (split; [reflexivity | exact I]).
  - split; reflexivity.
  - destruct (Posix.makedirs (Posix.store w) (Posix.components path)).
    split; [reflexivity | exact I].
  - destruct (Posix.cli x cmd (Posix.store w)) as [[st status] out].
    split; [reflexivity | exact I].
  - destruct (Posix.cli x cmd (Posix.store w)) as [[st status] out].
    split; [reflexivity | exact I].
  - destruct (Posix.write_file (Posix.store w) (Posix.components path)
                (Posix.to_csv x df)).
    split; [reflexivity | exact I].
Qed.

Lemma run_env_reads x (R : Type) (p : prog R) :
  forall w,
    Forall (fun nv => snd nv = Posix.env_lookup (fst nv) (Posix.environ w))
           (env_reads (snd (fst (run (Posix.answer x) p w)))).
Proof.
  induction p as [v | e | X ev k IH]; simpl; intros w; try constructor.
  destruct (answer_env x ev w) as [Ee Ea].
  destruct (Posix.answer x ev w) as [w1 a]. simpl in *.
  specialize (IH a w1). rewrite Ee in IH.
  destruct (run (Posix.answer x) (k a) w1) as [[w2 tr] r]. simpl in *.
  destruct (observe ev a); simpl; try exact IH.
  constructor; [exact Ea | exact IH].
Qed.

(** In the reference environment, from a world where the variable holds
    [b], a call without a bucket ends as the call with [b] does. *)
Lemma run_invoke_default (x : Posix.Externals) (w : Posix.World) op b :
  Posix.env_lookup WORKSPACE_BUCKET (Posix.environ w) = Some b ->
  let o1 := run (Posix.answer x) (invoke op None) w in
  let o2 := run (Posix.answer x) (invoke op (Some b)) w in
  fst (fst o1) = fst (fst o2) /\ snd o1 = snd o2 /\
  commands (snd (fst o1)) = commands (snd (fst o2)).
Proof.
  intros E. destruct op; unfold invoke.
  - exact (@run_default_bucket x _ _ _ _ w b E).
  - exact (@run_default_bucket x _ _ _ _ w b E).
  - exact (@run_default_bucket x _ _ _ _ w b E).
  - exact (@run_default_bucket x _ _ _ _ w b E).
  - unfold read_from_bucket.
    destruct (Py.is_none file_name && Py.is_none file_folder);
      [cbv zeta; repeat split |].
    destruct (match file_name with
              | Some name => negb (csv_extension name)
              | None => false
              end); [cbv zeta; repeat split |].
    exact (@run_default_bucket x _ _ _ _ w b E).
  - unfold write_to_bucket, call. cbv zeta. cbn [bind run].
    destruct (Posix.answer x (df_write_csv file "bucket_io/temp.csv") w)
      as [w1 res] eqn:Ew.
    assert (Ee : Posix.environ w1 = Posix.environ w).
    { simpl in Ew.
      destruct (Posix.write_file (Posix.store w)
                  (Posix.components "bucket_io/temp.csv") (Posix.to_csv x file)).
      inversion Ew. reflexivity. }
    destruct res as [[] | e]; cbn [bind]; [| repeat split].
    rewrite <- Ee in E. unfold copy_to_bucket.
    pose proof (@run_default_bucket x _ _
      (fun bucket_id =>
         (if Nat.ltb 1 (length (Py.split "/" target)) then
            d <- trigger (os_path_isdir
                            (Py.join "/" (Py.but_last (Py.split "/" target)))) ;;
            if negb d
            then call (os_makedirs
                         (Py.join "/" (Py.but_last (Py.split "/" target))))
            else Ret tt
          else Ret tt) ;;
         trigger (os_system ("gsutil cp " ++ "bucket_io/temp.csv" ++ " " ++
                             Py.fmt bucket_id ++ "/" ++ target)) ;;
         Ret tt) (fun _ => Ret Done) w1 b E) as T.
    cbv zeta in T.
    destruct (run (Posix.answer x) _ w1) as [[wa tra] ra] in T |- *.
    destruct (run (Posix.answer x) _ w1) as [[wb trb] rb] in T |- *.
    simpl in T |- *. destruct T as (T1 & T2 & T3). repeat split; assumption.
Qed.

Lemma without_env_app a b :
  without_env (a ++ b) = (without_env a ++ without_env b)%list.
Proof. unfold without_env. apply filter_app. Qed.

Lemma env_reads_app a b :
  env_reads (a ++ b) = (env_reads a ++ env_reads b)%list.
Proof. unfold env_reads. apply flat_map_app. Qed.

Lemma commands_app a b :
  commands (a ++ b) = (commands a ++ commands b)%list.
Proof. unfold commands. apply flat_map_app. Qed.

(** C6.  For each of the six functions, called without a bucket in an
    environment where [WORKSPACE_BUCKET] holds [b]: the commands the call
    starts are, in order, the commands of the function written with [b]
    where the bucket goes, all of them when the call returns and a first
    part of them when it raises; when a command is started the variable
    has been read, once, and it is [WORKSPACE_BUCKET]; and the execution
    is, that read apart, an execution of the call with the bucket [b].
    In the reference environment, from a world where the variable holds
    [b], the call ends in the same world, with the same result and the
    same commands, as the call with the bucket [b], and these commands
    hold [b].  The world is the one at the call, so two calls between
    which the variable changes use each its own value. *)
Theorem bucket_defaults_to_the_environment (op : operation) (b : string) :
  (forall (env : string -> option string) tr r,
      env WORKSPACE_BUCKET = Some b ->
      Forall (fun nv => snd nv = env (fst nv)) (env_reads tr) ->
      exec (invoke op None) tr r ->
      (exists n, commands tr = firstn n (expected_commands op b)) /\
      (forall v, r = Ok v -> commands tr = expected_commands op b) /\
      (commands tr <> [] -> env_reads tr = [(WORKSPACE_BUCKET, Some b)]) /\
      exec (invoke op (Some b)) (without_env tr) r) /\
  (forall (x : Posix.Externals) (w : Posix.World),
      Posix.env_lookup WORKSPACE_BUCKET (Posix.environ w) = Some b ->
      let o1 := run (Posix.answer x) (invoke op None) w in
      let o2 := run (Posix.answer x) (invoke op (Some b)) w in
      fst (fst o1) = fst (fst o2) /\ snd o1 = snd o2 /\
      commands (snd (fst o1)) = commands (snd (fst o2)) /\
      (exists n, commands (snd (fst o1)) = firstn n (expected_commands op b)) /\
      (forall v, snd o1 = Ok v ->
                 commands (snd (fst o1)) = expected_commands op b)).
Proof.
  assert (A : forall (env : string -> option string) tr r,
      env WORKSPACE_BUCKET = Some b ->
      Forall (fun nv => snd nv = env (fst nv)) (env_reads tr) ->
      exec (invoke op None) tr r ->
      (exists n, commands tr = firstn n (expected_commands op b)) /\
      (forall v, r = Ok v -> commands tr = expected_commands op b) /\
      (commands tr <> [] -> env_reads tr = [(WORKSPACE_BUCKET, Some b)]) /\
      exec (invoke op (Some b)) (without_env tr) r).
  { intros env tr r Eb F H. apply invoke_default_inv in H.
    destruct H as [(E & C & H) | (pre & v & tr' & -> & E & C & H)].
    - specialize (H (Some b)).
      destruct (@commands_with_bucket _ _ _ _ H) as [P Q].
      split; [exact P |]. split; [exact Q |].
      split; [intros N; contradiction N |].
      rewrite (@without_env_id _ E). exact H.
    - rewrite env_reads_app, E in F. simpl in F.
      inversion F as [| nv l Fv _]; subst. simpl in Fv. rewrite Eb in Fv.
      specialize (H b Fv).
      pose proof (@invoke_with_bucket_no_env _ _ _ _ H) as N.
      rewrite env_reads_app in N. apply app_eq_nil in N. destruct N as [_ N].
      destruct (@commands_with_bucket _ _ _ _ H) as [P Q].
      assert (Ec : commands (pre ++ io_getenv WORKSPACE_BUCKET v :: tr') =
                   commands (pre ++ tr')).
      { rewrite !commands_app. reflexivity. }
      assert (Ew : without_env (pre ++ io_getenv WORKSPACE_BUCKET v :: tr') =
                   (pre ++ tr')%list).
      { rewrite without_env_app. simpl.
        change (filter (fun i => negb (is_getenv i)) tr') with (without_env tr').
        rewrite (@without_env_id _ E), (@without_env_id _ N). reflexivity. }
      rewrite Ec, Ew. split; [exact P |]. split; [exact Q |].
      split; [| exact H].
      intros _. rewrite env_reads_app, E. simpl.
      change (flat_map _ tr') with (env_reads tr'). rewrite N, Fv.
      reflexivity. }
  split; [exact A |].
  intros x w E. cbv zeta.
  destruct (@run_invoke_default x w op b E) as (R1 & R2 & R3).
  split; [exact R1 |]. split; [exact R2 |]. split; [exact R3 |].
  destruct (A (fun name => Posix.env_lookup name (Posix.environ w))
              (snd (fst (run (Posix.answer x) (invoke op None) w)))
              (snd (run (Posix.answer x) (invoke op None) w))
              E (run_env_reads x (invoke op None) w)
              (run_exec (Posix.answer x) (invoke op None) w))
    as (P & Q & _).
  split; [exact P | exact Q].
Qed.

Lemma bucket_defaults_to_the_environment_witness :
  let get := io_getenv WORKSPACE_BUCKET (Some "gs://one") in
  let line := "[INFO] datasets/fitbit.csv is successfully downloaded into your working space" in
  let d := mkDataFrame ["id"] [["1"]] in
  let lf := mkLazyFrame "bucket_io/datasets/a.csv" in
  let listed := "gs://one/datasets/a.csv" ++ String newline "" in
  let x := Posix.mkExternals (fun _ st => (st, 0%Z, ""))
             (fun _ => Err (PolarsError "NoDataError")) (fun _ => "") in
  let world := fun b => Posix.mkWorld [(WORKSPACE_BUCKET, b)]
                          (Posix.mkStore [] []) "" in
  (exec (invoke (Download "datasets/fitbit.csv") None)
        [get; io_system "gsutil cp 'gs://one/datasets/fitbit.csv' ." 0;
         io_print line] (Ok Done) /\
   commands [get; io_system "gsutil cp 'gs://one/datasets/fitbit.csv' ." 0;
             io_print line] =
   ["gsutil cp 'gs://one/datasets/fitbit.csv' ."]) /\
  (exec (invoke (Upload "out.csv" "datasets/out.csv") None)
        [get; io_isdir "datasets" true;
         io_system "gsutil cp out.csv gs://one/datasets/out.csv" 1] (Ok Done) /\
   commands [get; io_isdir "datasets" true;
             io_system "gsutil cp out.csv gs://one/datasets/out.csv" 1] =
   ["gsutil cp out.csv gs://one/datasets/out.csv"]) /\
  (exec (invoke (ListObjects (Some "datasets") true) None)
        [get; io_subprocess "gsutil ls gs://one/datasets" 0 listed]
        (Ok (Listing (Some ["gs://one/datasets/a.csv"]))) /\
   commands [get; io_subprocess "gsutil ls gs://one/datasets" 0 listed] =
   ["gsutil ls gs://one/datasets"]) /\
  (exec (invoke (Remove "datasets/fitbit.csv") None)
        [get; io_system "gsutil rm gs://one/datasets/fitbit.csv" 0] (Ok Done) /\
   commands [get; io_system "gsutil rm gs://one/datasets/fitbit.csv" 0] =
   ["gsutil rm gs://one/datasets/fitbit.csv"]) /\
  (exec (invoke (Load (Some "a.csv") (Some "datasets") true false) None)
        [get; io_isdir "bucket_io/datasets" true;
         io_system "gcloud storage cp 'gs://one/datasets/a.csv' 'bucket_io/datasets'" 0;
         io_scan_csv "bucket_io/datasets/a.csv" false (Ok lf)]
        (Ok (Loaded (Frame (Lazy lf)))) /\
   commands [get; io_isdir "bucket_io/datasets" true;
             io_system "gcloud storage cp 'gs://one/datasets/a.csv' 'bucket_io/datasets'" 0;
             io_scan_csv "bucket_io/datasets/a.csv" false (Ok lf)] =
   ["gcloud storage cp 'gs://one/datasets/a.csv' 'bucket_io/datasets'"]) /\
  (exec (invoke (Load None (Some "datasets") false false) None)
        [get; io_isdir "bucket_io/datasets" true;
         io_subprocess "gsutil ls gs://one/datasets" 0 listed;
         io_system "gcloud storage cp 'gs://one/datasets/*.csv' 'bucket_io/datasets'" 0;
         io_read_csv "bucket_io/datasets/a.csv" false (Ok d)]
        (Ok (Loaded (Frames [Eager d]))) /\
   commands [get; io_isdir "bucket_io/datasets" true;
             io_subprocess "gsutil ls gs://one/datasets" 0 listed;
             io_system "gcloud storage cp 'gs://one/datasets/*.csv' 'bucket_io/datasets'" 0;
             io_read_csv "bucket_io/datasets/a.csv" false (Ok d)] =
   ["gsutil ls gs://one/datasets";
    "gcloud storage cp 'gs://one/datasets/*.csv' 'bucket_io/datasets'"]) /\
  (exec (invoke (WriteRemote d "datasets/out.csv") None)
        [io_write_csv d "bucket_io/temp.csv" (Ok tt); get;
         io_isdir "datasets" true;
         io_system "gsutil cp bucket_io/temp.csv gs://one/datasets/out.csv" 0]
        (Ok Done) /\
   commands [io_write_csv d "bucket_io/temp.csv" (Ok tt); get;
             io_isdir "datasets" true;
             io_system "gsutil cp bucket_io/temp.csv gs://one/datasets/out.csv" 0] =
   ["gsutil cp bucket_io/temp.csv gs://one/datasets/out.csv"]) /\
  commands (snd (fst (run (Posix.answer x)
                        (invoke (Download "datasets/fitbit.csv") None)
                        (world "gs://one"))))
  = ["gsutil cp 'gs://one/datasets/fitbit.csv' ."] /\
  commands (snd (fst (run (Posix.answer x)
                        (invoke (Download "datasets/fitbit.csv") None)
                        (world "gs://two"))))
  = ["gsutil cp 'gs://two/datasets/fitbit.csv' ."].
Proof.
  cbv zeta.
  pose (env := fun name : string =>
                 if String.eqb name WORKSPACE_BUCKET then Some "gs://one"
                 else None).
  assert (F : Forall (fun nv => snd nv = env (fst nv))
                [(WORKSPACE_BUCKET, Some "gs://one")])
    by (repeat constructor).
  split; [| split; [| split; [| split; [| split; [| split; [| split; [| split]]]]]]].
  - match goal with |- exec ?p ?tr ?r /\ _ => assert (H : exec p tr r) end.
    { answer (Some "gs://one"). answer 0%Z. answer tt. finish. }
    split; [exact H |].
    eapply (proj1 (@bucket_defaults_to_the_environment
                     (Download "datasets/fitbit.csv") "gs://one") env)
      in H; [| reflexivity | exact F].
    exact (proj1 (proj2 H) _ eq_refl).
  - match goal with |- exec ?p ?tr ?r /\ _ => assert (H : exec p tr r) end.
    { answer (Some "gs://one"). answer true. answer 1%Z. finish. }
    split; [exact H |].
    eapply (proj1 (@bucket_defaults_to_the_environment
                     (Upload "out.csv" "datasets/out.csv") "gs://one") env)
      in H; [| reflexivity | exact F].
    exact (proj1 (proj2 H) _ eq_refl).
  - match goal with |- exec ?p ?tr ?r /\ _ => assert (H : exec p tr r) end.
    { answer (Some "gs://one").
      answer (0%Z, "gs://one/datasets/a.csv" ++ String newline ""). finish. }
    split; [exact H |].
    eapply (proj1 (@bucket_defaults_to_the_environment
                     (ListObjects (Some "datasets") true) "gs://one") env)
      in H; [| reflexivity | exact F].
    exact (proj1 (proj2 H) _ eq_refl).
  - match goal with |- exec ?p ?tr ?r /\ _ => assert (H : exec p tr r) end.
    { answer (Some "gs://one"). answer 0%Z. finish. }
    split; [exact H |].
    eapply (proj1 (@bucket_defaults_to_the_environment
                     (Remove "datasets/fitbit.csv") "gs://one") env)
      in H; [| reflexivity | exact F].
    exact (proj1 (proj2 H) _ eq_refl).
  - match goal with |- exec ?p ?tr ?r /\ _ => assert (H : exec p tr r) end.
    { answer (Some "gs://one"). answer true. answer 0%Z.
      answer (Ok (mkLazyFrame "bucket_io/datasets/a.csv")). finish. }
    split; [exact H |].
    eapply (proj1 (@bucket_defaults_to_the_environment
                     (Load (Some "a.csv") (Some "datasets") true false) "gs://one") env)
      in H; [| reflexivity | exact F].
    exact (proj1 (proj2 H) _ eq_refl).
  - match goal with |- exec ?p ?tr ?r /\ _ => assert (H : exec p tr r) end.
    { answer (Some "gs://one"). answer true.
      answer (0%Z, "gs://one/datasets/a.csv" ++ String newline "").
      answer 0%Z. answer (Ok (mkDataFrame ["id"] [["1"]])). finish. }
    split; [exact H |].
    eapply (proj1 (@bucket_defaults_to_the_environment
                     (Load None (Some "datasets") false false) "gs://one") env)
      in H; [| reflexivity | exact F].
    exact (proj1 (proj2 H) _ eq_refl).
  - match goal with |- exec ?p ?tr ?r /\ _ => assert (H : exec p tr r) end.
    { answer (Ok tt). answer (Some "gs://one"). answer true. answer 0%Z.
      finish. }
    split; [exact H |].
    eapply (proj1 (@bucket_defaults_to_the_environment
                     (WriteRemote (mkDataFrame ["id"] [["1"]]) "datasets/out.csv") "gs://one") env)
      in H; [| reflexivity | exact F].
    exact (proj1 (proj2 H) _ eq_refl).
  - exact (proj2 (proj2 (proj2 (proj2 (proj2
             (@bucket_defaults_to_the_environment
                (Download "datasets/fitbit.csv") "gs://one")
             (Posix.mkExternals (fun _ st => (st, 0%Z, ""))
                (fun _ => Err (PolarsError "NoDataError")) (fun _ => ""))
             (Posix.mkWorld [(WORKSPACE_BUCKET, "gs://one")]
                (Posix.mkStore [] []) "") eq_refl)))) _ eq_refl).
  - exact (proj2 (proj2 (proj2 (proj2 (proj2
             (@bucket_defaults_to_the_environment
                (Download "datasets/fitbit.csv") "gs://two")
             (Posix.mkExternals (fun _ st => (st, 0%Z, ""))
                (fun _ => Err (PolarsError "NoDataError")) (fun _ => ""))
             (Posix.mkWorld [(WORKSPACE_BUCKET, "gs://two")]
                (Posix.mkStore [] []) "") eq_refl)))) _ eq_refl).
Defined.

(** ** Uploads *)

Ltac in_cases H :=
  simpl in H;
  repeat (destruct H as [H | H]; [try discriminate H |]);
  try contradiction H.

Ltac ends_with_last :=
  match goal with
  | |- exists pre, ?t = (pre ++ _)%list => exists (removelast t); reflexivity
  end.

(** X1.  [copy_to_bucket] with a target that holds no "/" and a given
    bucket tests and makes no local directory.  A process it starts is
    the copy [gsutil cp <file> <bucket>/<target>]; it is then the only
    call to the environment, and the call returns whatever the exit
    status. *)
Theorem copy_to_bucket_flat_target (file_name target b : string) tr r :
  count "/" target = 0 ->
  exec (copy_to_bucket file_name target (Some b)) tr r ->
  dir_events tr = [] /\
  forall c status,
    In (io_system c status) tr ->
    c = "gsutil cp " ++ file_name ++ " " ++ b ++ "/" ++ target /\
    tr = [io_system c status] /\ r = Ok tt.
Proof.
  intros Hc H. apply copy_to_bucket_exec in H.
  destruct H as (v & pre & Hv & H). cbv zeta in H.
  destruct Hv as [(b' & E & -> & ->) | (E & _)]; [| discriminate E].
  inversion E; subst b'; clear E.
  rewrite split_without_separator in H by exact Hc. simpl in H.
  destruct H as [(_ & status & -> & ->) | (E & _)]; [| discriminate E].
  split; [reflexivity |].
  intros c st HIn. in_cases HIn. inversion HIn; subst. repeat split.
Qed.

Lemma copy_to_bucket_flat_target_witness :
  let tr := [io_system "gsutil cp out.csv gs://b/out.csv" 1] in
  count "/" "out.csv" = 0 /\
  exec (copy_to_bucket "out.csv" "out.csv" (Some "gs://b")) tr (Ok tt) /\
  dir_events tr = [] /\
  "gsutil cp out.csv gs://b/out.csv" =
  "gsutil cp " ++ "out.csv" ++ " " ++ "gs://b" ++ "/" ++ "out.csv".
Proof.
  cbv zeta.
  assert (H : exec (copy_to_bucket "out.csv" "out.csv" (Some "gs://b"))
                [io_system "gsutil cp out.csv gs://b/out.csv" 1] (Ok tt)).
  { answer 1%Z. finish. }
  split; [reflexivity |]. split; [exact H |].
  destruct (@copy_to_bucket_flat_target "out.csv" "out.csv" "gs://b" _ _
              eq_refl H) as [D T].
  split; [exact D |].
  exact (proj1 (T _ _ (or_introl eq_refl))).
Defined.

(** X2.  [copy_to_bucket] with a target [parent/base] ([base] without
    "/") and a given bucket tests the local directory [parent], the
    target up to its last slash, and makes it only when the test says it
    is missing; when making it fails the call ends with that error and no
    process is started.  A process it starts is the copy to
    [<bucket>/<target>], after the test and the making, and the call then
    returns whatever the exit status. *)
Theorem copy_to_bucket_nested_target (file_name parent base b : string) tr r :
  count "/" base = 0 ->
  exec (copy_to_bucket file_name (parent ++ "/" ++ base) (Some b)) tr r ->
  let cmd := "gsutil cp " ++ file_name ++ " " ++ b ++ "/" ++
             (parent ++ "/" ++ base) in
  (dir_events tr = [io_isdir parent true] \/
   exists res,
     dir_events tr = [io_isdir parent false; io_makedirs parent res] /\
     forall e, res = Err e -> r = Err e /\ commands tr = []) /\
  (forall c status,
      In (io_system c status) tr ->
      c = cmd /\ tr = (dir_events tr ++ [io_system cmd status])%list /\
      r = Ok tt).
Proof.
  intros Hc H cmd. apply copy_to_bucket_exec in H.
  destruct H as (v & pre & Hv & H). cbv zeta in H.
  destruct Hv as [(b' & E & -> & ->) | (E & _)]; [| discriminate E].
  inversion E; subst b'; clear E.
  destruct (@parent_of_target parent base Hc) as [Ed El].
  apply Nat.ltb_lt in El. rewrite Ed, El in H. simpl in H.
  destruct H as [(E & _) | (_ & H)]; [discriminate E |].
  destruct H as [(status & -> & ->) | [(status & -> & ->) | (e & -> & ->)]].
  - split; [left; reflexivity |].
    intros c st HIn. in_cases HIn. inversion HIn; subst. repeat split.
  - split.
    + right. exists (Ok tt). split; [reflexivity |].
      intros e E; discriminate E.
    + intros c st HIn. in_cases HIn. inversion HIn; subst. repeat split.
  - split.
    + right. exists (Err e). split; [reflexivity |].
      intros e' E. inversion E; subst. split; reflexivity.
    + intros c st HIn. in_cases HIn.
Qed.

Lemma copy_to_bucket_nested_target_witness :
  let cmd := "gsutil cp out.csv gs://b/datasets/2024/out.csv" in
  let made := [io_isdir "datasets/2024" false;
               io_makedirs "datasets/2024" (Ok tt);
               io_system cmd 0] in
  let failed := [io_isdir "datasets/2024" false;
                 io_makedirs "datasets/2024" (Err (OSError "PermissionError"))] in
  count "/" "out.csv" = 0 /\
  exec (copy_to_bucket "out.csv" ("datasets/2024" ++ "/" ++ "out.csv")
          (Some "gs://b")) made (Ok tt) /\
  made = (dir_events made ++ [io_system cmd 0])%list /\
  exec (copy_to_bucket "out.csv" ("datasets/2024" ++ "/" ++ "out.csv")
          (Some "gs://b")) failed (Err (OSError "PermissionError")) /\
  commands failed = [].
Proof.
  cbv zeta.
  assert (H : exec (copy_to_bucket "out.csv" ("datasets/2024" ++ "/" ++ "out.csv")
                      (Some "gs://b"))
                [io_isdir "datasets/2024" false;
                 io_makedirs "datasets/2024" (Ok tt);
                 io_system "gsutil cp out.csv gs://b/datasets/2024/out.csv" 0]
                (Ok tt)).
  { answer false. answer (Ok tt). answer 0%Z. finish. }
  assert (H' : exec (copy_to_bucket "out.csv" ("datasets/2024" ++ "/" ++ "out.csv")
                       (Some "gs://b"))
                 [io_isdir "datasets/2024" false;
                  io_makedirs "datasets/2024" (Err (OSError "PermissionError"))]
                 (Err (OSError "PermissionError"))).
  { answer false. answer (Err (OSError "PermissionError") : result unit).
    finish. }
  split; [reflexivity |]. split; [exact H |]. split; [| split; [exact H' |]].
  - destruct (@copy_to_bucket_nested_target "out.csv" "datasets/2024" "out.csv"
                "gs://b" _ _ eq_refl H) as [_ T].
    exact (proj1 (proj2 (T _ _ (or_intror (or_intror (or_introl eq_refl)))))).
  - destruct (@copy_to_bucket_nested_target "out.csv" "datasets/2024" "out.csv"
                "gs://b" _ _ eq_refl H') as [T _].
    destruct T as [T | (res & T & Q)]; [discriminate T |].
    inversion T; subst res. exact (proj2 (Q _ eq_refl)).
Defined.

(** X3.  Every call to [write_to_bucket] starts at most one process, the
    copy of the fixed file [bucket_io/temp.csv] to [<bucket>/<target>],
    where the bucket is the argument or else the answer to the read of
    [WORKSPACE_BUCKET]; the call returns when that copy was started, and
    otherwise raises without having started any process. *)
Theorem write_to_bucket_uploads_the_temp_file
  (file : DataFrame) (target : string) (bucket_id : option string) tr r :
  exec (write_to_bucket file target bucket_id) tr r ->
  ((commands tr = [] /\ exists e, r = Err e) \/
   (commands tr = ["gsutil cp bucket_io/temp.csv " ++
                   Py.fmt (resolved_bucket bucket_id tr) ++ "/" ++ target] /\
    r = Ok tt)) /\
  (bucket_id = None -> commands tr <> [] ->
   exists v, env_reads tr = [(WORKSPACE_BUCKET, v)]).
Proof.
  intros H. unfold write_to_bucket, call in H. cbn [bind exec] in H.
  destruct H as (res & rest & -> & H).
  destruct res as [[] | e]; cbn [bind] in H.
  2:{ exec_end H. split; [left; split; [reflexivity | eauto] |].
      intros _ N. contradiction N. reflexivity. }
  apply copy_to_bucket_exec in H. destruct H as (v & pre & Hv & H).
  cbv zeta in H.
  destruct Hv as [(b & -> & -> & ->) | (-> & ->)];
    destruct H as [(_ & status & -> & ->) |
                   (_ & [(status & -> & ->) |
                         [(status & -> & ->) | (e & -> & ->)]])];
    (split;
     [ first [right; split; reflexivity | left; split; [reflexivity | eauto]]
     | first [intros E; discriminate E
             | intros _ _; exists v; reflexivity
             | intros _ N; contradiction N; reflexivity] ]).
Qed.

Lemma write_to_bucket_uploads_the_temp_file_witness :
  let d := mkDataFrame ["id"] [["1"]] in
  let tr := [io_write_csv d "bucket_io/temp.csv" (Ok tt);
             io_getenv WORKSPACE_BUCKET (Some "gs://b");
             io_system "gsutil cp bucket_io/temp.csv gs://b/out.csv" 0] in
  exec (write_to_bucket d "out.csv" None) tr (Ok tt) /\
  commands tr = ["gsutil cp bucket_io/temp.csv gs://b/out.csv"] /\
  exists v, env_reads tr = [(WORKSPACE_BUCKET, v)].
Proof.
  cbv zeta.
  assert (H : exec (write_to_bucket (mkDataFrame ["id"] [["1"]]) "out.csv" None)
                [io_write_csv (mkDataFrame ["id"] [["1"]]) "bucket_io/temp.csv"
                   (Ok tt);
                 io_getenv WORKSPACE_BUCKET (Some "gs://b");
                 io_system "gsutil cp bucket_io/temp.csv gs://b/out.csv" 0]
                (Ok tt)).
  { answer (Ok tt). answer (Some "gs://b"). answer 0%Z. finish. }
  split; [exact H |].
  destruct (@write_to_bucket_uploads_the_temp_file _ _ _ _ _ H) as [T Q].
  split.
  - destruct T as [(_ & e & E) | (T & _)]; [discriminate E | exact T].
  - apply Q; [reflexivity | discriminate].
Defined.

(** ** Exit statuses *)

(** X4.  [copy_to_bucket], [remove_from_bucket], [write_to_bucket] and
    [ls_bucket] without [return_list] do not look at the exit status:
    once [os.system] has started a process, whatever status it answers,
    the call returns; that process is the only one and nothing is called
    after it. *)
Theorem started_process_ends_the_call
  (op : operation) (bucket_id : option string) tr r :
  ends_with_its_process op = true ->
  exec (invoke op bucket_id) tr r ->
  forall c status,
    In (io_system c status) tr ->
    (exists v, r = Ok v) /\ commands tr = [c] /\
    exists pre, tr = (pre ++ [io_system c status])%list.
Proof.
  intros F H c st HIn.
  destruct op as [p | f t | t [|] | p | n fo l s | f t]; try discriminate F;
    clear F; unfold invoke in H; apply exec_bind_ret_ok in H;
    destruct H as (r0 & H & ->).
  - apply copy_to_bucket_exec in H.
    destruct H as (v & pre & Hv & H). cbv zeta in H.
    destruct Hv as [(b & _ & _ & ->) | (_ & ->)];
      destruct H as [(_ & status & -> & ->) |
                     (_ & [(status & -> & ->) |
                           [(status & -> & ->) | (e & -> & ->)]])];
      in_cases HIn; inversion HIn; subst;
      (split; [eexists; reflexivity |]); (split; [reflexivity |]);
      ends_with_last.
  - destruct t, bucket_id; simpl in H;
      repeat (let x := fresh "x" in
              let tr' := fresh "tr" in
              destruct H as (x & tr' & -> & H); simpl in H);
      destruct H as [-> ->];
      in_cases HIn; inversion HIn; subst;
      (split; [eexists; reflexivity |]); (split; [reflexivity |]);
      ends_with_last.
  - destruct bucket_id; simpl in H;
      repeat (let x := fresh "x" in
              let tr' := fresh "tr" in
              destruct H as (x & tr' & -> & H); simpl in H);
      destruct H as [-> ->];
      in_cases HIn; inversion HIn; subst;
      (split; [eexists; reflexivity |]); (split; [reflexivity |]);
      ends_with_last.
  - unfold write_to_bucket, call in H. cbn [bind exec] in H.
    destruct H as (res & rest & -> & H).
    destruct res as [[] | e]; cbn [bind] in H.
    2:{ exec_end H. in_cases HIn. }
    apply copy_to_bucket_exec in H.
    destruct H as (v & pre & Hv & H). cbv zeta in H.
    destruct Hv as [(b & _ & _ & ->) | (_ & ->)];
      destruct H as [(_ & status & -> & ->) |
                     (_ & [(status & -> & ->) |
                           [(status & -> & ->) | (e & -> & ->)]])];
      in_cases HIn; inversion HIn; subst;
      (split; [eexists; reflexivity |]); (split; [reflexivity |]);
      ends_with_last.
Qed.

Lemma started_process_ends_the_call_witness :
  let tr := [io_getenv WORKSPACE_BUCKET (Some "gs://b");
             io_system "gsutil rm gs://b/datasets/fitbit.csv" 1] in
  let tr' := [io_isdir "datasets" true;
              io_system "gsutil cp out.csv gs://b/datasets/out.csv" 2] in
  ends_with_its_process (Remove "datasets/fitbit.csv") = true /\
  exec (invoke (Remove "datasets/fitbit.csv") None) tr (Ok Done) /\
  commands tr = ["gsutil rm gs://b/datasets/fitbit.csv"] /\
  exec (invoke (Upload "out.csv" "datasets/out.csv") (Some "gs://b")) tr'
       (Ok Done) /\
  commands tr' = ["gsutil cp out.csv gs://b/datasets/out.csv"].
Proof.
  cbv zeta.
  assert (H : exec (invoke (Remove "datasets/fitbit.csv") None)
                [io_getenv WORKSPACE_BUCKET (Some "gs://b");
                 io_system "gsutil rm gs://b/datasets/fitbit.csv" 1] (Ok Done)).
  { answer (Some "gs://b"). answer 1%Z. finish. }
  assert (H' : exec (invoke (Upload "out.csv" "datasets/out.csv") (Some "gs://b"))
                 [io_isdir "datasets" true;
                  io_system "gsutil cp out.csv gs://b/datasets/out.csv" 2]
                 (Ok Done)).
  { answer true. answer 2%Z. finish. }
  split; [reflexivity |]. split; [exact H |]. split; [| split; [exact H' |]].
  - exact (proj1 (proj2 (@started_process_ends_the_call
                           (Remove "datasets/fitbit.csv") None _ _ eq_refl H
                           _ _ (or_intror (or_introl eq_refl))))).
  - exact (proj1 (proj2 (@started_process_ends_the_call
                           (Upload "out.csv" "datasets/out.csv") (Some "gs://b")
                           _ _ eq_refl H'
                           _ _ (or_intror (or_introl eq_refl))))).
Defined.

(** ** Local directories *)

Lemma dir_events_app a b :
  dir_events (a ++ b) = (dir_events a ++ dir_events b)%list.
Proof. unfold dir_events. apply filter_app. Qed.

Lemma parse_targets_dirs bucket_id lazy file_targets :
  forall dfs tr r,
    exec (parse_targets bucket_id lazy file_targets dfs) tr r ->
    dir_events tr = [].
Proof.
  induction file_targets as [| f rest IH]; intros dfs tr r H.
  - exec_end H. reflexivity.
  - cbn [parse_targets] in H. apply exec_bind_inv in H.
    destruct H as [(e & H & ->) | (d & tr1 & tr2 & H1 & H2 & ->)].
    + apply parse_target_exec in H.
      destruct H as [(_ & -> & _) | (b & _ & H)]; [reflexivity |].
      destruct lazy; destruct H as (res & -> & _); reflexivity.
    + apply parse_target_exec in H1.
      destruct H1 as [(_ & -> & _) | (b & _ & H1)].
      * simpl. eapply IH. exact H2.
      * rewrite dir_events_app, (IH _ _ _ H2), app_nil_r.
        destruct lazy; destruct H1 as (res & -> & _); reflexivity.
Qed.

Lemma collect_all_dirs dfs :
  forall tr r, exec (comprehension collect dfs) tr r -> dir_events tr = [].
Proof.
  induction dfs as [| f rest IH]; intros tr r H.
  - exec_end H. reflexivity.
  - cbn [comprehension] in H. apply exec_bind_inv in H.
    destruct H as [(e & H & ->) | (d & tr1 & tr2 & H1 & H2 & ->)].
    + destruct f as [lf | df].
      * exec_step H. destruct x; exec_end H. reflexivity.
      * exec_end H. reflexivity.
    + apply exec_bind_inv in H2.
      assert (D : dir_events tr2 = []).
      { destruct H2 as [(e & H & ->) | (ys & tr3 & tr4 & H3 & H4 & ->)].
        - eapply IH. exact H.
        - exec_end H4. rewrite app_nil_r. eapply IH. exact H3. }
      rewrite dir_events_app, D, app_nil_r.
      destruct f as [lf | df]; [| exec_end H1; reflexivity].
      exec_step H1. destruct x; exec_end H1. reflexivity.
Qed.

Lemma stack_frames_dirs dfs lazy stack tr r :
  exec (stack_frames dfs lazy stack) tr r -> dir_events tr = [].
Proof.
  unfold stack_frames. intros H.
  destruct stack, lazy; simpl in H.
  - apply exec_bind_inv in H.
    destruct H as [(e & H & ->) | (c & tr1 & tr2 & H1 & H2 & ->)].
    + eapply collect_all_dirs. exact H.
    + apply vstack_all_exec in H2. destruct H2 as [-> _].
      rewrite app_nil_r. eapply collect_all_dirs. exact H1.
  - apply vstack_all_exec in H. destruct H as [-> _]. reflexivity.
  - exec_end H. reflexivity.
  - exec_end H. reflexivity.
Qed.

Lemma read_folder_dirs file_folder v lazy stack tr r :
  exec (read_folder file_folder v lazy stack) tr r -> dir_events tr = [].
Proof.
  intros H. apply read_folder_exec in H.
  destruct H as (pre & cmd & status & out & Hpre & H).
  assert (P : dir_events pre = []).
  { destruct Hpre as [-> | (_ & v' & ->)]; reflexivity. }
  destruct H as [(-> & _) | (ls & cp & rc & tr1 & tr2 & rp & _ & -> & H1 & H2)].
  - rewrite dir_events_app, P. reflexivity.
  - assert (S : dir_events tr2 = []).
    { destruct rp as [dfs | e].
      - eapply stack_frames_dirs. exact H2.
      - destruct H2 as [-> _]. reflexivity. }
    rewrite !dir_events_app, P, (@parse_targets_dirs _ _ _ _ _ _ H1), S.
    reflexivity.
Qed.

Lemma read_single_dirs name file_folder v lazy tr r :
  exec (read_single name file_folder v lazy) tr r -> dir_events tr = [].
Proof.
  intros H.
  destruct file_folder, lazy; exec_step H; exec_step H;
    destruct x0; exec_end H; reflexivity.
Qed.

(** X6.  [read_from_bucket] with a file name that is "csv" or ends in
    ".csv", no folder and a given bucket tests and makes no local
    directory.  A process it starts is the copy of [<bucket>/<name>] into
    [bucket_io]; whatever its exit status, the next and last call gives
    [bucket_io/<name>] to the reader (a scan when [lazy], a read
    otherwise), and the call ends with the reader's answer; [stack] plays
    no part. *)
Theorem read_from_bucket_one_file (name b : string) (lazy stack : bool) tr r :
  name = "csv" \/ endswith ".csv" name ->
  exec (read_from_bucket (Some name) None (Some b) lazy stack) tr r ->
  let cmd := "gcloud storage cp '" ++ b ++ "/" ++ name ++ "' 'bucket_io'" in
  let path := "bucket_io/" ++ name in
  dir_events tr = [] /\
  forall c status,
    In (io_system c status) tr ->
    c = cmd /\
    if lazy then
      exists res,
        tr = [io_system cmd status; io_scan_csv path false res] /\
        r = match res with Ok lf => Ok (Frame (Lazy lf)) | Err e => Err e end
    else
      exists res,
        tr = [io_system cmd status; io_read_csv path false res] /\
        r = match res with Ok df => Ok (Frame (Eager df)) | Err e => Err e end.
Proof.
  intros Hn H cmd path. apply csv_extension_spec in Hn.
  unfold read_from_bucket in H. simpl in H. rewrite Hn in H. simpl in H.
  destruct lazy; exec_step H; exec_step H; destruct x0; exec_end H;
    (split; [reflexivity |]);
    intros c st HIn; in_cases HIn; inversion HIn; subst;
    (split; [reflexivity |]); eexists; split; reflexivity.
Qed.

Lemma read_from_bucket_one_file_witness :
  let d := mkDataFrame ["id"] [["1"]] in
  let tr := [io_system "gcloud storage cp 'gs://b/fitbit.csv' 'bucket_io'" 1;
             io_read_csv "bucket_io/fitbit.csv" false (Ok d)] in
  endswith ".csv" "fitbit.csv" /\
  exec (read_from_bucket (Some "fitbit.csv") None (Some "gs://b") false true)
       tr (Ok (Frame (Eager d))) /\
  dir_events tr = [] /\
  exists res,
    tr = [io_system "gcloud storage cp 'gs://b/fitbit.csv' 'bucket_io'" 1;
          io_read_csv "bucket_io/fitbit.csv" false res] /\
    Ok (Frame (Eager d)) =
    match res with Ok df => Ok (Frame (Eager df)) | Err e => Err e end.
Proof.
  cbv zeta.
  assert (E : endswith ".csv" "fitbit.csv") by (exists "fitbit"; reflexivity).
  assert (H : exec (read_from_bucket (Some "fitbit.csv") None (Some "gs://b")
                      false true)
                [io_system "gcloud storage cp 'gs://b/fitbit.csv' 'bucket_io'" 1;
                 io_read_csv "bucket_io/fitbit.csv" false
                   (Ok (mkDataFrame ["id"] [["1"]]))]
                (Ok (Frame (Eager (mkDataFrame ["id"] [["1"]]))))).
  { answer 1%Z. answer (Ok (mkDataFrame ["id"] [["1"]])). finish. }
  split; [exact E |]. split; [exact H |].
  destruct (@read_from_bucket_one_file "fitbit.csv" "gs://b" false true _ _
              (or_intror E) H) as [D T].
  split; [exact D |].
  exact (proj2 (T _ _ (or_introl eq_refl))).
Defined.

(** X7.  When a folder is given, a [read_from_bucket] call that passes
    the argument checks reads the bucket if it was not given and then
    tests the local directory [bucket_io/<folder>]; it makes the
    directory when the test says it is missing and only then, tests and
    makes no directory after that, and when making it fails the call ends
    with that error without having started any process. *)
Theorem read_from_bucket_staging_folder
  (file_name : option string) (folder : string) (bucket_id : option string)
  (lazy stack : bool) tr r :
  exec (read_from_bucket file_name (Some folder) bucket_id lazy stack) tr r ->
  let dir := "bucket_io/" ++ folder in
  (tr = [] /\ exists msg, r = Err (ValueError msg)) \/
  (exists pre rest,
      tr = (pre ++ rest)%list /\
      ((exists b, bucket_id = Some b /\ pre = []) \/
       (exists v, bucket_id = None /\ pre = [io_getenv WORKSPACE_BUCKET v])) /\
      ((exists post, rest = io_isdir dir true :: post /\ dir_events post = []) \/
       (exists post, rest = io_isdir dir false :: io_makedirs dir (Ok tt) :: post /\
                     dir_events post = []) \/
       (exists e, rest = [io_isdir dir false; io_makedirs dir (Err e)] /\
                  r = Err e /\ commands tr = []))).
Proof.
  intros H dir. apply read_from_bucket_shape in H.
  destruct H as [H | (v & tr0 & trd & post & rd & -> & H0 & Hd & H)];
    [left; exact H | right].
  exists tr0, (trd ++ post)%list. split; [reflexivity |].
  apply default_bucket_exec in H0. destruct H0 as (v' & _ & Hv).
  assert (P : ((exists b, bucket_id = Some b /\ tr0 = []) \/
               (exists v, bucket_id = None /\ tr0 = [io_getenv WORKSPACE_BUCKET v]))
              /\ commands tr0 = []).
  { destruct Hv as [(b & -> & _ & ->) | (-> & ->)]; split; eauto. }
  destruct P as [P C0]. split; [exact P |].
  assert (D : match rd with Ok _ => dir_events post = [] | Err _ => True end).
  { destruct rd as [u | e]; [| exact I].
    destruct file_name as [name |].
    - eapply read_single_dirs. exact H.
    - eapply read_folder_dirs. exact H. }
  apply ensure_staging_dir_some_exec in Hd. fold dir in Hd.
  destruct Hd as [(-> & ->) | [(-> & ->) | (e & -> & ->)]].
  - left. exists post. split; [reflexivity | exact D].
  - right. left. exists post. split; [reflexivity | exact D].
  - right. right. destruct H as [-> ->]. exists e.
    unfold commands in *. rewrite flat_map_app, C0. repeat split.
Qed.

Lemma read_from_bucket_staging_folder_witness :
  let made := [io_getenv WORKSPACE_BUCKET (Some "gs://b");
               io_isdir "bucket_io/x" false;
               io_makedirs "bucket_io/x" (Ok tt);
               io_subprocess "gsutil ls gs://b/x" 0 "";
               io_system "gcloud storage cp 'gs://b/x/*.csv' 'bucket_io/x'" 0] in
  exec (read_from_bucket None (Some "x") None true false) made (Ok (Frames [])) /\
  exists pre rest,
    made = (pre ++ rest)%list /\
    exists post,
      rest = io_isdir "bucket_io/x" false :: io_makedirs "bucket_io/x" (Ok tt)
               :: post /\
      dir_events post = [].
Proof.
  cbv zeta.
  assert (H : exec (read_from_bucket None (Some "x") None true false)
                [io_getenv WORKSPACE_BUCKET (Some "gs://b");
                 io_isdir "bucket_io/x" false;
                 io_makedirs "bucket_io/x" (Ok tt);
                 io_subprocess "gsutil ls gs://b/x" 0 "";
                 io_system "gcloud storage cp 'gs://b/x/*.csv' 'bucket_io/x'" 0]
                (Ok (Frames []))).
  { answer (Some "gs://b"). answer false. answer (Ok tt).
    answer (0%Z, ""). answer 0%Z. finish. }
  split; [exact H |].
  destruct (@read_from_bucket_staging_folder _ _ _ _ _ _ _ H)
    as [(E & _) | (pre & rest & E & P & T)]; [discriminate E |].
  exists pre, rest. split; [exact E |].
  destruct P as [(b & Eb & _) | (v & _ & ->)]; [discriminate Eb |].
  simpl in E. inversion E; subst.
  destruct T as [(post & T & _) | [T | (e & T & _)]];
    [discriminate T | exact T | discriminate T].
Defined.

(** X16.  [read_from_bucket] with a file name that is "csv" or ends in
    ".csv", a folder, a given bucket and [lazy=True].  A process it
    starts is the copy of [<bucket>/<folder>/<name>] into
    [bucket_io/<folder>]; before it the call has tested that directory,
    and made it when it was missing; after it, whatever the exit status,
    the next and last call is the scan of [bucket_io/<folder>/<name>],
    inside the directory the copy was sent to, and the call ends with
    the answer of that scan. *)
Theorem read_from_bucket_one_file_in_folder
  (name folder b : string) (stack : bool) tr r :
  name = "csv" \/ endswith ".csv" name ->
  exec (read_from_bucket (Some name) (Some folder) (Some b) true stack) tr r ->
  let dir := "bucket_io/" ++ folder in
  let cmd := "gcloud storage cp '" ++ b ++ "/" ++ folder ++ "/" ++ name ++
             "' '" ++ dir ++ "'" in
  forall c status,
    In (io_system c status) tr ->
    c = cmd /\
    (dir_events tr = [io_isdir dir true] \/
     dir_events tr = [io_isdir dir false; io_makedirs dir (Ok tt)]) /\
    exists res,
      tr = (dir_events tr ++
            [io_system cmd status; io_scan_csv (dir ++ "/" ++ name) false res])%list /\
      r = match res with Ok lf => Ok (Frame (Lazy lf)) | Err e => Err e end.
Proof.
  intros Hn H dir cmd c st HIn. apply csv_extension_spec in Hn.
  unfold read_from_bucket in H. simpl in H. rewrite Hn in H. simpl in H.
  exec_step H. destruct x; simpl in H.
  - exec_step H. exec_step H. destruct x0; exec_end H;
      in_cases HIn; inversion HIn; subst;
      (split; [reflexivity |]); (split; [left; reflexivity |]);
      eexists; split; reflexivity.
  - exec_step H. destruct x as [[] | e]; simpl in H.
    + exec_step H. exec_step H. destruct x0; exec_end H;
        in_cases HIn; inversion HIn; subst;
        (split; [reflexivity |]); (split; [right; reflexivity |]);
        eexists; split; reflexivity.
    + exec_end H. in_cases HIn.
Qed.

Lemma read_from_bucket_one_file_in_folder_witness :
  let lf := mkLazyFrame "bucket_io/d/a.csv" in
  let tr := [io_isdir "bucket_io/d" false; io_makedirs "bucket_io/d" (Ok tt);
             io_system "gcloud storage cp 'gs://b/d/a.csv' 'bucket_io/d'" 1;
             io_scan_csv "bucket_io/d/a.csv" false (Ok lf)] in
  endswith ".csv" "a.csv" /\
  exec (read_from_bucket (Some "a.csv") (Some "d") (Some "gs://b") true false)
       tr (Ok (Frame (Lazy lf))) /\
  exists res,
    tr = (dir_events tr ++
          [io_system "gcloud storage cp 'gs://b/d/a.csv' 'bucket_io/d'" 1;
           io_scan_csv "bucket_io/d/a.csv" false res])%list /\
    Ok (Frame (Lazy lf)) =
    match res with Ok lf' => Ok (Frame (Lazy lf')) | Err e => Err e end.
Proof.
  cbv zeta.
  assert (E : endswith ".csv" "a.csv") by (exists "a"; reflexivity).
  assert (H : exec (read_from_bucket (Some "a.csv") (Some "d") (Some "gs://b")
                      true false)
                [io_isdir "bucket_io/d" false; io_makedirs "bucket_io/d" (Ok tt);
                 io_system "gcloud storage cp 'gs://b/d/a.csv' 'bucket_io/d'" 1;
                 io_scan_csv "bucket_io/d/a.csv" false
                   (Ok (mkLazyFrame "bucket_io/d/a.csv"))]
                (Ok (Frame (Lazy (mkLazyFrame "bucket_io/d/a.csv"))))).
  { answer false. answer (Ok tt). answer 1%Z.
    answer (Ok (mkLazyFrame "bucket_io/d/a.csv")). finish. }
  split; [exact E |]. split; [exact H |].
  exact (proj2 (proj2 (@read_from_bucket_one_file_in_folder
                         "a.csv" "d" "gs://b" false _ _ (or_intror E) H
                         _ _ (or_intror (or_intror (or_introl eq_refl)))))).
Defined.
